(** * WebBridge: a request/response bridge over a broadcast message channel

    A shallow embedding of [src/index.ts] (class [WebBridge]) together with
    the properties of its handshake, correlation table and dispatcher.

    The class is event driven: every entry point (a public method, a
    [message] event, a timer callback, the settlement of a promise returned
    by a handler) runs to completion, promise reactions included, before the
    next one starts.  The embedding follows that shape: one Rocq function per
    method, explicit state passing over a record that has the fields of the
    class, and a list of observable effects (envelopes posted on the channel,
    settlements of the promises returned by [invoke], console output). *)

From Stdlib Require Import String Ascii ZArith List Bool Lia DecimalString.
Import ListNotations.
Open Scope string_scope.

(** ** JavaScript values carried by envelopes *)

(** Payloads are structured-cloneable values.  Numbers are restricted to
    integers (timestamps and counters are the only numbers the bridge itself
    produces); arrays and non-integral numbers are not modelled. *)
#[warnings="-register-all"] Inductive value : Type :=
| VUndefined
| VNull
| VBool (b : bool)
| VNum (n : Z)
| VStr (s : string)
| VObj (fields : list (string * value)).

(** [ToBoolean]: what [if (x)], [!x] and [x || y] test. *)
Definition truthy (v : value) : bool :=
  match v with
  | VUndefined | VNull => false
  | VBool b => b
  | VNum n => negb (n =? 0)%Z
  | VStr s => negb (s =? "")
  | VObj _ => true
  end.

(** [!message || typeof message !== "object"] is false exactly on objects
    ([typeof null] is ["object"], but [null] is falsy). *)
Definition isObject (v : value) : bool :=
  match v with
  | VObj _ => true
  | _ => false
  end.

Fixpoint lookupField (name : string) (fields : list (string * value)) : value :=
  match fields with
  | [] => VUndefined
  | (k, v) :: rest => if k =? name then v else lookupField name rest
  end.

(** Property read [v.name]; a missing property reads as [undefined]. *)
Definition getField (name : string) (v : value) : value :=
  match v with
  | VObj fields => lookupField name fields
  | _ => VUndefined
  end.

Definition decimal (n : Z) : string := NilZero.string_of_int (Z.to_int n).

(** [String(v)], as used by template literals and by [new Error(v)]. *)
Definition toString (v : value) : string :=
  match v with
  | VUndefined => "undefined"
  | VNull => "null"
  | VBool true => "true"
  | VBool false => "false"
  | VNum n => decimal n
  | VStr s => s
  | VObj _ => "[object Object]"
  end.

(** Strict equality with a string, [v === s]. *)
Definition strictEqStr (v : value) (s : string) : bool :=
  match v with
  | VStr s' => s' =? s
  | _ => false
  end.

(** ** Errors and promise settlements *)

(** [new Error(message)]. *)
Record JsError : Type := mkError { message : string }.

(** [Error.prototype.toString]: the name alone when the message is empty. *)
Definition errorToString (e : JsError) : string :=
  if message e =? "" then "Error" else "Error: " ++ message e.

(** What a handler may throw: an [Error] or any other value. *)
Inductive thrown : Type :=
| ThrowError (e : JsError)
| ThrowValue (v : value).

Inductive Settlement : Type :=
| Resolved (v : value)
| Rejected (e : JsError).

(** ** Constants *)

Definition DEFAULT_MESSAGE_TYPE : string := "web-bridge".
Definition HANDSHAKE_ACTION : string := "__handshake__".

(** ** Configuration *)

Module Opt.
(** A timing option as the class holds it.  TypeScript types these
    properties [number] and nothing checks them at run time; a missing
    property and one given as [undefined] are different arguments of
    [Object.assign].  Besides the integers the model keeps the values that
    [>=] and [setTimeout] treat differently from every integer: a finite
    number strictly between [n] and [n + 1], [NaN], the two infinities and
    [undefined]. *)
Inductive setting : Type :=
| Int (n : Z)
| Between (n : Z)
| NaN
| Infinity
| NegInfinity
| Undefined.

(** [count >= s] for an integer [count], with [ToNumber] applied to [s]. *)
Definition ge (count : Z) (s : setting) : bool :=
  match s with
  | Int n => (n <=? count)%Z
  | Between n => (n <? count)%Z
  | NegInfinity => true
  | NaN | Infinity | Undefined => false
  end.

(** The delay the host is known to honour when [setTimeout] is called with
    [s]: a number from 0 up to the largest signed 32-bit integer, with its
    fraction dropped, is waited for.  For every other argument (a negative
    number, 2^31 or more, [NaN], an infinity, [undefined]) hosts differ, and
    the timer may run at once. *)
Definition honoured (s : setting) : Z :=
  match s with
  | Int n | Between n =>
      if ((0 <=? n) && (n <? 2147483648))%Z then n else 0%Z
  | _ => 0%Z
  end.

Record t : Type := mk {
  requestTimeout : setting;
  handshakeTimeout : setting;
  handshakeRetryInterval : setting;
  maxHandshakeAttempts : setting
}.

(** The initial value of the [options] field. *)
Definition defaults : t :=
  {| requestTimeout := Int 30000;
     handshakeTimeout := Int 500;
     handshakeRetryInterval := Int 1000;
     maxHandshakeAttempts := Int 10 |}.

(** The second argument of the constructor; every property is optional:
    [None] is a property that is missing, [Some s] one that is present
    with value [s]. *)
Record user : Type := mkUser {
  allowedIds : option (list string);
  messageType : option string;
  u_requestTimeout : option setting;
  u_handshakeTimeout : option setting;
  u_handshakeRetryInterval : option setting;
  u_maxHandshakeAttempts : option setting
}.

Definition none : user := mkUser None None None None None None.

Definition orElse {A : Type} (o : option A) (d : A) : A :=
  match o with
  | Some a => a
  | None => d
  end.

(** [Object.assign(this.options, options)], for the properties read later:
    every property present in the argument is copied, whatever its value. *)
Definition assign (d : t) (u : user) : t :=
  {| requestTimeout := orElse (u_requestTimeout u) (requestTimeout d);
     handshakeTimeout := orElse (u_handshakeTimeout u) (handshakeTimeout d);
     handshakeRetryInterval :=
       orElse (u_handshakeRetryInterval u) (handshakeRetryInterval d);
     maxHandshakeAttempts :=
       orElse (u_maxHandshakeAttempts u) (maxHandshakeAttempts d) |}.
End Opt.

(** ** Handlers *)

(** A handler returns a plain value, throws, or returns a promise that
    settles at some later turn of the event loop. *)
Inductive HandlerResult : Type :=
| Returns (v : value)
| Throws (t : thrown)
| ReturnsPromise (later : value + thrown).

(** A handler receives the payload; the first argument is the clock at the
    time of the call, which the built-in handshake handler reads through
    [Date.now()].  Handlers that call back into the bridge while they run
    are not modelled. *)
Definition Handler : Type := Z -> value -> HandlerResult.

(** ** Insertion-ordered maps and sets

    [Map] and [Set] iterate in insertion order and [destroy] rejects the
    pending calls in that order, so both are association lists here. *)

Section OrderedMap.
Context {V : Type}.

Fixpoint map_get (k : string) (m : list (string * V)) : option V :=
  match m with
  | [] => None
  | (k', v) :: rest => if k' =? k then Some v else map_get k rest
  end.

(** [Map.prototype.set]: an existing key keeps its position. *)
Fixpoint map_set (k : string) (v : V) (m : list (string * V))
  : list (string * V) :=
  match m with
  | [] => [(k, v)]
  | (k', v') :: rest =>
      if k' =? k then (k, v) :: rest else (k', v') :: map_set k v rest
  end.

Definition map_delete (k : string) (m : list (string * V))
  : list (string * V) :=
  filter (fun kv => negb (fst kv =? k)) m.

Definition map_keys (m : list (string * V)) : list string := map fst m.
End OrderedMap.

Definition set_has (x : string) (s : list string) : bool :=
  existsb (fun y => y =? x) s.

Definition set_add (x : string) (s : list string) : list string :=
  if set_has x s then s else (s ++ [x])%list.

Definition set_delete (x : string) (s : list string) : list string :=
  filter (fun y => negb (y =? x)) s.

(** [new Set(array)]. *)
Definition set_of_list (l : list string) : list string :=
  fold_left (fun s x => set_add x s) l [].

(** ** State of one bridge *)

(** The [resolve]/[reject] pair stored in a pending entry belongs either to
    the promise returned by one [invokeRequest] call (named by the caller it
    was made for) or to the promise of one handshake attempt, whose
    reactions are the two branches of [attemptHandshake]. *)
Inductive Callbacks : Type :=
| InvokeCall (caller : nat)
| HandshakeAttempt.

(** An entry of [pendingRequests]. *)
Record Pending : Type := mkPending {
  callbacks : Callbacks;
  timeout : nat
}.

(** The three closures passed to [setTimeout]. *)
Inductive TimerCallback : Type :=
| RequestTimeout (id : string) (action : string) (caller : nat)
| HandshakeTimeout (id : string)
| HandshakeRetry.

Record Timer : Type := mkTimer {
  tid : nat;
  callback : TimerCallback;
  delay : Opt.setting;
  armedAt : Z
}.

(** An [invoke] suspended on [await this.ensureReady()]. *)
Record Waiter : Type := mkWaiter {
  w_caller : nat;
  w_action : string;
  w_data : value
}.

(** A [handleRequestMessage] suspended on [await result]. *)
Record Suspended : Type := mkSuspended {
  s_action : value;
  s_needResponse : value;
  s_id : value;
  s_later : value + thrown
}.

(** What the class reads from its host: the clock, [Math.random], the timer
    table, whether [handleMessage] is attached to the [message] event, and
    the handler calls parked on a promise. *)
Record Host : Type := mkHost {
  now : Z;
  mathRandom : nat -> string;
  draws : nat;
  timers : list Timer;
  nextTimer : nat;
  listening : bool;
  suspended : list Suspended
}.

(** The fields of [WebBridge].  [readyPromise] holds the callers waiting on
    the promise; [handshakeRetryInterval] is the handle of the retry timer. *)
Record Bridge : Type := mkBridge {
  communicationId : string;
  messageType : string;
  allowedIds : list string;
  messageHandlers : list (string * Handler);
  pendingRequests : list (string * Pending);
  isReady : bool;
  readyPromise : option (list Waiter);
  handshakeRetryInterval : option nat;
  handshakeAttempts : Z;
  options : Opt.t;
  host : Host
}.

Definition set_allowedIds (x : list string) (b : Bridge) : Bridge :=
  mkBridge (communicationId b) (messageType b) x (messageHandlers b)
    (pendingRequests b) (isReady b) (readyPromise b)
    (handshakeRetryInterval b) (handshakeAttempts b) (options b) (host b).

Definition set_messageHandlers (x : list (string * Handler)) (b : Bridge)
  : Bridge :=
  mkBridge (communicationId b) (messageType b) (allowedIds b) x
    (pendingRequests b) (isReady b) (readyPromise b)
    (handshakeRetryInterval b) (handshakeAttempts b) (options b) (host b).

Definition set_pendingRequests (x : list (string * Pending)) (b : Bridge)
  : Bridge :=
  mkBridge (communicationId b) (messageType b) (allowedIds b)
    (messageHandlers b) x (isReady b) (readyPromise b)
    (handshakeRetryInterval b) (handshakeAttempts b) (options b) (host b).

Definition set_isReady (x : bool) (b : Bridge) : Bridge :=
  mkBridge (communicationId b) (messageType b) (allowedIds b)
    (messageHandlers b) (pendingRequests b) x (readyPromise b)
    (handshakeRetryInterval b) (handshakeAttempts b) (options b) (host b).

Definition set_readyPromise (x : option (list Waiter)) (b : Bridge) : Bridge :=
  mkBridge (communicationId b) (messageType b) (allowedIds b)
    (messageHandlers b) (pendingRequests b) (isReady b) x
    (handshakeRetryInterval b) (handshakeAttempts b) (options b) (host b).

Definition set_handshakeRetryInterval (x : option nat) (b : Bridge) : Bridge :=
  mkBridge (communicationId b) (messageType b) (allowedIds b)
    (messageHandlers b) (pendingRequests b) (isReady b) (readyPromise b)
    x (handshakeAttempts b) (options b) (host b).

Definition set_handshakeAttempts (x : Z) (b : Bridge) : Bridge :=
  mkBridge (communicationId b) (messageType b) (allowedIds b)
    (messageHandlers b) (pendingRequests b) (isReady b) (readyPromise b)
    (handshakeRetryInterval b) x (options b) (host b).

Definition set_host (x : Host) (b : Bridge) : Bridge :=
  mkBridge (communicationId b) (messageType b) (allowedIds b)
    (messageHandlers b) (pendingRequests b) (isReady b) (readyPromise b)
    (handshakeRetryInterval b) (handshakeAttempts b) (options b) x.

Definition set_now (x : Z) (h : Host) : Host :=
  mkHost x (mathRandom h) (draws h) (timers h) (nextTimer h) (listening h)
    (suspended h).

Definition set_draws (x : nat) (h : Host) : Host :=
  mkHost (now h) (mathRandom h) x (timers h) (nextTimer h) (listening h)
    (suspended h).

Definition set_timers (x : list Timer) (h : Host) : Host :=
  mkHost (now h) (mathRandom h) (draws h) x (nextTimer h) (listening h)
    (suspended h).

Definition set_nextTimer (x : nat) (h : Host) : Host :=
  mkHost (now h) (mathRandom h) (draws h) (timers h) x (listening h)
    (suspended h).

Definition set_listening (x : bool) (h : Host) : Host :=
  mkHost (now h) (mathRandom h) (draws h) (timers h) (nextTimer h) x
    (suspended h).

Definition set_suspended (x : list Suspended) (h : Host) : Host :=
  mkHost (now h) (mathRandom h) (draws h) (timers h) (nextTimer h)
    (listening h) x.

(** What a turn of the event loop makes observable outside the bridge. *)
Inductive Effect : Type :=
| Post (envelope : value)
| Settle (caller : nat) (outcome : Settlement)
| ConsoleError (text : string) (reason : thrown).

(** ** Host primitives *)

Definition dateNow (b : Bridge) : Z := now (host b).

(** [setTimeout(callback, ms)]: a fresh handle, never reused. *)
Definition setTimeout (cb : TimerCallback) (ms : Opt.setting) (b : Bridge)
  : nat * Bridge :=
  let h := nextTimer (host b) in
  (h, set_host
        (set_nextTimer (S h)
           (set_timers (timers (host b) ++ [mkTimer h cb ms (dateNow b)])%list
              (host b))) b).

Definition clearTimeout (h : nat) (b : Bridge) : Bridge :=
  set_host
    (set_timers (filter (fun t => negb (tid t =? h)%nat) (timers (host b)))
       (host b)) b.

(** [globalThis.postMessage(message, "*")]. *)
Definition postMessage (envelope : value) : list Effect := [Post envelope].

(** ** The methods of [WebBridge] *)

Definition addAllowedId (id : string) (b : Bridge) : Bridge :=
  set_allowedIds (set_add id (allowedIds b)) b.

Definition removeAllowedId (id : string) (b : Bridge) : Bridge :=
  set_allowedIds (set_delete id (allowedIds b)) b.

(** [this.allowedIds.size === 0 || this.allowedIds.has(communicationId)]. *)
Definition isAllowedId (id : string) (b : Bridge) : bool :=
  (length (allowedIds b) =? 0)%nat || set_has id (allowedIds b).

(** The same test on the untyped [message.communicationId]: the set holds
    strings only, so [has] fails on every other value. *)
Definition isAllowedValue (v : value) (b : Bridge) : bool :=
  (length (allowedIds b) =? 0)%nat ||
  match v with
  | VStr id => set_has id (allowedIds b)
  | _ => false
  end.

(** [`${Date.now()}-${Math.random().toString(36).substr(2, 9)}`]; the host
    supplies the successive random suffixes. *)
Definition generateId (b : Bridge) : string * Bridge :=
  (decimal (dateNow b) ++ "-" ++ mathRandom (host b) (draws (host b)),
   set_host (set_draws (S (draws (host b))) (host b)) b).

Definition stopHandshakeRetry (b : Bridge) : Bridge :=
  match handshakeRetryInterval b with
  | Some h => set_handshakeRetryInterval None (clearTimeout h b)
  | None => b
  end.

Definition requestEnvelope (b : Bridge) (id action : string) (data : value)
  (needResponse : bool) : value :=
  VObj [("type", VStr (messageType b));
        ("communicationId", VStr (communicationId b));
        ("id", VStr id);
        ("action", VStr action);
        ("data", data);
        ("needResponse", VBool needResponse);
        ("timestamp", VNum (dateNow b))].

(** The executor of the promise built by [sendSingleHandshakeRequest]. *)
Definition sendSingleHandshakeRequest (b : Bridge) : Bridge * list Effect :=
  let (id, b1) := generateId b in
  let (t, b2) :=
    setTimeout (HandshakeTimeout id) (Opt.handshakeTimeout (options b1)) b1 in
  let b3 :=
    set_pendingRequests
      (map_set id (mkPending HandshakeAttempt t) (pendingRequests b2)) b2 in
  (b3, postMessage
         (requestEnvelope b3 id HANDSHAKE_ACTION
            (VObj [("timestamp", VNum (dateNow b3))]) true)).

(** The executor of the promise built by [invokeRequest]. *)
Definition invokeRequest (caller : nat) (action : string) (data : value)
  (b : Bridge) : Bridge * list Effect :=
  let (id, b1) := generateId b in
  let (t, b2) :=
    setTimeout (RequestTimeout id action caller)
      (Opt.requestTimeout (options b1)) b1 in
  let b3 :=
    set_pendingRequests
      (map_set id (mkPending (InvokeCall caller) t) (pendingRequests b2)) b2 in
  (b3, postMessage (requestEnvelope b3 id action data true)).

(** Settling [readyPromise] runs [ensureReady]'s [finally] block and then
    resumes every [invoke] waiting on it, in the order of the calls. *)
Fixpoint resumeInvokes (ws : list Waiter) (b : Bridge) : Bridge * list Effect :=
  match ws with
  | [] => (b, [])
  | w :: rest =>
      let (b1, e1) := invokeRequest (w_caller w) (w_action w) (w_data w) b in
      let (b2, e2) := resumeInvokes rest b1 in
      (b2, (e1 ++ e2)%list)
  end.

Definition resolveReady (b : Bridge) : Bridge * list Effect :=
  match readyPromise b with
  | Some ws => resumeInvokes ws (set_readyPromise None b)
  | None => (b, [])
  end.

Definition rejectReady (e : JsError) (b : Bridge) : Bridge * list Effect :=
  match readyPromise b with
  | Some ws =>
      (set_readyPromise None b,
       map (fun w => Settle (w_caller w) (Rejected e)) ws)
  | None => (b, [])
  end.

(** [attemptHandshake] up to its [await]. *)
Definition attemptHandshake (b : Bridge) : Bridge * list Effect :=
  sendSingleHandshakeRequest b.

(** [attemptHandshake] after the [await], the attempt having succeeded. *)
Definition attemptHandshake_then (b : Bridge) : Bridge * list Effect :=
  resolveReady (stopHandshakeRetry (set_isReady true b)).

(** The [catch] block of [attemptHandshake]. *)
Definition attemptHandshake_catch (error : JsError) (b : Bridge)
  : Bridge * list Effect :=
  let b1 := set_handshakeAttempts (handshakeAttempts b + 1) b in
  if Opt.ge (handshakeAttempts b1) (Opt.maxHandshakeAttempts (options b1)) then
    rejectReady (mkError ("建联失败: " ++ errorToString error))
      (stopHandshakeRetry b1)
  else
    let (h, b2) :=
      setTimeout HandshakeRetry (Opt.handshakeRetryInterval (options b1)) b1 in
    (set_handshakeRetryInterval (Some h) b2, []).

(** [await this.ensureReady(); return this.invokeRequest(action, data)]. *)
Definition invoke (caller : nat) (action : string) (data : value) (b : Bridge)
  : Bridge * list Effect :=
  if isReady b then invokeRequest caller action data b
  else
    match readyPromise b with
    | Some ws =>
        (set_readyPromise (Some (ws ++ [mkWaiter caller action data])%list) b, [])
    | None =>
        let (b1, e) := attemptHandshake b in
        (set_readyPromise (Some [mkWaiter caller action data]) b1, e)
    end.

Definition send (action : string) (data : value) (b : Bridge)
  : Bridge * list Effect :=
  let (id, b1) := generateId b in
  (b1, postMessage (requestEnvelope b1 id action data false)).

Definition handle (action : string) (handler : Handler) (b : Bridge) : Bridge :=
  set_messageHandlers (map_set action handler (messageHandlers b)) b.

(** The closure returned by [handle]. *)
Definition unhandle (action : string) (b : Bridge) : Bridge :=
  set_messageHandlers (map_delete action (messageHandlers b)) b.

Definition getReady (b : Bridge) : bool := isReady b.

(** Running the reaction of a settled pending promise. *)
Definition fire (cb : Callbacks) (outcome : Settlement) (b : Bridge)
  : Bridge * list Effect :=
  match cb with
  | InvokeCall caller => (b, [Settle caller outcome])
  | HandshakeAttempt =>
      match outcome with
      | Resolved _ => attemptHandshake_then b
      | Rejected e => attemptHandshake_catch e b
      end
  end.

Fixpoint fireAll (jobs : list (Callbacks * Settlement)) (b : Bridge)
  : Bridge * list Effect :=
  match jobs with
  | [] => (b, [])
  | (cb, outcome) :: rest =>
      let (b1, e1) := fire cb outcome b in
      let (b2, e2) := fireAll rest b1 in
      (b2, (e1 ++ e2)%list)
  end.

(** [clearPendingRequests], synchronous part: every timer cleared, every
    promise rejected (its reaction queued), the table emptied. *)
Definition clearPendingRequests (b : Bridge)
  : Bridge * list (Callbacks * Settlement) :=
  let entries := pendingRequests b in
  let b1 := fold_left (fun acc kv => clearTimeout (timeout (snd kv)) acc)
              entries b in
  (set_pendingRequests [] b1,
   map (fun kv => (callbacks (snd kv), Rejected (mkError "连接已断开")))
     entries).

(** [destroy], synchronous part, with the reactions it leaves queued. *)
Definition destroy (b : Bridge) : Bridge * list (Callbacks * Settlement) :=
  let b1 := stopHandshakeRetry b in
  let b2 := set_messageHandlers [] b1 in
  let (b3, jobs) := clearPendingRequests b2 in
  (set_host (set_listening false (host b3)) b3, jobs).

Definition responseEnvelope (b : Bridge) (id : string)
  (requestId : value) (success : bool) (data error : value) : value :=
  VObj [("type", VStr (messageType b));
        ("communicationId", VStr (communicationId b));
        ("id", VStr id);
        ("requestId", requestId);
        ("success", VBool success);
        ("data", data);
        ("error", error);
        ("timestamp", VNum (dateNow b))].

Definition sendResponse (requestId : value) (success : bool)
  (data error : value) (b : Bridge) : Bridge * list Effect :=
  let (id, b1) := generateId b in
  (b1, postMessage (responseEnvelope b1 id requestId success data error)).

(** [this.messageHandlers.get(action)] on the untyped [message.action]. *)
Definition handlerFor (action : value) (b : Bridge) : option Handler :=
  match action with
  | VStr a => map_get a (messageHandlers b)
  | _ => None
  end.

(** [this.pendingRequests.get(requestId)] on the untyped field. *)
Definition pendingFor (requestId : value) (b : Bridge) : option Pending :=
  match requestId with
  | VStr id => map_get id (pendingRequests b)
  | _ => None
  end.

Definition deletePending (requestId : value) (b : Bridge) : Bridge :=
  match requestId with
  | VStr id => set_pendingRequests (map_delete id (pendingRequests b)) b
  | _ => b
  end.

(** [handleRequestMessage] after the handler produced [result]. *)
Definition handleRequest_done (needResponse id result : value) (b : Bridge)
  : Bridge * list Effect :=
  if truthy needResponse then sendResponse id true result VUndefined b
  else (b, []).

(** The [catch] block of [handleRequestMessage]. *)
Definition handleRequest_catch (action needResponse id : value) (t : thrown)
  (b : Bridge) : Bridge * list Effect :=
  let log := ConsoleError ("处理消息错误 [" ++ toString action ++ "]:") t in
  if truthy needResponse then
    let errorMessage :=
      match t with
      | ThrowError e => message e
      | ThrowValue v => toString v
      end in
    let (b1, e) := sendResponse id false VUndefined (VStr errorMessage) b in
    (b1, log :: e)
  else (b, [log]).

Definition handleRequestMessage (msg : value) (b : Bridge)
  : Bridge * list Effect :=
  let action := getField "action" msg in
  let data := getField "data" msg in
  let needResponse := getField "needResponse" msg in
  let id := getField "id" msg in
  match handlerFor action b with
  | None =>
      if truthy needResponse then
        sendResponse id false VUndefined
          (VStr ("未找到处理器: " ++ toString action)) b
      else (b, [])
  | Some handler =>
      match handler (dateNow b) data with
      | Returns result => handleRequest_done needResponse id result b
      | Throws t => handleRequest_catch action needResponse id t b
      | ReturnsPromise later =>
          (set_host
             (set_suspended
                (suspended (host b) ++
                 [mkSuspended action needResponse id later])%list (host b)) b,
           [])
      end
  end.

(** [handleRequestMessage] resumed when the awaited promise settles. *)
Definition resumeRequest (s : Suspended) (b : Bridge) : Bridge * list Effect :=
  match s_later s with
  | inl result => handleRequest_done (s_needResponse s) (s_id s) result b
  | inr t => handleRequest_catch (s_action s) (s_needResponse s) (s_id s) t b
  end.

Definition handleResponseMessage (msg : value) (b : Bridge)
  : Bridge * list Effect :=
  let requestId := getField "requestId" msg in
  let success := getField "success" msg in
  let data := getField "data" msg in
  let error := getField "error" msg in
  match pendingFor requestId b with
  | Some pending =>
      let b1 := clearTimeout (timeout pending) b in
      let b2 := deletePending requestId b1 in
      if truthy success then fire (callbacks pending) (Resolved data) b2
      else
        fire (callbacks pending)
          (Rejected
             (mkError (if truthy error then toString error else "未知错误")))
          b2
  | None => (b, [])
  end.

(** The listener attached to the [message] event; [msg] is [event.data]. *)
Definition handleMessage (msg : value) (b : Bridge) : Bridge * list Effect :=
  if negb (isObject msg) || negb (strictEqStr (getField "type" msg) (messageType b))
  then (b, [])
  else if negb (isAllowedValue (getField "communicationId" msg) b)
  then (b, [])
  else
    let (b1, e1) :=
      if truthy (getField "action" msg) then handleRequestMessage msg b
      else (b, []) in
    let (b2, e2) :=
      if truthy (getField "requestId" msg) then handleResponseMessage msg b1
      else (b1, []) in
    (b2, (e1 ++ e2)%list).

(** The handler installed by [setupHandshakeHandler]. *)
Definition handshakeHandler : Handler :=
  fun clock _ => Returns (VObj [("success", VBool true);
                                ("timestamp", VNum clock)]).

(** A host in which nothing has happened yet. *)
Definition freshHost (clock : Z) (rnd : nat -> string) : Host :=
  mkHost clock rnd 0 [] 1 false [].

(** The constructor; [createBridge] is the same function. *)
Definition createBridge (communicationId : string) (o : Opt.user) (h : Host)
  : Bridge :=
  let b :=
    mkBridge communicationId
      (match Opt.messageType o with
       | Some t => if t =? "" then DEFAULT_MESSAGE_TYPE else t
       | None => DEFAULT_MESSAGE_TYPE
       end)
      (set_of_list (Opt.orElse (Opt.allowedIds o) []))
      [] [] false None None 0
      (Opt.assign Opt.defaults o)
      (set_listening true h) in
  handle HANDSHAKE_ACTION handshakeHandler b.

(** ** The event loop of one bridge *)

(** One turn of the event loop as seen by a bridge: a call of a public
    method, a [message] event, a timer that expires, a handler promise that
    settles, or time passing. *)
Inductive Event : Type :=
| Invoke (caller : nat) (action : string) (data : value)
| Send (action : string) (data : value)
| Handle (action : string) (handler : Handler)
| Unhandle (action : string)
| AddAllowedId (id : string)
| RemoveAllowedId (id : string)
| Destroy
| MessageEvent (data : value)
| TimerFires (h : nat)
| PromiseSettles (k : nat)
| Elapse (dt : Z).

Definition findTimer (h : nat) (b : Bridge) : option Timer :=
  find (fun t => (tid t =? h)%nat) (timers (host b)).

(** The body of the closure given to [setTimeout]. *)
Definition runTimer (cb : TimerCallback) (b : Bridge) : Bridge * list Effect :=
  match cb with
  | RequestTimeout id action caller =>
      (deletePending (VStr id) b,
       [Settle caller (Rejected (mkError ("请求超时: " ++ action)))])
  | HandshakeTimeout id =>
      attemptHandshake_catch (mkError "握手超时") (deletePending (VStr id) b)
  | HandshakeRetry => attemptHandshake b
  end.

(** Removing the [k]-th parked handler call. *)
Fixpoint removeNth {A : Type} (k : nat) (l : list A) : list A :=
  match l, k with
  | [], _ => []
  | _ :: rest, O => rest
  | x :: rest, S k' => x :: removeNth k' rest
  end.

Definition step (b : Bridge) (ev : Event) : Bridge * list Effect :=
  match ev with
  | Invoke caller action data => invoke caller action data b
  | Send action data => send action data b
  | Handle action handler => (handle action handler b, [])
  | Unhandle action => (unhandle action b, [])
  | AddAllowedId id => (addAllowedId id b, [])
  | RemoveAllowedId id => (removeAllowedId id b, [])
  | Destroy => let (b1, jobs) := destroy b in fireAll jobs b1
  | MessageEvent data =>
      if listening (host b) then handleMessage data b else (b, [])
  | TimerFires h =>
      match findTimer h b with
      | Some t =>
          let b1 := clearTimeout h b in
          let b2 :=
            set_host
              (set_now (Z.max (dateNow b1)
                          (armedAt t + Opt.honoured (delay t)))
                 (host b1)) b1 in
          runTimer (callback t) b2
      | None => (b, [])
      end
  | PromiseSettles k =>
      match nth_error (suspended (host b)) k with
      | Some s =>
          resumeRequest s
            (set_host (set_suspended (removeNth k (suspended (host b)))
                         (host b)) b)
      | None => (b, [])
      end
  | Elapse dt =>
      (set_host (set_now (dateNow b + Z.max 0 dt) (host b)) b, [])
  end.

(** Running a list of events, collecting the effects. *)
Fixpoint run (b : Bridge) (evs : list Event) : Bridge * list Effect :=
  match evs with
  | [] => (b, [])
  | ev :: rest =>
      let (b1, e1) := step b ev in
      let (b2, e2) := run b1 rest in
      (b2, (e1 ++ e2)%list)
  end.

(** The states a bridge can be in: those the constructor builds and those a
    turn of the event loop leads to. *)
Inductive reachable : Bridge -> Prop :=
| reachable_new : forall cid o clock rnd,
    reachable (createBridge cid o (freshHost clock rnd))
| reachable_step : forall b ev,
    reachable b -> reachable (fst (step b ev)).

(** ** Several bridges on one channel

    [globalThis.postMessage(message, "*")] queues one [message] event on the
    global object; every listener attached to it, the sender's included, is
    called with it, in the order the bridges were constructed. *)

Record World : Type := mkWorld {
  peers : list Bridge;
  channel : list value;
  observed : list Effect
}.

Definition posted (effs : list Effect) : list value :=
  flat_map (fun e => match e with Post m => [m] | _ => [] end) effs.

(** Dispatching one [message] event to every listener. *)
Fixpoint dispatch (msg : value) (bs : list Bridge) : list Bridge * list Effect :=
  match bs with
  | [] => ([], [])
  | b :: rest =>
      let (b1, e1) := step b (MessageEvent msg) in
      let (rest1, e2) := dispatch msg rest in
      (b1 :: rest1, (e1 ++ e2)%list)
  end.

Fixpoint replaceNth {A : Type} (k : nat) (x : A) (l : list A) : list A :=
  match l, k with
  | [], _ => []
  | _ :: rest, O => x :: rest
  | y :: rest, S k' => y :: replaceNth k' x rest
  end.

(** Peer [k] takes a turn of its own (a method call, a timer). *)
Definition act (k : nat) (ev : Event) (w : World) : World :=
  match nth_error (peers w) k with
  | Some b =>
      let (b1, e) := step b ev in
      mkWorld (replaceNth k b1 (peers w)) (channel w ++ posted e)
        (observed w ++ e)
  | None => w
  end.

(** The oldest queued [message] event is dispatched. *)
Definition deliver (w : World) : World :=
  match channel w with
  | [] => w
  | msg :: rest =>
      let (bs, e) := dispatch msg (peers w) in
      mkWorld bs (rest ++ posted e) (observed w ++ e)
  end.

(** Dispatching queued events, at most [fuel] of them. *)
Fixpoint pump (fuel : nat) (w : World) : World :=
  match fuel with
  | O => w
  | S fuel' =>
      match channel w with
      | [] => w
      | _ => pump fuel' (deliver w)
      end
  end.

Definition settlements (effs : list Effect) : list (nat * Settlement) :=
  flat_map (fun e => match e with Settle c r => [(c, r)] | _ => [] end) effs.

(** ** Vocabulary of the properties *)

(** The callers parked on [readyPromise]. *)
Definition waiters (b : Bridge) : list Waiter :=
  match readyPromise b with
  | Some ws => ws
  | None => []
  end.

Definition isHandshakeEntry (kv : string * Pending) : bool :=
  match callbacks (snd kv) with
  | HandshakeAttempt => true
  | InvokeCall _ => false
  end.

Definition isInvokeEntry (kv : string * Pending) : bool :=
  negb (isHandshakeEntry kv).

Definition isRetryTimer (t : Timer) : bool :=
  match callback t with
  | HandshakeRetry => true
  | _ => false
  end.

Definition isRequestTimer (t : Timer) : bool :=
  match callback t with
  | RequestTimeout _ _ _ => true
  | _ => false
  end.

(** Handshake attempts awaiting their answer plus retries waiting for
    their timer: the live ends of handshake sequences. *)
Definition handshakesInFlight (b : Bridge) : nat :=
  length (filter isHandshakeEntry (pendingRequests b)) +
  length (filter isRetryTimer (timers (host b))).

Definition isHandshakeRequest (m : value) : bool :=
  strictEqStr (getField "action" m) HANDSHAKE_ACTION.

Definition handshakeRequests (effs : list Effect) : list value :=
  filter isHandshakeRequest (posted effs).

(** The rejection every waiter receives when a sequence gives up. *)
Definition handshakeFailure (cause : JsError) : JsError :=
  mkError ("建联失败: " ++ errorToString cause).

(** An [invoke] call as an event. *)
Definition invokeEvent (w : Waiter) : Event :=
  Invoke (w_caller w) (w_action w) (w_data w).

(** The error an attempt in flight fails with when [ev] makes it fail: a
    failure response arrives, the bridge is destroyed, or its timer expires. *)
Definition attemptError (ev : Event) : JsError :=
  match ev with
  | MessageEvent msg =>
      mkError (if truthy (getField "error" msg)
               then toString (getField "error" msg) else "未知错误")
  | Destroy => mkError "连接已断开"
  | _ => mkError "握手超时"
  end.

(** The situation the handshake state machine calls [FAILED]: not ready, no
    sequence in progress, the attempt counter at or above the maximum. *)
Definition FAILED (b : Bridge) : Prop :=
  isReady b = false /\
  readyPromise b = None /\
  Opt.ge (handshakeAttempts b) (Opt.maxHandshakeAttempts (options b)) = true.

(** What [destroy] leaves behind. *)
Definition tornDown (b : Bridge) : Prop :=
  handshakeRetryInterval b = None /\
  messageHandlers b = [] /\
  pendingRequests b = [] /\
  listening (host b) = false.

Definition timerLive (h : nat) (b : Bridge) : bool :=
  existsb (fun t => (tid t =? h)%nat) (timers (host b)).

(** The phases of the handshake machinery, as they show in the pending
    table and the timer table. *)
Inductive phase (b : Bridge) : Prop :=
| phase_ready :
    isReady b = true ->
    Forall (fun kv => isInvokeEntry kv = true) (pendingRequests b) ->
    Forall (fun t => isRequestTimer t = true) (timers (host b)) ->
    phase b
| phase_idle :
    isReady b = false ->
    pendingRequests b = [] ->
    timers (host b) = [] ->
    phase b
| phase_probing : forall id h ms clock ws,
    isReady b = false ->
    pendingRequests b = [(id, mkPending HandshakeAttempt h)] ->
    timers (host b) = [mkTimer h (HandshakeTimeout id) ms clock] ->
    readyPromise b = Some ws ->
    phase b
| phase_waiting : forall h ms clock ws,
    isReady b = false ->
    pendingRequests b = [] ->
    timers (host b) = [mkTimer h HandshakeRetry ms clock] ->
    handshakeRetryInterval b = Some h ->
    readyPromise b = Some ws ->
    phase b.

(** The fields the handshake machinery and the correlation table live in. *)
Definition sameCore (b b' : Bridge) : Prop :=
  pendingRequests b' = pendingRequests b /\
  timers (host b') = timers (host b) /\
  nextTimer (host b') = nextTimer (host b) /\
  isReady b' = isReady b /\
  readyPromise b' = readyPromise b /\
  handshakeRetryInterval b' = handshakeRetryInterval b /\
  handshakeAttempts b' = handshakeAttempts b /\
  options b' = options b /\
  listening (host b') = listening (host b).

(** The shape of the tables once the bridge is ready: calls only. *)
Definition callsOnly (b : Bridge) : Prop :=
  Forall (fun kv => isInvokeEntry kv = true) (pendingRequests b) /\
  Forall (fun t => isRequestTimer t = true) (timers (host b)).

(** [Map] keys are unique. *)
Definition keysUnique (b : Bridge) : Prop :=
  NoDup (map_keys (pendingRequests b)).

(** What a turn can do to the handshake while the bridge is not ready:
    leave the counter alone, or fail the attempt in flight. *)
Definition handshakeVerdict (b : Bridge) (ev : Event) (b' : Bridge)
  (effs : list Effect) : Prop :=
  (handshakeAttempts b' = handshakeAttempts b /\
   (isReady b' = true ->
    exists msg pending,
      ev = MessageEvent msg /\
      listening (host b) = true /\
      pendingFor (getField "requestId" msg) b = Some pending /\
      callbacks pending = HandshakeAttempt /\
      truthy (getField "success" msg) = true)) \/
  (handshakeAttempts b' = (handshakeAttempts b + 1)%Z /\
   isReady b' = false /\
   (Opt.ge (handshakeAttempts b + 1) (Opt.maxHandshakeAttempts (options b)) = true ->
    readyPromise b' = None /\
    settlements effs =
      map (fun w => (w_caller w, Rejected (handshakeFailure (attemptError ev))))
        (waiters b))).

(** The counter does not go down and the options do not change. *)
Definition grows (b b' : Bridge) : Prop :=
  (handshakeAttempts b <= handshakeAttempts b')%Z /\ options b' = options b.

(** The value a handler call delivers once awaited, if it delivers one. *)
Definition awaited (r : HandlerResult) : option value :=
  match r with
  | Returns v => Some v
  | ReturnsPromise (inl v) => Some v
  | _ => None
  end.

(** Bridge [b] answers the request [m] with the single envelope [r], at once
    or when the promise its handler returned settles. *)
Definition answered (b : Bridge) (m : value) (b' : Bridge) (r : value) : Prop :=
  step b (MessageEvent m) = (b', [Post r]) \/
  exists b0,
    step b (MessageEvent m) = (b0, []) /\
    step b0 (PromiseSettles (length (suspended (host b)))) = (b', [Post r]).

(** ** Sample bridges

    Two peers on one channel, each allow-listing the other, and a bridge
    that is alone on its channel. *)

Definition digits (n : nat) : string := NilEmpty.string_of_uint (Nat.to_uint n).

Definition randomA (n : nat) : string := "a" ++ digits n.
Definition randomB (n : nat) : string := "b" ++ digits n.

Definition allowing (ids : list string) : Opt.user :=
  Opt.mkUser (Some ids) None None None None None.

Definition echo : Handler := fun _ d => Returns d.

Definition payload : value := VObj [("x", VNum 1)].

Definition peerA : Bridge :=
  createBridge "a" (allowing ["b"]) (freshHost 1000 randomA).

Definition peerB : Bridge :=
  handle "echo" echo (createBridge "b" (allowing ["a"]) (freshHost 1000 randomB)).

(** Peer A once its first call has gone through the handshake and has been
    answered by peer B. *)
Definition readyA : Bridge :=
  nth 0 (peers (pump 8 (act 0 (Invoke 7 "echo" payload)
                          (mkWorld [peerA; peerB] [] [])))) peerA.

(** Peer B with its handler registered under the empty action name. *)
Definition peerB_unnamed : Bridge :=
  handle "" echo (createBridge "b" (allowing ["a"]) (freshHost 1000 randomB)).

(** The same two peers built with default options, A first. *)
Definition defaultA : Bridge := createBridge "a" Opt.none (freshHost 1000 randomA).
Definition defaultB : Bridge :=
  handle "echo" echo (createBridge "b" Opt.none (freshHost 1000 randomB)).

(** A bridge with default options and its first probe in flight. *)
Definition probing : Bridge :=
  fst (step defaultA (Invoke 7 "echo" payload)).

(** A bridge that gives up after one attempt, with its probe in flight. *)
Definition impatient : Bridge :=
  fst (step (createBridge "a"
               (Opt.mkUser None None None None None (Some (Opt.Int 1)))
               (freshHost 1000 randomA))
         (Invoke 7 "echo" payload)).

(** ** The round trip on the channel *)

(** Two bridges that can talk to each other: both listeners attached, the
    same message type, each admitting the other's identifier. *)
Definition connected (A B : Bridge) : Prop :=
  listening (host A) = true /\
  listening (host B) = true /\
  messageType A = messageType B /\
  isAllowedId (communicationId A) B = true /\
  isAllowedId (communicationId B) A = true.

(** Peer A, constructed before peer B, makes a call; nothing is queued. *)
Definition calling (A B : Bridge) (caller : nat) (action : string)
  (data : value) : World :=
  act 0 (Invoke caller action data) (mkWorld [A; B] [] []).

(** The turn in which the promise returned by B's handler settles, when
    the handler returned one; the call it belongs to was parked last. *)
Definition settleHandler (B : Bridge) (r : HandlerResult) (w : World) : World :=
  match r with
  | ReturnsPromise _ =>
      act 1 (PromiseSettles (length (suspended (host B)))) w
  | _ => w
  end.

(** The round trip as the specification words it, for the calls that
    satisfy [side]: peer A is ready, peer B has a handler registered for
    the action, the handler returns [v] for the payload, and the call
    resolves with [v] once enough queued messages have been delivered. *)
Definition round_trip_claim (side : Bridge -> string -> Prop) : Prop :=
  forall (A B : Bridge) (caller : nat) (action : string) (data : value)
         (h : Handler) (v : value),
    connected A B ->
    isReady A = true ->
    map_get action (messageHandlers B) = Some h ->
    h (dateNow B) data = Returns v ->
    side A action ->
    exists fuel,
      In (caller, Resolved v)
        (settlements (observed (pump fuel (calling A B caller action data)))).

(** As worded: for every registered action and every pair of peers. *)
Definition round_trip_as_stated : Prop := round_trip_claim (fun _ _ => True).

(** ** Vocabulary of the further properties *)

(** [error instanceof Error ? error.message : String(error)]. *)
Definition errorMessageOf (t : thrown) : string :=
  match t with
  | ThrowError e => message e
  | ThrowValue v => toString v
  end.

(** The first argument of [console.error] in [handleRequestMessage]. *)
Definition handlerLog (action : value) (t : thrown) : Effect :=
  ConsoleError ("处理消息错误 [" ++ toString action ++ "]:") t.

(** The outcome [handleResponseMessage] hands to the callbacks. *)
Definition responseOutcome (r : value) : Settlement :=
  if truthy (getField "success" r) then Resolved (getField "data" r)
  else Rejected (mkError (if truthy (getField "error" r)
                          then toString (getField "error" r)
                          else "未知错误")).

(** What no method of the class writes after construction, what only the
    registry and allow-list methods write, and the readiness flag, which
    is only ever set. *)
Definition static (b b' : Bridge) : Prop :=
  communicationId b' = communicationId b /\
  messageType b' = messageType b /\
  options b' = options b /\
  mathRandom (host b') = mathRandom (host b) /\
  messageHandlers b' = messageHandlers b /\
  allowedIds b' = allowedIds b /\
  listening (host b') = listening (host b) /\
  (isReady b = true -> isReady b' = true).

(** Events that write the handler registry. *)
Definition writesHandlers (ev : Event) : bool :=
  match ev with
  | Handle _ _ | Unhandle _ | Destroy => true
  | _ => false
  end.

(** Events that write the allow-list. *)
Definition writesAllowList (ev : Event) : bool :=
  match ev with
  | AddAllowedId _ | RemoveAllowedId _ => true
  | _ => false
  end.

Definition isDestroy (ev : Event) : bool :=
  match ev with
  | Destroy => true
  | _ => false
  end.

(** The timer that guards a pending entry: the closure armed by the call
    that stored the entry. *)
Definition guards (t : Timer) (id : string) (p : Pending) : Prop :=
  tid t = timeout p /\
  match callbacks p with
  | InvokeCall caller => exists action, callback t = RequestTimeout id action caller
  | HandshakeAttempt => callback t = HandshakeTimeout id
  end.

(** The timer table and the tables that refer to it: handles are fresh and
    distinct; the handle kept in [handshakeRetryInterval] names a retry
    timer or a timer that is gone; and every pending entry has the timer
    armed with it still armed. *)
Definition armed (b : Bridge) : Prop :=
  Forall (fun t => tid t < nextTimer (host b)) (timers (host b)) /\
  NoDup (map tid (timers (host b))) /\
  (forall h, handshakeRetryInterval b = Some h ->
             h < nextTimer (host b) /\
             forall t, In t (timers (host b)) -> tid t = h ->
                       callback t = HandshakeRetry) /\
  (forall id p, In (id, p) (pendingRequests b) ->
                exists t, In t (timers (host b)) /\ guards t id p).

(** A bridge whose handshake sequence was cut off by [destroy] between two
    attempts: callers are parked, and nothing is left that could settle
    the promise they wait on. *)
Definition stalled (b : Bridge) : Prop :=
  isReady b = false /\
  readyPromise b <> None /\
  pendingRequests b = [] /\
  timers (host b) = [] /\
  listening (host b) = false.

(** The callers whose promise a turn fulfils, with the value each gets. *)
Definition fulfilled (effs : list Effect) : list (nat * value) :=
  flat_map (fun e => match e with
                     | Settle c (Resolved v) => [(c, v)]
                     | _ => []
                     end) effs.

(** The one kind of event that reaches [pending.resolve]: a message that
    passes the gates of the listener, names a pending entry in [requestId]
    and carries a truthy [success]. *)
Definition carriesSuccess (b : Bridge) (ev : Event) : bool :=
  match ev with
  | MessageEvent m =>
      listening (host b) && isObject m &&
      strictEqStr (getField "type" m) (messageType b) &&
      isAllowedValue (getField "communicationId" m) b &&
      truthy (getField "requestId" m) &&
      match pendingFor (getField "requestId" m) b with
      | Some _ => true
      | None => false
      end &&
      truthy (getField "success" m)
  | _ => false
  end.

(** An envelope as the bridge [b] builds them: an object carrying the
    bridge's message type, its communication id and a non-empty id. *)
Definition stamped (b : Bridge) (e : Effect) : Prop :=
  match e with
  | Post m =>
      isObject m = true /\
      getField "type" m = VStr (messageType b) /\
      getField "communicationId" m = VStr (communicationId b) /\
      truthy (getField "id" m) = true
  | _ => True
  end.

(** A probe as [sendSingleHandshakeRequest] of a peer builds it. *)
Definition isProbe (m : value) : Prop :=
  isObject m = true /\
  getField "action" m = VStr HANDSHAKE_ACTION /\
  truthy (getField "needResponse" m) = true /\
  truthy (getField "requestId" m) = false.

(** ** Further sample bridges

    A bridge with default options that completes its handshake on its own
    broadcast: its probe, the reply its own handler gives, and the state
    after each delivery. *)

Definition firstPost (effs : list Effect) : value := hd VUndefined (posted effs).

Definition ownProbe : value :=
  firstPost (snd (step defaultA (Invoke 7 "echo" payload))).

Definition answering : Bridge := fst (step probing (MessageEvent ownProbe)).

Definition ownReply : value :=
  firstPost (snd (step probing (MessageEvent ownProbe))).

Definition selfReady : Bridge := fst (step answering (MessageEvent ownReply)).

(** The same bridge after its first probe has timed out: the retry timer
    is armed and the caller is parked. *)
Definition retrying : Bridge := fst (step probing (TimerFires 1)).

(** A handshake sequence between two attempts, as [attemptHandshake]'s
    [catch] block leaves it: the last attempt has failed, the retry timer
    is armed under the handle kept in [handshakeRetryInterval], and the
    callers are parked on [readyPromise]. *)
Definition betweenAttempts (b : Bridge) : Prop :=
  isReady b = false /\
  pendingRequests b = [] /\
  (exists h ms clock,
     timers (host b) = [mkTimer h HandshakeRetry ms clock] /\
     handshakeRetryInterval b = Some h) /\
  readyPromise b <> None.

(** A handshake attempt awaiting its answer and nothing else going on:
    the state [sendSingleHandshakeRequest] leaves when the sequence is the
    only user of the tables. *)
Definition attemptInFlight (b : Bridge) (id : string) (h : nat) (clock : Z)
  (ws : list Waiter) : Prop :=
  isReady b = false /\
  pendingRequests b = [(id, mkPending HandshakeAttempt h)] /\
  timers (host b) =
    [mkTimer h (HandshakeTimeout id) (Opt.handshakeTimeout (options b)) clock] /\
  nextTimer (host b) = S h /\
  readyPromise b = Some ws.

(** The turns of a handshake sequence nobody answers, from an attempt in
    flight under the timer handle [h]: the attempt times out and, [k]
    times over, the retry timer fires and the next attempt times out.
    Each attempt takes two handles, one for the retry that leads to it. *)
Fixpoint unanswered (k : nat) (h : nat) : list Event :=
  match k with
  | O => [TimerFires h]
  | S k' => TimerFires h :: TimerFires (S h) :: unanswered k' (S (S h))
  end.

(** A handler that throws, registered on peer B, and the request peer A
    posts for it; two calls of peer A awaiting their answers, with the
    responses peer B gives them. *)
Definition failing : Handler := fun _ _ => Throws (ThrowError (mkError "boom")).

Definition peerB_failing : Bridge := handle "fail" failing peerB.

Definition callingFail : Bridge := fst (invokeRequest 7 "fail" payload peerA).

Definition failRequest : value :=
  firstPost (snd (invokeRequest 7 "fail" payload peerA)).

Definition notice : value := firstPost (snd (send "echo" payload peerA)).

Definition twoCalls : Bridge :=
  fst (invokeRequest 8 "echo" VNull (fst (invokeRequest 7 "echo" payload peerA))).

Definition replyTo (id : string) (v : value) : value :=
  responseEnvelope peerB "1000-b0" (VStr id) true v VUndefined.

(** The probe peer A posts when its first call starts the handshake. *)
Definition probeOfA : value :=
  firstPost (snd (step peerA (Invoke 7 "echo" payload))).

(** What a request envelope asks for, what a parked call asks for, and the
    call a timeout timer belongs to. *)
Definition asks (m : value) : value * value * value :=
  (getField "action" m, getField "data" m, getField "needResponse" m).

Definition asked (w : Waiter) : value * value * value :=
  (VStr (w_action w), w_data w, VBool true).

Definition timerCall (t : Timer) : option (nat * string) :=
  match callback t with
  | RequestTimeout _ action caller => Some (caller, action)
  | _ => None
  end.

(** The answer a peer gives to the probe of [probing]. *)
Definition probeAnswer : value :=
  responseEnvelope peerB "1000-b0" (VStr "1000-a0") true
    (VObj [("success", VBool true); ("timestamp", VNum 1000)]) VUndefined.

(** [probing] with two more calls parked behind the first. *)
Definition threeParked : Bridge :=
  fst (run probing [Invoke 8 "sum" VNull; Invoke 9 "echo" (VNum 3)]).

(** ** The end of a handshake attempt *)

(** A response to the request pending under [id], as the listener of [b]
    takes it: the gates passed, no [action], [requestId] the pending id. *)
Definition respondsTo (b : Bridge) (id : string) (msg : value) : Prop :=
  listening (host b) = true /\
  isObject msg = true /\
  strictEqStr (getField "type" msg) (messageType b) = true /\
  isAllowedValue (getField "communicationId" msg) b = true /\
  truthy (getField "action" msg) = false /\
  getField "requestId" msg = VStr id /\
  truthy (VStr id) = true.

(** The three ways the attempt pending under [id] fails: its timer
    expires, a response without a truthy [success] arrives, or [destroy]
    rejects it. *)
Definition failsAttempt (b : Bridge) (id : string) (p : Pending) (ev : Event)
  : Prop :=
  match ev with
  | TimerFires h => h = timeout p
  | MessageEvent msg =>
      respondsTo b id msg /\ truthy (getField "success" msg) = false
  | Destroy => True
  | _ => False
  end.

(** The rejections a handshake sequence hands out when it gives up. *)
Definition giveUp (cause : JsError) (ws : list Waiter) : list Effect :=
  map (fun w => Settle (w_caller w) (Rejected (handshakeFailure cause))) ws.

(** Peer A of the default pair once its first call has gone through the
    handshake. *)
Definition defaultReadyA : Bridge :=
  nth 0 (peers (pump 10 (act 0 (Invoke 7 "echo" payload)
                           (mkWorld [defaultA; defaultB] [] [])))) defaultA.

(** The round trip of a call whose request is the one message queued in
    [w0]: the request carries the action and the payload; peer B's turn,
    and the turn in which its handler's promise settles, leave one success
    response that names the request and carries [v]; the delivery of that
    response settles the call with [v] and removes its entry from A's
    table.  What else is settled in that turn is B's reaction to its own
    response, which B drops when it does not admit itself. *)
Definition roundTrip (w0 : World) (B : Bridge) (caller : nat)
  (action : string) (data : value) (h : Handler) (v : value) : Prop :=
  let w1 := settleHandler B (h (dateNow B) data) (deliver w0) in
  let w2 := deliver w1 in
  exists m r A2 B2 rest,
    channel w0 = [m] /\
    getField "action" m = VStr action /\
    getField "data" m = data /\
    channel w1 = [r] /\
    getField "requestId" r = getField "id" m /\
    getField "success" r = VBool true /\
    getField "data" r = v /\
    peers w2 = [A2; B2] /\
    pendingFor (getField "requestId" r) A2 = None /\
    settlements (observed w2) =
      (settlements (observed w0) ++ (caller, Resolved v) :: rest)%list /\
    (isAllowedId (communicationId B) B = false -> rest = []).

(** A failure response to the probe of [probing] and of [impatient]. *)
Definition probeRefusal : value :=
  responseEnvelope peerB "1000-b0" (VStr "1000-a0") false VUndefined
    (VStr "busy").

(** ** Tactics

    [open_bridge] exposes the fields of a bridge; [model_eval] runs the
    methods on such a record, leaving the arithmetic and the string
    comparisons on variables alone; [dispatch_eval] does the same for the
    dispatcher and the channel. *)

Ltac open_bridge b :=
  let cid := fresh "cid" in let mt := fresh "mt" in let al := fresh "al" in
  let mh := fresh "mh" in let pr := fresh "pr" in let rdy := fresh "rdy" in
  let rp := fresh "rp" in let hri := fresh "hri" in let ha := fresh "ha" in
  let opts := fresh "opts" in let clk := fresh "clk" in let rnd := fresh "rnd" in
  let dr := fresh "dr" in let tms := fresh "tms" in let nt := fresh "nt" in
  let lst := fresh "lst" in let sus := fresh "sus" in
  destruct b as [cid mt al mh pr rdy rp hri ha opts [clk rnd dr tms nt lst sus]];
  cbn in *; subst.

Ltac model_eval :=
  cbv beta iota zeta delta
    [step destroy clearPendingRequests invoke attemptHandshake
     sendSingleHandshakeRequest invokeRequest attemptHandshake_then
     attemptHandshake_catch resolveReady rejectReady
     stopHandshakeRetry clearTimeout setTimeout generateId deletePending
     pendingFor handlerFor runTimer findTimer postMessage send handle unhandle
     addAllowedId removeAllowedId dateNow fire waiters map_delete
     set_allowedIds set_messageHandlers set_pendingRequests set_isReady
     set_readyPromise set_handshakeRetryInterval set_handshakeAttempts
     set_host set_now set_draws set_timers set_nextTimer set_listening
     set_suspended
     communicationId messageType allowedIds messageHandlers pendingRequests
     isReady readyPromise handshakeRetryInterval handshakeAttempts options
     host now mathRandom draws timers nextTimer listening suspended
     tid callback delay armedAt callbacks timeout w_caller w_action w_data
     fst snd negb];
  cbn [fireAll resumeInvokes map_get map_set filter map fold_left app find
       fst snd negb].

Ltac crunch :=
  repeat (progress (model_eval; rewrite ?Nat.eqb_refl, ?String.eqb_refl)).

Ltac close_phase :=
  solve [ apply phase_idle; reflexivity
        | eapply phase_probing; reflexivity
        | eapply phase_waiting; reflexivity ].

Ltac quiet_verdict :=
  split; [reflexivity|]; left; split; [reflexivity|];
  intros Hr; cbn in Hr; congruence.

Ltac same_counter := unfold grows; cbn; split; [lia | reflexivity].

Ltac dispatch_eval :=
  cbv beta iota zeta delta
    [handleMessage handleRequestMessage handleRequest_done handleRequest_catch
     sendResponse handleResponseMessage resumeRequest isAllowedValue
     isAllowedId strictEqStr isObject getField requestEnvelope
     responseEnvelope handshakeHandler truthy act deliver
     peers channel observed posted settlements isHandshakeRequest
     HANDSHAKE_ACTION];
  cbn [lookupField flat_map nth_error replaceNth dispatch pump app
       String.eqb Ascii.eqb Bool.eqb andb orb negb fst snd].

(** * Proofs *)

Lemma sameCore_refl b : sameCore b b.
Proof. repeat split. Qed.

Lemma sameCore_trans b1 b2 b3 : sameCore b1 b2 -> sameCore b2 b3 -> sameCore b1 b3.
Proof.
  unfold sameCore; intros H1 H2.
  decompose [and] H1; decompose [and] H2; repeat split; congruence.
Qed.

Lemma phase_sameCore b b' : sameCore b b' -> phase b -> phase b'.
Proof.
  intros (Hp & Ht & _ & Hr & Hrp & Hh & _) P.
  destruct P as [R F1 F2 | R E1 E2 | id h ms clock ws R E1 E2 E3 | h ms clock ws R E1 E2 E3 E4].
  - apply phase_ready; congruence.
  - apply phase_idle; congruence.
  - eapply phase_probing;
      [congruence | rewrite Hp; eassumption | rewrite Ht; eassumption
      | rewrite Hrp; eassumption].
  - eapply phase_waiting;
      [congruence | congruence | rewrite Ht; eassumption | congruence
      | rewrite Hrp; eassumption].
Qed.

Lemma sendResponse_core rid s d e b : sameCore b (fst (sendResponse rid s d e b)).
Proof. open_bridge b. repeat split. Qed.

Lemma handleRequest_done_core n i r b : sameCore b (fst (handleRequest_done n i r b)).
Proof.
  unfold handleRequest_done. destruct (truthy n).
  - apply sendResponse_core.
  - apply sameCore_refl.
Qed.

Lemma handleRequest_catch_core a n i t b : sameCore b (fst (handleRequest_catch a n i t b)).
Proof.
  unfold handleRequest_catch. destruct (truthy n).
  - pose proof (sendResponse_core i false VUndefined
      (VStr match t with ThrowError e => message e | ThrowValue v => toString v end) b) as H.
    destruct (sendResponse _ _ _ _ b); exact H.
  - apply sameCore_refl.
Qed.

Lemma handleRequestMessage_core msg b : sameCore b (fst (handleRequestMessage msg b)).
Proof.
  unfold handleRequestMessage.
  destruct (handlerFor _ b) as [h|].
  - destruct (h _ _).
    + apply handleRequest_done_core.
    + apply handleRequest_catch_core.
    + open_bridge b. repeat split.
  - destruct (truthy _).
    + apply sendResponse_core.
    + apply sameCore_refl.
Qed.

Lemma resumeRequest_core s b : sameCore b (fst (resumeRequest s b)).
Proof.
  unfold resumeRequest. destruct (s_later s).
  - apply handleRequest_done_core.
  - apply handleRequest_catch_core.
Qed.

Lemma Forall_map_set {V} (P : string * V -> Prop) k v m :
  Forall P m -> P (k, v) -> Forall P (map_set k v m).
Proof.
  induction m as [|[k' v'] m IH]; intros F Pk; cbn.
  - constructor; [assumption | constructor].
  - inversion F; subst. destruct (k' =? k).
    + constructor; assumption.
    + constructor; [assumption | apply IH; assumption].
Qed.

Lemma Forall_filter_keep {A} (P : A -> Prop) f (l : list A) :
  Forall P l -> Forall P (filter f l).
Proof.
  induction 1 as [|x l Px F IH]; cbn.
  - constructor.
  - destruct (f x); [constructor|]; assumption.
Qed.

Lemma map_get_In {V} k (v : V) m : map_get k m = Some v -> exists k', In (k', v) m.
Proof.
  induction m as [|[k' v'] m IH]; cbn; intros H.
  - discriminate.
  - destruct (k' =? k).
    + inversion H; subst. exists k'. left; reflexivity.
    + destruct (IH H) as [k'' Hin]. exists k''. right; assumption.
Qed.

Lemma invokeRequest_callsOnly c a d b :
  callsOnly b ->
  callsOnly (fst (invokeRequest c a d b)) /\
  isReady (fst (invokeRequest c a d b)) = isReady b.
Proof.
  intros [F1 F2]. unfold callsOnly. open_bridge b. repeat split.
  - apply Forall_map_set; [assumption | reflexivity].
  - apply Forall_app; split; [assumption|]. constructor; [reflexivity | constructor].
Qed.

Lemma resumeInvokes_callsOnly ws : forall b,
  callsOnly b ->
  callsOnly (fst (resumeInvokes ws b)) /\
  isReady (fst (resumeInvokes ws b)) = isReady b.
Proof.
  induction ws as [|w ws IH]; intros b C; cbn [resumeInvokes].
  - split; [assumption | reflexivity].
  - destruct (invokeRequest_callsOnly (w_caller w) (w_action w) (w_data w) b C)
      as [C1 R1].
    destruct (invokeRequest _ _ _ b) as [b1 e1]; cbn [fst] in *.
    destruct (IH b1 C1) as [C2 R2].
    destruct (resumeInvokes ws b1) as [b2 e2]; cbn [fst] in *.
    split; [assumption | congruence].
Qed.

Lemma clearTimeout_callsOnly h b : callsOnly b -> callsOnly (clearTimeout h b).
Proof.
  intros [F1 F2]. unfold callsOnly. open_bridge b. split; [assumption|].
  apply Forall_filter_keep; assumption.
Qed.

Lemma stopHandshakeRetry_callsOnly b :
  callsOnly b -> callsOnly (stopHandshakeRetry b).
Proof.
  intros C. unfold stopHandshakeRetry.
  destruct (handshakeRetryInterval b) as [h|]; [|assumption].
  apply (clearTimeout_callsOnly h) in C. destruct C as [F1 F2].
  unfold callsOnly. open_bridge b. split; assumption.
Qed.

Lemma stopHandshakeRetry_isReady b :
  isReady (stopHandshakeRetry b) = isReady b.
Proof.
  unfold stopHandshakeRetry. destruct (handshakeRetryInterval b); reflexivity.
Qed.

Lemma deletePending_callsOnly r b : callsOnly b -> callsOnly (deletePending r b).
Proof.
  intros [F1 F2]. destruct r; try (split; assumption).
  unfold callsOnly. open_bridge b. split; [|assumption].
  apply Forall_filter_keep; assumption.
Qed.

Lemma attemptHandshake_then_phase b :
  callsOnly b -> phase (fst (attemptHandshake_then b)).
Proof.
  intros C. unfold attemptHandshake_then, resolveReady.
  assert (C1 : callsOnly (stopHandshakeRetry (set_isReady true b))).
  { apply stopHandshakeRetry_callsOnly. destruct C. unfold callsOnly.
    open_bridge b. split; assumption. }
  assert (R1 : isReady (stopHandshakeRetry (set_isReady true b)) = true).
  { rewrite stopHandshakeRetry_isReady. reflexivity. }
  set (b1 := stopHandshakeRetry (set_isReady true b)) in *.
  destruct (readyPromise b1) as [ws|] eqn:E.
  - assert (C2 : callsOnly (set_readyPromise None b1)).
    { destruct C1. destruct b1. split; assumption. }
    destruct (resumeInvokes_callsOnly ws _ C2) as [[F1 F2] R].
    apply phase_ready; try assumption.
    rewrite R. destruct b1; exact R1.
  - destruct C1. apply phase_ready; assumption.
Qed.

Lemma attemptHandshake_catch_phase e b ws :
  isReady b = false -> pendingRequests b = [] -> timers (host b) = [] ->
  readyPromise b = Some ws ->
  phase (fst (attemptHandshake_catch e b)).
Proof.
  intros. open_bridge b. unfold attemptHandshake_catch. cbn.
  destruct (Opt.ge (ha + 1) (Opt.maxHandshakeAttempts opts)).
  - destruct hri; cbn; apply phase_idle; reflexivity.
  - cbn. eapply phase_waiting; reflexivity.
Qed.

Lemma phase_ready_of b : isReady b = true -> callsOnly b -> phase b.
Proof. intros R [F1 F2]. apply phase_ready; assumption. Qed.

Lemma ready_entry_is_call b id p :
  callsOnly b -> map_get id (pendingRequests b) = Some p ->
  exists c, callbacks p = InvokeCall c.
Proof.
  intros [F _] G. apply map_get_In in G. destruct G as [k Hin].
  rewrite Forall_forall in F. specialize (F _ Hin).
  unfold isInvokeEntry, isHandshakeEntry in F. cbn in F.
  destruct (callbacks p) as [c|]; [exists c; reflexivity | discriminate].
Qed.

Lemma handleResponseMessage_phase msg b :
  phase b -> phase (fst (handleResponseMessage msg b)).
Proof.
  intros P. unfold handleResponseMessage.
  destruct (pendingFor (getField "requestId" msg) b) as [p|] eqn:G; [|exact P].
  destruct (getField "requestId" msg) as [| | | |rid|] eqn:Er; try discriminate.
  cbn [pendingFor] in G.
  destruct P as [R F1 F2 | R E1 E2 | id h ms clock ws R E1 E2 E3 | h ms clock ws R E1 E2 E3 E4].
  - destruct (ready_entry_is_call b rid p (conj F1 F2) G) as [c Hc].
    rewrite Hc.
    assert (C : callsOnly (deletePending (VStr rid) (clearTimeout (timeout p) b))).
    { apply deletePending_callsOnly, clearTimeout_callsOnly. split; assumption. }
    assert (R' : isReady (deletePending (VStr rid) (clearTimeout (timeout p) b)) = true).
    { destruct b; exact R. }
    destruct (truthy _); cbn [fire fst]; apply phase_ready_of; assumption.
  - rewrite E1 in G. discriminate.
  - rewrite E1 in G. cbn in G. destruct (id =? rid) eqn:Eid; [|discriminate].
    inversion G; subst p; clear G. cbn [timeout callbacks].
    destruct (truthy (getField "success" msg)); cbn [fire].
    + apply attemptHandshake_then_phase. unfold callsOnly.
      open_bridge b. simpl. rewrite Eid, Nat.eqb_refl. cbn. split; constructor.
    + eapply attemptHandshake_catch_phase.
      * destruct b; exact R.
      * open_bridge b. simpl. rewrite Eid. reflexivity.
      * open_bridge b. simpl. rewrite Nat.eqb_refl. reflexivity.
      * destruct b; exact E3.
  - rewrite E1 in G. discriminate.
Qed.

Lemma fireAll_calls r entries : forall b,
  Forall (fun kv => isInvokeEntry kv = true) entries ->
  fst (fireAll (map (fun kv : string * Pending => (callbacks (snd kv), r)) entries) b) = b.
Proof.
  induction entries as [|[k p] entries IH]; intros b F; cbn [map fireAll].
  - reflexivity.
  - inversion F as [|x l Hx Hl]; subst.
    unfold isInvokeEntry, isHandshakeEntry in Hx. cbn in Hx.
    cbn [snd]. destruct (callbacks p) as [c|]; [|discriminate].
    cbn [fire]. specialize (IH b Hl).
    destruct (fireAll _ b) as [b2 e2]. exact IH.
Qed.

Lemma fold_clearTimeout_callsOnly (entries : list (string * Pending)) : forall b,
  callsOnly b ->
  callsOnly (fold_left (fun acc kv => clearTimeout (timeout (snd kv)) acc) entries b).
Proof.
  induction entries as [|kv entries IH]; intros b C; cbn.
  - assumption.
  - apply IH, clearTimeout_callsOnly, C.
Qed.

Lemma fold_clearTimeout_fields (entries : list (string * Pending)) : forall b,
  let b' := fold_left (fun acc kv => clearTimeout (timeout (snd kv)) acc) entries b in
  isReady b' = isReady b /\ readyPromise b' = readyPromise b /\
  handshakeRetryInterval b' = handshakeRetryInterval b /\
  pendingRequests b' = pendingRequests b /\
  messageHandlers b' = messageHandlers b /\
  handshakeAttempts b' = handshakeAttempts b /\
  options b' = options b /\
  listening (host b') = listening (host b).
Proof.
  induction entries as [|kv entries IH]; intros b; cbn.
  - repeat split.
  - specialize (IH (clearTimeout (timeout (snd kv)) b)). cbn in IH.
    destruct b as [? ? ? ? ? ? ? ? ? ? []]. exact IH.
Qed.

Lemma destroy_phase b : phase b -> phase (fst (step b Destroy)).
Proof.
  intros P.
  destruct P as [R F1 F2 | R E1 E2 | id h ms clock ws R E1 E2 E3 | h ms clock ws R E1 E2 E3 E4].
  - cbn [step]. unfold destroy, clearPendingRequests.
    set (b2 := set_messageHandlers [] (stopHandshakeRetry b)).
    assert (C2 : callsOnly b2).
    { pose proof (stopHandshakeRetry_callsOnly b (conj F1 F2)) as [G1 G2].
      subst b2. destruct (stopHandshakeRetry b). split; assumption. }
    assert (R2 : isReady b2 = true).
    { subst b2. pose proof (stopHandshakeRetry_isReady b) as H.
      destruct (stopHandshakeRetry b). cbn in *. congruence. }
    cbn [fst snd]. rewrite fireAll_calls by apply C2.
    pose proof (fold_clearTimeout_callsOnly (pendingRequests b2) b2 C2) as G.
    pose proof (fold_clearTimeout_fields (pendingRequests b2) b2) as H.
    cbv zeta in H. destruct H as (H1 & _). rewrite R2 in H1.
    destruct G as [G1 G2].
    destruct (fold_left _ (pendingRequests b2) b2) as [? ? ? ? ? ? ? ? ? ? []].
    apply phase_ready; [exact H1 | constructor | exact G2].
  - open_bridge b. destruct hri; crunch; close_phase.
  - open_bridge b.
    destruct hri as [h0|]; crunch.
    + destruct (h =? h0)%nat; crunch;
        destruct (Opt.ge (ha + 1) (Opt.maxHandshakeAttempts opts)); crunch;
        close_phase.
    + destruct (Opt.ge (ha + 1) (Opt.maxHandshakeAttempts opts)); crunch;
        close_phase.
  - open_bridge b. crunch. close_phase.
Qed.

Lemma find_In {A} f (l : list A) x : find f l = Some x -> In x l.
Proof.
  induction l as [|y l IH]; cbn; intros H; [discriminate|].
  destruct (f y); [inversion H; subst; left; reflexivity | right; auto].
Qed.

Lemma timer_phase h b : phase b -> phase (fst (step b (TimerFires h))).
Proof.
  intros P.
  destruct P as [R F1 F2 | R E1 E2 | id h0 ms clock ws R E1 E2 E3 | h0 ms clock ws R E1 E2 E3 E4].
  - cbn [step]. destruct (findTimer h b) as [t|] eqn:Ef.
    + apply find_In in Ef. rewrite Forall_forall in F2.
      pose proof (F2 _ Ef) as Ht. unfold isRequestTimer in Ht.
      destruct (callback t) as [id a c| |]; try discriminate.
      cbn [runTimer fst].
      apply phase_ready_of.
      * destruct b as [? ? ? ? ? ? ? ? ? ? []]; exact R.
      * assert (C : callsOnly (clearTimeout h b)).
        { apply clearTimeout_callsOnly. split; [assumption|].
          rewrite Forall_forall; assumption. }
        apply (deletePending_callsOnly (VStr id)).
        destruct C as [C1 C2]. unfold callsOnly.
        destruct b as [? ? ? ? ? ? ? ? ? ? []]; split; assumption.
    + apply phase_ready; [assumption | assumption | assumption].
  - open_bridge b. crunch. close_phase.
  - open_bridge b. crunch.
    destruct (h0 =? h)%nat; crunch; [|close_phase].
    destruct (Opt.ge (ha + 1) (Opt.maxHandshakeAttempts opts)); crunch;
      destruct hri; crunch; close_phase.
  - open_bridge b. crunch.
    destruct (h0 =? h)%nat; crunch; close_phase.
Qed.

Lemma invoke_phase c a d b : phase b -> phase (fst (invoke c a d b)).
Proof.
  intros P.
  destruct P as [R F1 F2 | R E1 E2 | id h0 ms clock ws R E1 E2 E3 | h0 ms clock ws R E1 E2 E3 E4].
  - unfold invoke. rewrite R.
    destruct (invokeRequest_callsOnly c a d b (conj F1 F2)) as [C Rr].
    apply phase_ready_of; congruence.
  - open_bridge b. destruct rp; crunch; close_phase.
  - open_bridge b. crunch; close_phase.
  - open_bridge b. crunch; close_phase.
Qed.

Lemma generateId_core b : sameCore b (snd (generateId b)).
Proof. open_bridge b. repeat split. Qed.

Lemma handleMessage_phase msg b : phase b -> phase (fst (handleMessage msg b)).
Proof.
  intros P. unfold handleMessage.
  destruct (negb (isObject msg) || _); [exact P|].
  destruct (negb (isAllowedValue _ b)); [exact P|].
  assert (P1 : phase (fst (if truthy (getField "action" msg)
                           then handleRequestMessage msg b else (b, [])))).
  { destruct (truthy (getField "action" msg)); [|exact P].
    eapply phase_sameCore; [apply handleRequestMessage_core | exact P]. }
  destruct (if truthy (getField "action" msg) then _ else _) as [b1 e1].
  cbn [fst] in P1.
  assert (P2 : phase (fst (if truthy (getField "requestId" msg)
                           then handleResponseMessage msg b1 else (b1, [])))).
  { destruct (truthy (getField "requestId" msg)); [|exact P1].
    apply handleResponseMessage_phase; exact P1. }
  destruct (if truthy (getField "requestId" msg) then _ else _) as [b2 e2].
  exact P2.
Qed.

Lemma phase_step b ev : phase b -> phase (fst (step b ev)).
Proof.
  intros P. destruct ev.
  - apply invoke_phase; exact P.
  - cbn [step]. unfold send.
    pose proof (generateId_core b) as H. destruct (generateId b) as [id b1].
    eapply phase_sameCore; [exact H | exact P].
  - eapply phase_sameCore; [|exact P]. open_bridge b. repeat split.
  - eapply phase_sameCore; [|exact P]. open_bridge b. repeat split.
  - eapply phase_sameCore; [|exact P]. open_bridge b. repeat split.
  - eapply phase_sameCore; [|exact P]. open_bridge b. repeat split.
  - apply destroy_phase; exact P.
  - cbn [step]. destruct (listening (host b)); [|exact P].
    apply handleMessage_phase; exact P.
  - apply timer_phase; exact P.
  - cbn [step]. destruct (nth_error _ k) as [s|]; [|exact P].
    eapply phase_sameCore; [|exact P].
    eapply sameCore_trans; [|apply resumeRequest_core].
    open_bridge b. repeat split.
  - eapply phase_sameCore; [|exact P]. open_bridge b. repeat split.
Qed.

Lemma phase_new cid o h : timers h = [] -> phase (createBridge cid o h).
Proof. intros E. destruct h. cbn in E. subst. apply phase_idle; reflexivity. Qed.

Lemma reachable_phase b : reachable b -> phase b.
Proof.
  induction 1 as [cid o clock rnd | b ev R IH].
  - apply phase_new; reflexivity.
  - apply phase_step; exact IH.
Qed.

(** ** Maps, sets and identifiers *)

Lemma map_get_set_same {V} k (v : V) m : map_get k (map_set k v m) = Some v.
Proof.
  induction m as [|[k' v'] m IH]; cbn.
  - rewrite String.eqb_refl. reflexivity.
  - destruct (k' =? k) eqn:E; cbn.
    + rewrite String.eqb_refl. reflexivity.
    + rewrite E. exact IH.
Qed.

Lemma map_get_delete_same {V} k (m : list (string * V)) :
  map_get k (map_delete k m) = None.
Proof.
  induction m as [|[k' v'] m IH]; cbn.
  - reflexivity.
  - destruct (k' =? k) eqn:E; cbn; [exact IH | rewrite E; exact IH].
Qed.

Lemma keys_map_set {V} k (v : V) m x :
  In x (map_keys (map_set k v m)) -> x = k \/ In x (map_keys m).
Proof.
  induction m as [|[k' v'] m IH]; cbn.
  - intros [H|[]]; left; congruence.
  - destruct (k' =? k) eqn:E; cbn.
    + intros [H|H]; [left; congruence | right; right; exact H].
    + intros [H|H]; [right; left; exact H|].
      destruct (IH H) as [H1|H1]; [left; exact H1 | right; right; exact H1].
Qed.

Lemma NoDup_map_set {V} k (v : V) m :
  NoDup (map_keys m) -> NoDup (map_keys (map_set k v m)).
Proof.
  induction m as [|[k' v'] m IH]; cbn; intros N.
  - constructor; [intros [] | constructor].
  - inversion N as [|x l Hn Hl]; subst.
    destruct (k' =? k) eqn:E; cbn.
    + apply String.eqb_eq in E. subst. constructor; assumption.
    + constructor; [|apply IH; exact Hl].
      intros Hin. apply keys_map_set in Hin. destruct Hin as [H|H].
      * subst. rewrite String.eqb_refl in E. discriminate.
      * exact (Hn H).
Qed.

Lemma NoDup_map_delete {V} k (m : list (string * V)) :
  NoDup (map_keys m) -> NoDup (map_keys (map_delete k m)).
Proof.
  induction m as [|[k' v'] m IH]; cbn; intros N.
  - constructor.
  - inversion N as [|x l Hn Hl]; subst.
    destruct (negb (k' =? k)); cbn; [|apply IH; exact Hl].
    constructor; [|apply IH; exact Hl].
    intros Hin. apply Hn. unfold map_keys, map_delete in Hin.
    apply in_map_iff in Hin. destruct Hin as [[k2 v2] [E Hin]].
    apply filter_In in Hin. destruct Hin as [Hin _].
    apply in_map_iff. exists (k2, v2). split; assumption.
Qed.

Lemma set_has_In x s : set_has x s = true <-> In x s.
Proof.
  unfold set_has. rewrite existsb_exists. split.
  - intros [y [Hin E]]. apply String.eqb_eq in E. subst. exact Hin.
  - intros Hin. exists x. split; [exact Hin | apply String.eqb_refl].
Qed.

Lemma set_add_In x y s : In x (set_add y s) <-> x = y \/ In x s.
Proof.
  unfold set_add. destruct (set_has y s) eqn:E.
  - apply set_has_In in E. split; [right; assumption|].
    intros [H|H]; [subst; exact E | exact H].
  - rewrite in_app_iff. cbn. split.
    + intros [H|[H|[]]]; [right; exact H | left; congruence].
    + intros [H|H]; [right; left; congruence | left; exact H].
Qed.

Lemma set_of_list_In_from x l : forall s,
  In x (fold_left (fun s y => set_add y s) l s) <-> In x s \/ In x l.
Proof.
  induction l as [|y l IH]; intros s; cbn.
  - split; [left; assumption | intros [H|[]]; exact H].
  - rewrite IH, set_add_In. split.
    + intros [[H|H]|H]; [right; left; congruence | left; exact H | right; right; exact H].
    + intros [H|[H|H]]; [left; right; exact H | left; left; congruence | right; exact H].
Qed.

Lemma set_of_list_In x l : In x (set_of_list l) <-> In x l.
Proof.
  unfold set_of_list. rewrite set_of_list_In_from. cbn. split.
  - intros [[]|H]; exact H.
  - intros H; right; exact H.
Qed.

(** An identifier is never the empty string: it contains a dash. *)
Lemma generateId_truthy b : truthy (VStr (fst (generateId b))) = true.
Proof.
  cbn. destruct (decimal (dateNow b)); reflexivity.
Qed.

Lemma timerLive_clearTimeout h b : timerLive h (clearTimeout h b) = false.
Proof.
  unfold timerLive. destruct b as [? ? ? ? ? ? ? ? ? ? [? ? ? tms ? ? ?]]. cbn.
  induction tms as [|t ts IH]; cbn; [reflexivity|].
  destruct (tid t =? h)%nat eqn:E; cbn; [exact IH | rewrite E; exact IH].
Qed.

Lemma timerLive_clearTimeout_mono h h' b :
  timerLive h b = false -> timerLive h (clearTimeout h' b) = false.
Proof.
  unfold timerLive. destruct b as [? ? ? ? ? ? ? ? ? ? [? ? ? tms ? ? ?]]. cbn.
  induction tms as [|t ts IH]; cbn; [reflexivity|].
  intros H. apply orb_false_iff in H. destruct H as [H1 H2].
  destruct (negb (tid t =? h')%nat); cbn; [rewrite H1|]; apply IH; exact H2.
Qed.

(** ** The handshake attempt *)

Lemma resumeInvokes_timers ws : forall b t,
  In t (timers (host (fst (resumeInvokes ws b)))) ->
  In t (timers (host b)) \/ isRequestTimer t = true.
Proof.
  induction ws as [|w ws IH]; intros b t; cbn [resumeInvokes].
  - cbn. intros H; left; exact H.
  - destruct (invokeRequest (w_caller w) (w_action w) (w_data w) b)
      as [b1 e1] eqn:E1.
    specialize (IH b1 t).
    destruct (resumeInvokes ws b1) as [b2 e2]. cbn [fst] in *.
    intros H. destruct (IH H) as [H1|H1]; [|right; exact H1].
    assert (Eb : b1 = fst (invokeRequest (w_caller w) (w_action w) (w_data w) b))
      by (rewrite E1; reflexivity).
    subst b1. clear E1. open_bridge b.
    apply in_app_iff in H1. destruct H1 as [H1|[H1|[]]].
    + left; exact H1.
    + right. subst t. reflexivity.
Qed.

Lemma resumeInvokes_fields ws : forall b,
  isReady (fst (resumeInvokes ws b)) = isReady b /\
  handshakeRetryInterval (fst (resumeInvokes ws b)) = handshakeRetryInterval b /\
  handshakeAttempts (fst (resumeInvokes ws b)) = handshakeAttempts b /\
  readyPromise (fst (resumeInvokes ws b)) = readyPromise b /\
  options (fst (resumeInvokes ws b)) = options b /\
  settlements (snd (resumeInvokes ws b)) = [].
Proof.
  induction ws as [|w ws IH]; intros b; cbn [resumeInvokes].
  - repeat split.
  - destruct (invokeRequest (w_caller w) (w_action w) (w_data w) b)
      as [b1 e1] eqn:E1.
    specialize (IH b1).
    destruct (resumeInvokes ws b1) as [b2 e2]. cbn [fst snd] in *.
    assert (Eb : b1 = fst (invokeRequest (w_caller w) (w_action w) (w_data w) b))
      by (rewrite E1; reflexivity).
    assert (Ee : e1 = snd (invokeRequest (w_caller w) (w_action w) (w_data w) b))
      by (rewrite E1; reflexivity).
    subst b1 e1. clear E1. open_bridge b. exact IH.
Qed.

(** ** The correlation table *)

Lemma keysUnique_sameCore b b' : sameCore b b' -> keysUnique b -> keysUnique b'.
Proof. intros (Hp & _) K. unfold keysUnique in *. rewrite Hp. exact K. Qed.

Lemma invokeRequest_keysUnique c a d b :
  keysUnique b -> keysUnique (fst (invokeRequest c a d b)).
Proof.
  unfold keysUnique. intros K. open_bridge b. apply NoDup_map_set. exact K.
Qed.

Lemma resumeInvokes_keysUnique ws : forall b,
  keysUnique b -> keysUnique (fst (resumeInvokes ws b)).
Proof.
  induction ws as [|w ws IH]; intros b K; cbn [resumeInvokes].
  - exact K.
  - pose proof (invokeRequest_keysUnique (w_caller w) (w_action w) (w_data w) b K)
      as K1.
    destruct (invokeRequest _ _ _ b) as [b1 e1]. cbn [fst] in K1.
    specialize (IH b1 K1). destruct (resumeInvokes ws b1) as [b2 e2].
    exact IH.
Qed.

Lemma stopHandshakeRetry_pending b :
  pendingRequests (stopHandshakeRetry b) = pendingRequests b.
Proof. open_bridge b. destruct hri; reflexivity. Qed.

Lemma attemptHandshake_then_keysUnique b :
  keysUnique b -> keysUnique (fst (attemptHandshake_then b)).
Proof.
  intros K. unfold attemptHandshake_then, resolveReady.
  assert (K1 : keysUnique (stopHandshakeRetry (set_isReady true b))).
  { unfold keysUnique in *. rewrite stopHandshakeRetry_pending.
    destruct b; exact K. }
  destruct (readyPromise _) as [ws|]; [|exact K1].
  apply resumeInvokes_keysUnique. unfold keysUnique in *.
  destruct (stopHandshakeRetry (set_isReady true b)); exact K1.
Qed.

Lemma attemptHandshake_catch_pending e b :
  pendingRequests (fst (attemptHandshake_catch e b)) = pendingRequests b.
Proof.
  open_bridge b. unfold attemptHandshake_catch. cbn.
  destruct (Opt.ge (ha + 1) (Opt.maxHandshakeAttempts opts)); [|reflexivity].
  destruct rp, hri; reflexivity.
Qed.

Lemma fire_keysUnique cb r b : keysUnique b -> keysUnique (fst (fire cb r b)).
Proof.
  intros K. destruct cb as [c|]; [exact K|]. destruct r as [v|e].
  - apply attemptHandshake_then_keysUnique; exact K.
  - unfold keysUnique in *. cbn [fire].
    rewrite attemptHandshake_catch_pending. exact K.
Qed.

Lemma fireAll_keysUnique jobs : forall b,
  keysUnique b -> keysUnique (fst (fireAll jobs b)).
Proof.
  induction jobs as [|[cb r] jobs IH]; intros b K; cbn [fireAll].
  - exact K.
  - pose proof (fire_keysUnique cb r b K) as K1.
    destruct (fire cb r b) as [b1 e1]. cbn [fst] in K1.
    specialize (IH b1 K1). destruct (fireAll jobs b1) as [b2 e2]. exact IH.
Qed.

Lemma deletePending_keysUnique r b :
  keysUnique b -> keysUnique (deletePending r b).
Proof.
  intros K. destruct r; try exact K. unfold keysUnique in *.
  open_bridge b. apply NoDup_map_delete. exact K.
Qed.

Lemma clearTimeout_pending h b :
  pendingRequests (clearTimeout h b) = pendingRequests b.
Proof. destruct b as [? ? ? ? ? ? ? ? ? ? []]. reflexivity. Qed.

Lemma handleResponseMessage_keysUnique msg b :
  keysUnique b -> keysUnique (fst (handleResponseMessage msg b)).
Proof.
  intros K. unfold handleResponseMessage.
  destruct (pendingFor _ b) as [p|]; [|exact K].
  assert (K1 : keysUnique (deletePending (getField "requestId" msg)
                             (clearTimeout (timeout p) b))).
  { apply deletePending_keysUnique. unfold keysUnique in *.
    rewrite clearTimeout_pending. exact K. }
  destruct (truthy _); apply fire_keysUnique; exact K1.
Qed.

Lemma attemptHandshake_keysUnique b :
  keysUnique b -> keysUnique (fst (attemptHandshake b)).
Proof.
  unfold keysUnique. intros K. open_bridge b. apply NoDup_map_set. exact K.
Qed.

Lemma destroy_pending b : pendingRequests (fst (destroy b)) = [].
Proof.
  unfold destroy, clearPendingRequests. cbn [fst snd].
  destruct (fold_left _ _ _) as [? ? ? ? ? ? ? ? ? ? []]. reflexivity.
Qed.

Lemma keysUnique_step b ev : keysUnique b -> keysUnique (fst (step b ev)).
Proof.
  intros K. destruct ev; cbn [step].
  - unfold invoke. destruct (isReady b).
    + apply invokeRequest_keysUnique; exact K.
    + destruct (readyPromise b) as [ws|].
      * destruct b; exact K.
      * pose proof (attemptHandshake_keysUnique b K) as K1.
        destruct (attemptHandshake b) as [b1 e1]. destruct b1; exact K1.
  - unfold send. pose proof (generateId_core b) as H.
    destruct (generateId b) as [id b1].
    eapply keysUnique_sameCore; [exact H | exact K].
  - destruct b; exact K.
  - destruct b; exact K.
  - destruct b; exact K.
  - destruct b; exact K.
  - pose proof (destroy_pending b) as Hd.
    destruct (destroy b) as [b1 jobs]. cbn [fst] in Hd.
    apply fireAll_keysUnique. unfold keysUnique. rewrite Hd. constructor.
  - destruct (listening (host b)); [|exact K]. unfold handleMessage.
    destruct (negb (isObject data) || _); [exact K|].
    destruct (negb (isAllowedValue _ b)); [exact K|].
    assert (K1 : keysUnique (fst (if truthy (getField "action" data)
                                  then handleRequestMessage data b else (b, [])))).
    { destruct (truthy (getField "action" data)); [|exact K].
      eapply keysUnique_sameCore; [apply handleRequestMessage_core | exact K]. }
    destruct (if truthy (getField "action" data) then _ else _) as [b1 e1].
    cbn [fst] in K1.
    assert (K2 : keysUnique (fst (if truthy (getField "requestId" data)
                                  then handleResponseMessage data b1 else (b1, [])))).
    { destruct (truthy (getField "requestId" data)); [|exact K1].
      apply handleResponseMessage_keysUnique; exact K1. }
    destruct (if truthy (getField "requestId" data) then _ else _) as [b2 e2].
    exact K2.
  - destruct (findTimer h b) as [t|]; [|exact K].
    assert (K1 : keysUnique
              (set_host (set_now (Z.max (dateNow (clearTimeout h b))
                                    (armedAt t + Opt.honoured (delay t)))
                           (host (clearTimeout h b))) (clearTimeout h b))).
    { destruct b as [? ? ? ? ? ? ? ? ? ? []]; exact K. }
    destruct (callback t) as [id a c|id|]; cbn [runTimer fst].
    + apply deletePending_keysUnique; exact K1.
    + unfold keysUnique. rewrite attemptHandshake_catch_pending.
      apply (deletePending_keysUnique (VStr id)); exact K1.
    + apply attemptHandshake_keysUnique; exact K1.
  - destruct (nth_error _ k) as [s|]; [|exact K].
    eapply keysUnique_sameCore; [apply resumeRequest_core|].
    destruct b as [? ? ? ? ? ? ? ? ? ? []]; exact K.
  - destruct b as [? ? ? ? ? ? ? ? ? ? []]; exact K.
Qed.

Lemma reachable_keysUnique b : reachable b -> keysUnique b.
Proof.
  induction 1 as [cid o clock rnd | b ev R IH].
  - unfold keysUnique. cbn. constructor.
  - apply keysUnique_step; exact IH.
Qed.

(** C4. An inbound response whose [requestId] has no pending entry is
    dropped: no effect, no state change.  When an entry exists its timer is
    cancelled and the entry is removed before the callback runs, and exactly
    one callback runs: [resolve(data)] when [success] is truthy, otherwise
    [reject] with an [Error] carrying [error], or the fixed unknown-error
    text when [error] is absent.  No identifier has two pending entries in a
    reachable state, and the response that settled a call is dropped when it
    is delivered again. *)
Theorem response_resolution :
  forall (msg : value) (b : Bridge),
    let requestId := getField "requestId" msg in
    let outcome :=
      if truthy (getField "success" msg) then Resolved (getField "data" msg)
      else Rejected (mkError (if truthy (getField "error" msg)
                              then toString (getField "error" msg)
                              else "未知错误")) in
    (pendingFor requestId b = None -> handleResponseMessage msg b = (b, [])) /\
    (forall pending,
       pendingFor requestId b = Some pending ->
       let b' := deletePending requestId (clearTimeout (timeout pending) b) in
       timerLive (timeout pending) b' = false /\
       pendingFor requestId b' = None /\
       handleResponseMessage msg b = fire (callbacks pending) outcome b' /\
       (forall caller,
          callbacks pending = InvokeCall caller ->
          handleResponseMessage msg b = (b', [Settle caller outcome]) /\
          handleResponseMessage msg b' = (b', []))) /\
    (getField "error" msg = VUndefined ->
     truthy (getField "success" msg) = false ->
     outcome = Rejected (mkError "未知错误")) /\
    (reachable b -> NoDup (map_keys (pendingRequests b))).
Proof.
  intros msg b requestId outcome.
  split; [|split; [|split]].
  - intros H. unfold handleResponseMessage. fold requestId. rewrite H.
    reflexivity.
  - intros pending H b'.
    assert (Hlive : timerLive (timeout pending) b' = false).
    { subst b'. pose proof (timerLive_clearTimeout (timeout pending) b) as L.
      destruct requestId; exact L. }
    assert (Hgone : pendingFor requestId b' = None).
    { subst b'. destruct requestId as [| | | |rid|]; try discriminate.
      unfold deletePending, pendingFor.
      change (pendingRequests (set_pendingRequests ?x ?y)) with x.
      apply map_get_delete_same. }
    assert (Hrun : handleResponseMessage msg b = fire (callbacks pending) outcome b').
    { unfold handleResponseMessage. fold requestId. rewrite H.
      subst outcome b'. destruct (truthy (getField "success" msg)); reflexivity. }
    split; [exact Hlive | split; [exact Hgone | split; [exact Hrun|]]].
    intros caller Hc. split.
    + rewrite Hrun, Hc. reflexivity.
    + unfold handleResponseMessage. fold requestId. rewrite Hgone. reflexivity.
  - intros He Hs. subst outcome. rewrite Hs, He. reflexivity.
  - apply reachable_keysUnique.
Qed.

(** ** Requests without a handler *)


(** ** The dispatcher *)

Lemma isAllowedId_spec id b :
  isAllowedId id b = true <-> allowedIds b = [] \/ In id (allowedIds b).
Proof.
  unfold isAllowedId. rewrite orb_true_iff, set_has_In, Nat.eqb_eq.
  split; (intros [H|H]; [left | right; exact H]).
  - destruct (allowedIds b); [reflexivity | discriminate].
  - rewrite H; reflexivity.
Qed.

(** C6. A value that is not an object, or whose [type] differs from the
    configured message type, is ignored: no effect and no state change.  So
    is an envelope whose [communicationId] is not allow-listed; an empty
    allow-list admits every identifier, a non-empty one exactly its members.
    An envelope that passes both gates goes through the [action] check and
    the [requestId] check independently: each check that passes runs its
    own handling, the request first, and an envelope that passes both is
    handled as a request and as a response. *)
Theorem dispatcher_gates :
  forall (msg : value) (b : Bridge),
    (isObject msg = false \/
     strictEqStr (getField "type" msg) (messageType b) = false ->
     handleMessage msg b = (b, [])) /\
    (isAllowedValue (getField "communicationId" msg) b = false ->
     handleMessage msg b = (b, [])) /\
    (forall id,
       isAllowedValue (VStr id) b = isAllowedId id b /\
       (allowedIds b = [] -> isAllowedId id b = true) /\
       (allowedIds b <> [] -> (isAllowedId id b = true <-> In id (allowedIds b)))) /\
    (isObject msg = true ->
     strictEqStr (getField "type" msg) (messageType b) = true ->
     isAllowedValue (getField "communicationId" msg) b = true ->
     let request := handleRequestMessage msg b in
     (truthy (getField "action" msg) = true ->
      truthy (getField "requestId" msg) = true ->
      handleMessage msg b =
        (fst (handleResponseMessage msg (fst request)),
         (snd request ++ snd (handleResponseMessage msg (fst request)))%list)) /\
     (truthy (getField "action" msg) = true ->
      truthy (getField "requestId" msg) = false ->
      handleMessage msg b = (fst request, (snd request ++ [])%list)) /\
     (truthy (getField "action" msg) = false ->
      truthy (getField "requestId" msg) = true ->
      handleMessage msg b = handleResponseMessage msg b) /\
     (truthy (getField "action" msg) = false ->
      truthy (getField "requestId" msg) = false ->
      handleMessage msg b = (b, []))).
Proof.
  intros msg b. split; [|split; [|split]].
  - intros [H|H]; unfold handleMessage; rewrite H; cbn;
      rewrite ?orb_true_r; reflexivity.
  - intros H. unfold handleMessage. rewrite H. cbn.
    destruct (negb (isObject msg) || _); reflexivity.
  - intros id. split; [reflexivity|]. split.
    + intros H. apply isAllowedId_spec. left; exact H.
    + intros H. rewrite isAllowedId_spec. split.
      * intros [E|E]; [contradiction | exact E].
      * intros E; right; exact E.
  - intros Ho Ht Ha request. unfold handleMessage. rewrite Ho, Ht, Ha. cbn.
    subst request. repeat split; intros H1 H2; rewrite H1, H2.
    + destruct (handleRequestMessage msg b) as [b1 e1]. cbn [fst snd].
      destruct (handleResponseMessage msg b1) as [b2 e2]. reflexivity.
    + destruct (handleRequestMessage msg b) as [b1 e1]. reflexivity.
    + destruct (handleResponseMessage msg b) as [b2 e2]. reflexivity.
    + reflexivity.
Qed.

(** ** Teardown *)

Lemma fold_clearTimeout_dead (entries : list (string * Pending)) : forall b h,
  timerLive h b = false \/ In h (map (fun kv => timeout (snd kv)) entries) ->
  timerLive h
    (fold_left (fun acc kv => clearTimeout (timeout (snd kv)) acc) entries b)
  = false.
Proof.
  induction entries as [|kv entries IH]; intros b h H; cbn.
  - destruct H as [H|[]]; exact H.
  - apply IH. destruct H as [H|[H|H]].
    + left. apply timerLive_clearTimeout_mono; exact H.
    + left. rewrite H. apply timerLive_clearTimeout.
    + right; exact H.
Qed.

Lemma stopHandshakeRetry_dead b h :
  handshakeRetryInterval b = Some h -> timerLive h (stopHandshakeRetry b) = false.
Proof.
  intros H. unfold stopHandshakeRetry. rewrite H.
  pose proof (timerLive_clearTimeout h b) as L.
  destruct (clearTimeout h b) as [? ? ? ? ? ? ? ? ? ? []]. exact L.
Qed.

Lemma destroy_spec b :
  destroy b =
    (set_host
       (set_listening false
          (host (fold_left (fun acc kv => clearTimeout (timeout (snd kv)) acc)
                   (pendingRequests b)
                   (set_messageHandlers [] (stopHandshakeRetry b)))))
       (set_pendingRequests []
          (fold_left (fun acc kv => clearTimeout (timeout (snd kv)) acc)
             (pendingRequests b)
             (set_messageHandlers [] (stopHandshakeRetry b)))),
     map (fun kv => (callbacks (snd kv), Rejected (mkError "连接已断开")))
       (pendingRequests b)).
Proof.
  unfold destroy, clearPendingRequests.
  change (pendingRequests (set_messageHandlers [] (stopHandshakeRetry b)))
    with (pendingRequests (stopHandshakeRetry b)).
  rewrite stopHandshakeRetry_pending. reflexivity.
Qed.

Lemma destroy_tornDown b : tornDown (fst (destroy b)).
Proof.
  rewrite destroy_spec. cbn [fst]. unfold tornDown.
  pose proof (fold_clearTimeout_fields (pendingRequests b)
                (set_messageHandlers [] (stopHandshakeRetry b))) as H.
  cbv zeta in H. destruct H as (_ & _ & H3 & _ & H5 & _).
  destruct (fold_left _ _ _) as [? ? ? ? ? ? ? ? ? ? []]. cbn in *.
  repeat split.
  - rewrite H3. open_bridge b. destruct hri; reflexivity.
  - exact H5.
Qed.

Lemma destroy_idempotent b : destroy (fst (destroy b)) = (fst (destroy b), []).
Proof.
  pose proof (destroy_tornDown b) as (H1 & H2 & H3 & H4).
  destruct (fst (destroy b)) as [? ? ? ? ? ? ? ? ? ? []]. cbn in *. subst.
  reflexivity.
Qed.

Lemma fireAll_rejections entries : forall b id p c e,
  In (id, p) entries -> callbacks p = InvokeCall c ->
  In (Settle c (Rejected e))
    (snd (fireAll (map (fun kv : string * Pending =>
                          (callbacks (snd kv), Rejected e)) entries) b)).
Proof.
  induction entries as [|kv entries IH]; intros b id p c e Hin Hc;
    cbn [map fireAll]; [contradiction|].
  destruct (fire (callbacks (snd kv)) (Rejected e) b) as [b1 e1] eqn:E1.
  specialize (IH b1 id p c e).
  destruct (fireAll _ b1) as [b2 e2]. cbn [snd] in *.
  apply in_app_iff. destruct Hin as [Hin|Hin].
  - left. subst kv. cbn [snd] in E1. rewrite Hc in E1. cbn in E1.
    inversion E1; subst. left; reflexivity.
  - right. apply IH; assumption.
Qed.

Lemma fireAll_rejections_pending jobs : forall b,
  Forall (fun j => exists e, snd j = Rejected e) jobs ->
  pendingRequests (fst (fireAll jobs b)) = pendingRequests b /\
  messageHandlers (fst (fireAll jobs b)) = messageHandlers b /\
  listening (host (fst (fireAll jobs b))) = listening (host b).
Proof.
  induction jobs as [|[cb r] jobs IH]; intros b F; cbn [fireAll].
  - repeat split.
  - inversion F as [|x l [e He] Hl]; subst. cbn [snd] in He. subst r.
    assert (H1 : pendingRequests (fst (fire cb (Rejected e) b)) = pendingRequests b
                 /\ messageHandlers (fst (fire cb (Rejected e) b)) = messageHandlers b
                 /\ listening (host (fst (fire cb (Rejected e) b))) = listening (host b)).
    { destruct cb as [c|]; [repeat split|]. cbn [fire].
      open_bridge b. unfold attemptHandshake_catch. cbn.
      destruct (Opt.ge (ha + 1) (Opt.maxHandshakeAttempts opts)); [|repeat split].
      destruct rp, hri; repeat split. }
    destruct (fire cb (Rejected e) b) as [b1 e1]. cbn [fst] in H1.
    specialize (IH b1 Hl). destruct (fireAll jobs b1) as [b2 e2]. cbn [fst] in *.
    destruct H1 as (A1 & A2 & A3), IH as (B1 & B2 & B3).
    repeat split; congruence.
Qed.

(** The body of [destroy], up to its return: the handshake retry timer is
    stopped, the handler registry cleared, the timer of every pending
    request cancelled, every pending entry rejected with the disconnect
    error (its reaction queued), the correlation table emptied and the
    listener detached; run again at once, it changes nothing. *)
Lemma destroy_teardown :
  forall b : Bridge,
    tornDown (fst (destroy b)) /\
    snd (destroy b) =
      map (fun kv => (callbacks (snd kv), Rejected (mkError "连接已断开")))
        (pendingRequests b) /\
    (forall h, handshakeRetryInterval b = Some h ->
               timerLive h (fst (destroy b)) = false) /\
    (forall id pending, In (id, pending) (pendingRequests b) ->
                        timerLive (timeout pending) (fst (destroy b)) = false) /\
    (forall id pending caller,
       In (id, pending) (pendingRequests b) ->
       callbacks pending = InvokeCall caller ->
       In (Settle caller (Rejected (mkError "连接已断开")))
         (snd (step b Destroy))) /\
    destroy (fst (destroy b)) = (fst (destroy b), []) /\
    tornDown (fst (step (fst (step b Destroy)) Destroy)) /\
    snd (step (fst (step b Destroy)) Destroy) = [].
Proof.
  intros b.
  split; [apply destroy_tornDown|].
  split; [rewrite destroy_spec; reflexivity|].
  split; [|split; [|split; [|split; [apply destroy_idempotent|]]]].
  - intros h H. rewrite destroy_spec. cbn [fst].
    pose proof (fold_clearTimeout_dead (pendingRequests b)
                  (set_messageHandlers [] (stopHandshakeRetry b)) h) as L.
    assert (L0 : timerLive h (set_messageHandlers [] (stopHandshakeRetry b)) = false).
    { pose proof (stopHandshakeRetry_dead b h H) as L0.
      destruct (stopHandshakeRetry b); exact L0. }
    specialize (L (or_introl L0)).
    destruct (fold_left _ _ _) as [? ? ? ? ? ? ? ? ? ? []]. exact L.
  - intros id pending Hin. rewrite destroy_spec. cbn [fst].
    pose proof (fold_clearTimeout_dead (pendingRequests b)
                  (set_messageHandlers [] (stopHandshakeRetry b))
                  (timeout pending)) as L.
    assert (Hh : In (timeout pending)
                   (map (fun kv : string * Pending => timeout (snd kv))
                      (pendingRequests b))).
    { apply in_map_iff. exists (id, pending). split; [reflexivity | exact Hin]. }
    specialize (L (or_intror Hh)).
    destruct (fold_left _ _ _) as [? ? ? ? ? ? ? ? ? ? []]. exact L.
  - intros id pending caller Hin Hc. cbn [step]. rewrite destroy_spec.
    eapply fireAll_rejections; eassumption.
  - assert (Hs : tornDown (fst (step b Destroy)) \/ True) by (right; exact I).
    clear Hs.
    assert (Hp : pendingRequests (fst (step b Destroy)) = []).
    { cbn [step]. pose proof (destroy_pending b) as Hd.
      rewrite destroy_spec in *. cbn [fst] in Hd.
      match goal with
      | |- pendingRequests (fst (fireAll ?jobs ?s)) = [] =>
          destruct (fireAll_rejections_pending jobs s) as (A & _);
            [|rewrite A; exact Hd]
      end.
      apply Forall_forall. intros j Hj. apply in_map_iff in Hj.
      destruct Hj as [kv [E _]]. subst j. eexists; reflexivity. }
    set (b1 := fst (step b Destroy)) in *.
    split.
    + cbn [step]. rewrite destroy_spec, Hp. cbn [map fireAll fst fold_left].
      pose proof (destroy_tornDown b1) as T. rewrite destroy_spec, Hp in T.
      exact T.
    + cbn [step]. rewrite destroy_spec, Hp. reflexivity.
Qed.

(** ** One handshake sequence at a time *)

Lemma filter_none {A} (f g : A -> bool) (l : list A) :
  (forall x, g x = true -> f x = false) ->
  Forall (fun x => g x = true) l -> filter f l = [].
Proof.
  intros H F. induction F as [|x l Hx F IH]; cbn; [reflexivity|].
  rewrite (H x Hx). exact IH.
Qed.

Lemma phase_inFlight b :
  phase b ->
  handshakesInFlight b <= 1 /\
  (handshakesInFlight b = 1 -> isReady b = false /\ readyPromise b <> None).
Proof.
  intros P. unfold handshakesInFlight.
  destruct P as [R F1 F2 | R E1 E2 | id h ms clock ws R E1 E2 E3 | h ms clock ws R E1 E2 E3 E4].
  - assert (A1 : forall kv, isInvokeEntry kv = true -> isHandshakeEntry kv = false).
    { unfold isInvokeEntry. intros x Hx.
      destruct (isHandshakeEntry x); [discriminate | reflexivity]. }
    assert (A2 : forall t, isRequestTimer t = true -> isRetryTimer t = false).
    { unfold isRequestTimer, isRetryTimer. intros x Hx.
      destruct (callback x); [reflexivity | discriminate | discriminate]. }
    rewrite (filter_none _ _ _ A1 F1), (filter_none _ _ _ A2 F2).
    cbn. split; [lia | discriminate].
  - rewrite E1, E2. cbn. split; [lia | discriminate].
  - rewrite E1, E2, E3. cbn. split; [lia | intros _; split; [exact R | discriminate]].
  - rewrite E1, E2, E4. cbn. split; [lia | intros _; split; [exact R | discriminate]].
Qed.

Lemma attemptHandshake_posts b :
  exists m, snd (attemptHandshake b) = [Post m] /\ isHandshakeRequest m = true.
Proof.
  exists (requestEnvelope (fst (attemptHandshake b)) (fst (generateId b))
            HANDSHAKE_ACTION (VObj [("timestamp", VNum (dateNow b))]) true).
  split; reflexivity.
Qed.

Lemma run_joining calls : forall b ws,
  isReady b = false -> readyPromise b = Some ws ->
  run b (map invokeEvent calls) =
    (set_readyPromise
       (Some (ws ++ map (fun w => mkWaiter (w_caller w) (w_action w) (w_data w))
                      calls)%list) b, []).
Proof.
  induction calls as [|w calls IH]; intros b ws R E; cbn [map run].
  - rewrite app_nil_r. destruct b; cbn in *; subst; reflexivity.
  - cbn [invokeEvent step]. unfold invoke. rewrite R, E.
    rewrite (IH _ (ws ++ [mkWaiter (w_caller w) (w_action w) (w_data w)])%list)
      by (destruct b; cbn in *; subst; reflexivity).
    cbn [map]. rewrite <- app_assoc. destruct b; reflexivity.
Qed.

(** C8. In every reachable state at most one handshake sequence is in
    flight (one attempt awaiting its answer, or one retry waiting for its
    timer), and then the bridge is not ready and [readyPromise] is set.
    While the sequence runs an [invoke] only joins the callers parked on
    [readyPromise]: nothing is posted and the pending table is untouched.
    So any number of [invoke] calls made before readiness put exactly one
    handshake request on the channel, and every attempt posts exactly one. *)
Theorem single_handshake_sequence :
  forall b : Bridge,
    reachable b ->
    handshakesInFlight b <= 1 /\
    (handshakesInFlight b = 1 -> isReady b = false /\ readyPromise b <> None) /\
    (forall caller action data ws,
       isReady b = false -> readyPromise b = Some ws ->
       invoke caller action data b =
         (set_readyPromise
            (Some (ws ++ [mkWaiter caller action data])%list) b, [])) /\
    (forall first rest,
       isReady b = false -> readyPromise b = None ->
       exists m,
         snd (run b (map invokeEvent (first :: rest))) = [Post m] /\
         isHandshakeRequest m = true /\
         handshakesInFlight (fst (run b (map invokeEvent (first :: rest)))) = 1 /\
         length (waiters (fst (run b (map invokeEvent (first :: rest)))))
           = S (length rest)) /\
    (exists m, snd (attemptHandshake b) = [Post m] /\ isHandshakeRequest m = true).
Proof.
  intros b Rb. pose proof (reachable_phase b Rb) as P.
  destruct (phase_inFlight b P) as [H1 H2].
  split; [exact H1 | split; [exact H2 | split; [|split]]].
  - intros caller action data ws R E. unfold invoke. rewrite R, E. reflexivity.
  - intros first rest R E.
    assert (Pidle : pendingRequests b = [] /\ timers (host b) = []).
    { destruct P as [R' F1 F2 | R' E1 E2 | id h ms clock ws R' E1 E2 E3 | h ms clock ws R' E1 E2 E3 E4];
        try congruence. split; assumption. }
    destruct Pidle as [Ep Et].
    destruct (attemptHandshake_posts b) as [m [Hm1 Hm2]].
    exists m. cbn [map run]. cbn [invokeEvent step]. unfold invoke.
    rewrite R, E.
    destruct (attemptHandshake b) as [b1 e1] eqn:Ea. cbn [snd] in Hm1. subst e1.
    assert (Eb : b1 = fst (attemptHandshake b)) by (rewrite Ea; reflexivity).
    rewrite (run_joining rest _ [mkWaiter (w_caller first) (w_action first) (w_data first)]).
    + cbn [fst snd app]. split; [reflexivity | split; [exact Hm2|]].
      subst b1. clear Ea. open_bridge b. cbn.
      rewrite length_map. split; reflexivity.
    + subst b1. clear Ea. open_bridge b. reflexivity.
    + reflexivity.
  - apply attemptHandshake_posts.
Qed.

(** ** The attempt limit *)

Lemma ge_mono a a' s :
  (a <= a')%Z -> Opt.ge a s = true -> Opt.ge a' s = true.
Proof.
  intros Le. destruct s; cbn; intros H; try exact H.
  - apply Z.leb_le in H. apply Z.leb_le. lia.
  - apply Z.ltb_lt in H. apply Z.ltb_lt. lia.
Qed.

(** ** Exhausting the attempts *)

Lemma settlements_app e1 e2 :
  settlements (e1 ++ e2) = (settlements e1 ++ settlements e2)%list.
Proof. unfold settlements. apply flat_map_app. Qed.

Lemma sendResponse_quiet rid s d e b : settlements (snd (sendResponse rid s d e b)) = [].
Proof. reflexivity. Qed.

Lemma handleRequestMessage_quiet msg b :
  settlements (snd (handleRequestMessage msg b)) = [].
Proof.
  unfold handleRequestMessage.
  destruct (handlerFor _ b) as [h|].
  - destruct (h _ _) as [v|t|l]; [| |reflexivity].
    + unfold handleRequest_done. destruct (truthy _); reflexivity.
    + unfold handleRequest_catch. destruct (truthy _); reflexivity.
  - destruct (truthy _); reflexivity.
Qed.

Lemma map_settle_settlements (ws : list Waiter) e :
  settlements (map (fun w => Settle (w_caller w) (Rejected e)) ws) =
  map (fun w => (w_caller w, Rejected e)) ws.
Proof.
  induction ws as [|w ws IH]; cbn; [reflexivity|]. f_equal. exact IH.
Qed.

Lemma catch_verdict e b ws :
  readyPromise b = Some ws -> isReady b = false ->
  let r := attemptHandshake_catch e b in
  handshakeAttempts (fst r) = (handshakeAttempts b + 1)%Z /\
  isReady (fst r) = false /\
  options (fst r) = options b /\
  (Opt.ge (handshakeAttempts b + 1) (Opt.maxHandshakeAttempts (options b)) = true ->
   readyPromise (fst r) = None /\
   settlements (snd r) = map (fun w => (w_caller w, Rejected (handshakeFailure e))) ws).
Proof.
  intros E R. open_bridge b. unfold attemptHandshake_catch. cbn.
  destruct (Opt.ge (ha + 1) (Opt.maxHandshakeAttempts opts)) eqn:Em.
  - destruct hri; cbn; repeat split; apply map_settle_settlements.
  - cbn. repeat split; discriminate.
Qed.

Lemma then_fields b :
  handshakeAttempts (fst (attemptHandshake_then b)) = handshakeAttempts b /\
  options (fst (attemptHandshake_then b)) = options b.
Proof.
  unfold attemptHandshake_then, resolveReady.
  destruct (readyPromise _) as [ws|] eqn:E.
  - destruct (resumeInvokes_fields ws
      (set_readyPromise None (stopHandshakeRetry (set_isReady true b))))
      as (_ & _ & H1 & _ & H2 & _).
    rewrite H1, H2. open_bridge b. destruct hri; split; reflexivity.
  - open_bridge b. destruct hri; split; reflexivity.
Qed.

Lemma response_verdict msg b :
  phase b -> isReady b = false ->
  let r := handleResponseMessage msg b in
  options (fst r) = options b /\
  ((handshakeAttempts (fst r) = handshakeAttempts b /\
    (isReady (fst r) = true ->
     exists pending,
       pendingFor (getField "requestId" msg) b = Some pending /\
       callbacks pending = HandshakeAttempt /\
       truthy (getField "success" msg) = true)) \/
   (handshakeAttempts (fst r) = (handshakeAttempts b + 1)%Z /\
    isReady (fst r) = false /\
    (Opt.ge (handshakeAttempts b + 1) (Opt.maxHandshakeAttempts (options b)) = true ->
     readyPromise (fst r) = None /\
     settlements (snd r) =
       map (fun w => (w_caller w,
                      Rejected (handshakeFailure (attemptError (MessageEvent msg)))))
         (waiters b)))).
Proof.
  intros P R r. subst r. unfold handleResponseMessage.
  destruct (pendingFor (getField "requestId" msg) b) as [p|] eqn:G.
  2:{ split; [reflexivity|]. left. split; [reflexivity|].
      cbn [fst]. intros H; congruence. }
  destruct (getField "requestId" msg) as [| | | |rid|] eqn:Er; try discriminate.
  cbn [pendingFor] in G.
  destruct P as [R' F1 F2 | R' E1 E2 | id h ms clock ws R' E1 E2 E3 | h ms clock ws R' E1 E2 E3 E4];
    try congruence; try (rewrite E1 in G; discriminate).
  rewrite E1 in G. cbn in G. destruct (id =? rid) eqn:Eid; [|discriminate].
  inversion G; subst p; clear G. cbn [timeout callbacks].
  set (b2 := deletePending (VStr rid) (clearTimeout h b)).
  assert (B2 : readyPromise b2 = Some ws /\ isReady b2 = false /\
               options b2 = options b /\
               handshakeAttempts b2 = handshakeAttempts b).
  { subst b2. destruct b as [? ? ? ? ? ? ? ? ? ? []]. cbn in *. subst.
    repeat split. }
  destruct B2 as (B21 & B22 & B23 & B24).
  destruct (truthy (getField "success" msg)) eqn:Es; cbn [fire].
  - destruct (then_fields b2) as [T1 T2]. split; [congruence|].
    left. split; [congruence|]. intros _.
    exists (mkPending HandshakeAttempt h). repeat split.
  - destruct (catch_verdict
                (mkError (if truthy (getField "error" msg)
                          then toString (getField "error" msg) else "未知错误"))
                b2 ws B21 B22) as (C1 & C2 & C3 & C4).
    cbv zeta in *. split; [congruence|]. right.
    split; [congruence|]. split; [exact C2|].
    intros Hm. rewrite <- B23, <- B24 in Hm. specialize (C4 Hm).
    unfold waiters. rewrite E3. exact C4.
Qed.

Lemma not_ready_cases b :
  phase b -> isReady b = false ->
  (pendingRequests b = [] /\ timers (host b) = []) \/
  (exists id h ms clock ws,
     pendingRequests b = [(id, mkPending HandshakeAttempt h)] /\
     timers (host b) = [mkTimer h (HandshakeTimeout id) ms clock] /\
     readyPromise b = Some ws) \/
  (exists h ms clock ws,
     pendingRequests b = [] /\
     timers (host b) = [mkTimer h HandshakeRetry ms clock] /\
     handshakeRetryInterval b = Some h /\
     readyPromise b = Some ws).
Proof.
  intros P R.
  destruct P as [R' F1 F2 | R' E1 E2 | id h ms clock ws R' E1 E2 E3 | h ms clock ws R' E1 E2 E3 E4].
  - congruence.
  - left; split; assumption.
  - right; left. exists id, h, ms, clock, ws. repeat split; assumption.
  - right; right. exists h, ms, clock, ws. repeat split; assumption.
Qed.

Lemma step_verdict b ev :
  phase b -> isReady b = false ->
  options (fst (step b ev)) = options b /\
  handshakeVerdict b ev (fst (step b ev)) (snd (step b ev)).
Proof.
  intros P R. unfold handshakeVerdict.
  destruct ev.
  - (* invoke *)
    cbn [step]. unfold invoke. rewrite R.
    destruct (readyPromise b) as [ws|] eqn:E.
    + open_bridge b. quiet_verdict.
    + open_bridge b. quiet_verdict.
  - open_bridge b. quiet_verdict.
  - open_bridge b. quiet_verdict.
  - open_bridge b. quiet_verdict.
  - open_bridge b. quiet_verdict.
  - open_bridge b. quiet_verdict.
  - (* destroy *)
    destruct (not_ready_cases b P R)
      as [[E1 E2] | [(id & h & ms & clock & ws & E1 & E2 & E3)
                    | (h & ms & clock & ws & E1 & E2 & E3 & E4)]].
    + open_bridge b. destruct hri; crunch; quiet_verdict.
    + open_bridge b.
      destruct hri as [h0|]; crunch;
        try (destruct (h =? h0)%nat; crunch);
        destruct (Opt.ge (ha + 1) (Opt.maxHandshakeAttempts opts)) eqn:Em;
        crunch.
        all: (split; [reflexivity|]); right;
        (split; [reflexivity|]); (split; [reflexivity|]); intros Hm;
        solve [ split; [reflexivity|]; rewrite app_nil_r;
                apply map_settle_settlements | cbn in Hm; congruence ].
    + open_bridge b. crunch. quiet_verdict.
  - (* message *)
    cbn [step]. destruct (listening (host b)) eqn:L; [|quiet_verdict].
    unfold handleMessage.
    destruct (negb (isObject data) || _); [quiet_verdict|].
    destruct (negb (isAllowedValue _ b)); [quiet_verdict|].
    assert (Hq : sameCore b (fst (if truthy (getField "action" data)
                                  then handleRequestMessage data b else (b, [])))
                 /\ settlements (snd (if truthy (getField "action" data)
                                  then handleRequestMessage data b else (b, []))) = []).
    { destruct (truthy (getField "action" data)).
      - split; [apply handleRequestMessage_core | apply handleRequestMessage_quiet].
      - split; [apply sameCore_refl | reflexivity]. }
    destruct (if truthy (getField "action" data) then _ else _) as [b1 e1].
    cbn [fst snd] in Hq. destruct Hq as [Hc Hq].
    pose proof (phase_sameCore _ _ Hc P) as P1.
    destruct Hc as (Cp & Ct & Cn & Cr & Crp & Ch & Ca & Co & Cl).
    destruct (truthy (getField "requestId" data)).
    2:{ cbn [fst snd]. split; [exact Co|]. left. split; [exact Ca|].
        intros Hr; congruence. }
    assert (R1 : isReady b1 = false) by congruence.
    pose proof (response_verdict data b1 P1 R1) as V. cbv zeta in V.
    destruct (handleResponseMessage data b1) as [b2 e2]. cbn [fst snd] in *.
    destruct V as [Vo V]. split; [congruence|].
    destruct V as [[V1 V2] | (V1 & V2 & V3)].
    + left. split; [congruence|]. intros Hr. destruct (V2 Hr) as (p & Hp & Hcb & Hs).
      exists data, p. repeat split; try assumption.
      unfold pendingFor in *. rewrite Cp in Hp. exact Hp.
    + right. split; [congruence|]. split; [exact V2|].
      intros Hm. rewrite <- Co, <- Ca in Hm. destruct (V3 Hm) as [W1 W2].
      split; [exact W1|]. rewrite settlements_app, Hq. cbn [app].
      rewrite W2. unfold waiters. rewrite Crp. reflexivity.
  - (* timer *)
    destruct (not_ready_cases b P R)
      as [[E1 E2] | [(id & h0 & ms & clock & ws & E1 & E2 & E3)
                    | (h0 & ms & clock & ws & E1 & E2 & E3 & E4)]].
    + open_bridge b. crunch. quiet_verdict.
    + open_bridge b. crunch.
      destruct (h0 =? h)%nat; crunch; [|quiet_verdict].
      destruct (Opt.ge (ha + 1) (Opt.maxHandshakeAttempts opts)) eqn:Em;
        destruct hri; crunch; (split; [reflexivity|]); right;
        (split; [reflexivity|]); (split; [reflexivity|]); intros Hm;
        solve [ split; [reflexivity|]; apply map_settle_settlements
              | cbn in Hm; congruence ].
    + open_bridge b. crunch.
      destruct (h0 =? h)%nat; crunch; quiet_verdict.
  - (* handler promise *)
    cbn [step]. destruct (nth_error _ k) as [s|]; [|quiet_verdict].
    pose proof (resumeRequest_core s
      (set_host (set_suspended (removeNth k (suspended (host b))) (host b)) b)) as Hc.
    destruct (resumeRequest s _) as [b1 e1]. cbn [fst snd] in *.
    destruct Hc as (Cp & Ct & Cn & Cr & Crp & Ch & Ca & Co & Cl).
    destruct b as [? ? ? ? ? ? ? ? ? ? []]. cbn in *.
    split; [exact Co|]. left. split; [exact Ca|]. intros Hr; congruence.
  - open_bridge b. quiet_verdict.
Qed.

(** ** The attempt counter *)

Lemma grows_refl b : grows b b.
Proof. split; [lia | reflexivity]. Qed.

Lemma grows_trans b1 b2 b3 : grows b1 b2 -> grows b2 b3 -> grows b1 b3.
Proof. intros [A1 A2] [B1 B2]. split; [lia | congruence]. Qed.

Lemma grows_sameCore b b' : sameCore b b' -> grows b b'.
Proof.
  intros (_ & _ & _ & _ & _ & _ & Ca & Co & _). split; [lia | exact Co].
Qed.

Lemma fire_grows cb r b : grows b (fst (fire cb r b)).
Proof.
  destruct cb as [c|]; [apply grows_refl|]. destruct r as [v|e]; cbn [fire].
  - destruct (then_fields b) as [T1 T2]. split; [lia | exact T2].
  - open_bridge b. unfold attemptHandshake_catch, grows. cbn.
    destruct (Opt.ge (ha + 1) (Opt.maxHandshakeAttempts opts)).
    + destruct rp, hri; cbn; split; (lia || reflexivity).
    + cbn. split; (lia || reflexivity).
Qed.

Lemma fireAll_grows jobs : forall b, grows b (fst (fireAll jobs b)).
Proof.
  induction jobs as [|[cb r] jobs IH]; intros b; cbn [fireAll].
  - apply grows_refl.
  - pose proof (fire_grows cb r b) as G1.
    destruct (fire cb r b) as [b1 e1]. cbn [fst] in G1.
    specialize (IH b1). destruct (fireAll jobs b1) as [b2 e2]. cbn [fst] in *.
    eapply grows_trans; eassumption.
Qed.

Lemma handleResponseMessage_grows msg b :
  grows b (fst (handleResponseMessage msg b)).
Proof.
  unfold handleResponseMessage.
  destruct (pendingFor _ b) as [p|]; [|apply grows_refl].
  assert (G : grows b (deletePending (getField "requestId" msg)
                         (clearTimeout (timeout p) b))).
  { destruct (getField "requestId" msg);
      destruct b as [? ? ? ? ? ? ? ? ? ? []]; same_counter. }
  destruct (truthy _); (eapply grows_trans; [exact G | apply fire_grows]).
Qed.

Lemma step_grows b ev : grows b (fst (step b ev)).
Proof.
  destruct ev; cbn [step].
  - unfold invoke. destruct (isReady b); [|destruct (readyPromise b)];
      open_bridge b; same_counter.
  - open_bridge b; same_counter.
  - open_bridge b; same_counter.
  - open_bridge b; same_counter.
  - open_bridge b; same_counter.
  - open_bridge b; same_counter.
  - rewrite destroy_spec. eapply grows_trans; [|apply fireAll_grows].
    pose proof (fold_clearTimeout_fields (pendingRequests b)
                  (set_messageHandlers [] (stopHandshakeRetry b))) as H.
    cbv zeta in H. destruct H as (_ & _ & _ & _ & _ & H6 & H7 & _).
    destruct (fold_left _ _ _) as [? ? ? ? ? ? ? ? ? ? []]. cbn in *.
    unfold grows. cbn. rewrite H6, H7.
    open_bridge b. destruct hri; cbn; split; (lia || reflexivity).
  - destruct (listening (host b)); [|apply grows_refl]. unfold handleMessage.
    destruct (negb (isObject data) || _); [apply grows_refl|].
    destruct (negb (isAllowedValue _ b)); [apply grows_refl|].
    assert (G1 : grows b (fst (if truthy (getField "action" data)
                               then handleRequestMessage data b else (b, [])))).
    { destruct (truthy (getField "action" data)); [|apply grows_refl].
      apply grows_sameCore, handleRequestMessage_core. }
    destruct (if truthy (getField "action" data) then _ else _) as [b1 e1].
    cbn [fst] in G1.
    assert (G2 : grows b1 (fst (if truthy (getField "requestId" data)
                                then handleResponseMessage data b1 else (b1, [])))).
    { destruct (truthy (getField "requestId" data)); [|apply grows_refl].
      apply handleResponseMessage_grows. }
    destruct (if truthy (getField "requestId" data) then _ else _) as [b2 e2].
    cbn [fst] in *. eapply grows_trans; eassumption.
  - destruct (findTimer h b) as [t|]; [|apply grows_refl].
    destruct (callback t) as [id a c|id|]; cbn [runTimer fst].
    + destruct b as [? ? ? ? ? ? ? ? ? ? []]; same_counter.
    + eapply grows_trans;
        [|apply (fire_grows HandshakeAttempt (Rejected (mkError "握手超时")))].
      destruct b as [? ? ? ? ? ? ? ? ? ? []]; same_counter.
    + open_bridge b. same_counter.
  - destruct (nth_error _ k) as [s|]; [|apply grows_refl].
    eapply grows_trans; [|apply grows_sameCore, resumeRequest_core].
    destruct b as [? ? ? ? ? ? ? ? ? ? []]; same_counter.
  - open_bridge b; same_counter.
Qed.


(** ** Envelopes on the channel *)

Lemma request_fields b id action data n :
  let m := requestEnvelope b id action data n in
  isObject m = true /\
  getField "type" m = VStr (messageType b) /\
  getField "communicationId" m = VStr (communicationId b) /\
  getField "id" m = VStr id /\
  getField "action" m = VStr action /\
  getField "data" m = data /\
  getField "needResponse" m = VBool n /\
  getField "requestId" m = VUndefined.
Proof. repeat split. Qed.

Lemma response_fields b id requestId success data error :
  let r := responseEnvelope b id requestId success data error in
  isObject r = true /\
  getField "type" r = VStr (messageType b) /\
  getField "communicationId" r = VStr (communicationId b) /\
  getField "requestId" r = requestId /\
  getField "success" r = VBool success /\
  getField "data" r = data /\
  getField "error" r = error /\
  getField "action" r = VUndefined.
Proof. repeat split. Qed.

Lemma id_truthy n r : truthy (VStr (decimal n ++ "-" ++ r)) = true.
Proof. cbn. destruct (decimal n); reflexivity. Qed.

(** A request that passes the gates, for an action whose handler returns a
    plain value. *)
Lemma deliver_request_sync b m h v :
  listening (host b) = true ->
  isObject m = true ->
  strictEqStr (getField "type" m) (messageType b) = true ->
  isAllowedValue (getField "communicationId" m) b = true ->
  truthy (getField "action" m) = true ->
  truthy (getField "requestId" m) = false ->
  handlerFor (getField "action" m) b = Some h ->
  h (dateNow b) (getField "data" m) = Returns v ->
  truthy (getField "needResponse" m) = true ->
  step b (MessageEvent m) =
    (snd (generateId b),
     [Post (responseEnvelope (snd (generateId b)) (fst (generateId b))
              (getField "id" m) true v VUndefined)]).
Proof.
  intros L Ho Ht Ha Hact Hrid Hh Hv Hn.
  cbn [step]. rewrite L. unfold handleMessage. rewrite Ho, Ht, Ha, Hact, Hrid.
  cbn [negb orb]. unfold handleRequestMessage. rewrite Hh, Hv.
  unfold handleRequest_done. rewrite Hn. reflexivity.
Qed.

Lemma removeNth_last {A} (l : list A) x : removeNth (length l) (l ++ [x]) = l.
Proof. induction l as [|y l IH]; cbn; [reflexivity | rewrite IH; reflexivity]. Qed.

Lemma nth_error_last {A} (l : list A) x : nth_error (l ++ [x]) (length l) = Some x.
Proof. induction l as [|y l IH]; cbn; [reflexivity | exact IH]. Qed.

(** The same for a handler that returns a promise: nothing is posted until
    the promise settles, then the response carries the awaited value. *)
Lemma deliver_request_async b m h v :
  listening (host b) = true ->
  isObject m = true ->
  strictEqStr (getField "type" m) (messageType b) = true ->
  isAllowedValue (getField "communicationId" m) b = true ->
  truthy (getField "action" m) = true ->
  truthy (getField "requestId" m) = false ->
  handlerFor (getField "action" m) b = Some h ->
  h (dateNow b) (getField "data" m) = ReturnsPromise (inl v) ->
  truthy (getField "needResponse" m) = true ->
  exists b0,
    step b (MessageEvent m) = (b0, []) /\
    step b0 (PromiseSettles (length (suspended (host b)))) =
      (snd (generateId b),
       [Post (responseEnvelope (snd (generateId b)) (fst (generateId b))
                (getField "id" m) true v VUndefined)]).
Proof.
  intros L Ho Ht Ha Hact Hrid Hh Hv Hn.
  eexists. split.
  - cbn [step]. rewrite L. unfold handleMessage. rewrite Ho, Ht, Ha, Hact, Hrid.
    cbn [negb orb]. unfold handleRequestMessage. rewrite Hh, Hv. reflexivity.
  - cbn [step].
    destruct b as [cid mt al mh pr rdy rp hri ha opts [clk rnd dr tms nt lst sus]].
    cbn [host suspended set_host set_suspended].
    rewrite nth_error_last, removeNth_last.
    unfold resumeRequest, handleRequest_done. cbn [s_later s_needResponse s_id].
    rewrite Hn. reflexivity.
Qed.

(** A success response that passes the gates and finds its entry. *)
Lemma deliver_response_ok b r pending :
  listening (host b) = true ->
  isObject r = true ->
  strictEqStr (getField "type" r) (messageType b) = true ->
  isAllowedValue (getField "communicationId" r) b = true ->
  truthy (getField "action" r) = false ->
  truthy (getField "requestId" r) = true ->
  pendingFor (getField "requestId" r) b = Some pending ->
  truthy (getField "success" r) = true ->
  step b (MessageEvent r) =
    fire (callbacks pending) (Resolved (getField "data" r))
      (deletePending (getField "requestId" r) (clearTimeout (timeout pending) b)).
Proof.
  intros L Ho Ht Ha Hact Hrid Hp Hs.
  cbn [step]. rewrite L. unfold handleMessage. rewrite Ho, Ht, Ha, Hact, Hrid.
  cbn [negb orb]. unfold handleResponseMessage. rewrite Hp, Hs.
  destruct (fire _ _ _) as [b2 e2]. reflexivity.
Qed.

(** ** A bridge hears its own broadcast *)

Lemma act_single b ev ch obs :
  act 0 ev (mkWorld [b] ch obs) =
    mkWorld [fst (step b ev)] (ch ++ posted (snd (step b ev)))
      (obs ++ snd (step b ev)).
Proof. unfold act. cbn. destruct (step b ev); reflexivity. Qed.

Lemma deliver_single b m ch obs :
  deliver (mkWorld [b] (m :: ch) obs) =
    mkWorld [fst (step b (MessageEvent m))]
      (ch ++ posted (snd (step b (MessageEvent m))))
      (obs ++ snd (step b (MessageEvent m))).
Proof.
  unfold deliver. cbn [channel peers dispatch].
  destruct (step b (MessageEvent m)) as [b1 e1]. cbn [fst snd].
  rewrite app_nil_r. reflexivity.
Qed.

Lemma createBridge_allows_self cid o h :
  Opt.orElse (Opt.allowedIds o) [] = [] \/
  In cid (Opt.orElse (Opt.allowedIds o) []) ->
  isAllowedId cid (createBridge cid o h) = true.
Proof.
  intros H. apply isAllowedId_spec. cbn. destruct H as [H|H].
  - left. rewrite H. reflexivity.
  - right. apply set_of_list_In. exact H.
Qed.

Lemma self_handshake b c a d :
  isReady b = false -> readyPromise b = None -> listening (host b) = true ->
  pendingRequests b = [] ->
  map_get HANDSHAKE_ACTION (messageHandlers b) = Some handshakeHandler ->
  isAllowedId (communicationId b) b = true ->
  let w := act 0 (Invoke c a d) (mkWorld [b] [] []) in
  (exists probe,
     channel w = [probe] /\
     isHandshakeRequest probe = true /\
     getField "communicationId" probe = VStr (communicationId b)) /\
  (exists b1 answer,
     peers (pump 1 w) = [b1] /\
     channel (pump 1 w) = [answer] /\
     isReady b1 = false /\
     getField "communicationId" answer = VStr (communicationId b) /\
     getField "success" answer = VBool true) /\
  (exists b2,
     peers (pump 2 w) = [b2] /\
     isReady b2 = true /\
     handshakeAttempts b2 = handshakeAttempts b).
Proof.
  intros R E L Ep Hh Ha w. subst w. open_bridge b.
  unfold isAllowedId in Ha. cbv [allowedIds] in Ha.
  unfold HANDSHAKE_ACTION in Hh.
  pose proof (id_truthy clk (rnd dr)) as Hid. cbv [truthy] in Hid.
  destruct hri;
    repeat (progress (model_eval; dispatch_eval;
                      rewrite ?Nat.eqb_refl, ?String.eqb_refl, ?Ha, ?Hh, ?Hid));
    (split; [eexists; repeat split; rewrite ?String.eqb_refl; reflexivity|]);
    (split; [eexists; eexists; repeat split|]);
    eexists; repeat split.
Qed.

(** C9. The dispatcher has no test on the bridge's own identifier: with an
    empty allow-list, or with its own identifier allow-listed, a bridge
    accepts the envelopes it broadcast itself.  Alone on the channel, its
    first [invoke] posts a handshake probe, the pre-registered handshake
    handler of the same bridge answers that probe with a success response,
    and the delivery of that response makes the bridge ready without any
    failed attempt. *)
Theorem own_broadcast_completes_handshake :
  forall (cid : string) (o : Opt.user) (clock : Z) (rnd : nat -> string)
         (caller : nat) (action : string) (data : value),
    Opt.orElse (Opt.allowedIds o) [] = [] \/
    In cid (Opt.orElse (Opt.allowedIds o) []) ->
    let b0 := createBridge cid o (freshHost clock rnd) in
    let w := act 0 (Invoke caller action data) (mkWorld [b0] [] []) in
    isAllowedValue (VStr cid) b0 = true /\
    (exists probe,
       channel w = [probe] /\
       isHandshakeRequest probe = true /\
       getField "communicationId" probe = VStr cid) /\
    (exists b1 answer,
       peers (pump 1 w) = [b1] /\
       channel (pump 1 w) = [answer] /\
       isReady b1 = false /\
       getField "communicationId" answer = VStr cid /\
       getField "success" answer = VBool true) /\
    (exists b2,
       peers (pump 2 w) = [b2] /\
       isReady b2 = true /\
       handshakeAttempts b2 = 0%Z).
Proof.
  intros cid o clock rnd caller action data H b0 w.
  pose proof (createBridge_allows_self cid o (freshHost clock rnd) H) as Ha.
  split; [exact Ha|].
  apply (self_handshake b0 caller action data); try reflexivity. exact Ha.
Qed.

(** ** The round trip of a call *)

Lemma invokeRequest_spec c a d b :
  let id := fst (generateId b) in
  let b1 := fst (invokeRequest c a d b) in
  snd (invokeRequest c a d b) = [Post (requestEnvelope b1 id a d true)] /\
  messageType b1 = messageType b /\
  communicationId b1 = communicationId b /\
  allowedIds b1 = allowedIds b /\
  listening (host b1) = listening (host b) /\
  pendingFor (VStr id) b1 =
    Some (mkPending (InvokeCall c) (nextTimer (host b))).
Proof.
  open_bridge b. repeat split. apply map_get_set_same.
Qed.

(** The three steps of a call, each on its own: [invokeRequest] posts one
    request envelope that carries [data]; a peer B that listens with the
    same message type, allows A's identifier and has a handler registered
    for the non-empty [action] posts one success response that carries the
    value the handler returns, awaited if it is a promise; and that
    response, delivered to the state [invokeRequest] left, resolves the
    call with that value and removes the entry. *)
Lemma round_trip_steps :
  forall (A B : Bridge) (caller : nat) (action : string) (data : value)
         (h : Handler) (v : value),
    listening (host A) = true ->
    listening (host B) = true ->
    action <> "" ->
    messageType A = messageType B ->
    isAllowedId (communicationId A) B = true ->
    isAllowedId (communicationId B) A = true ->
    map_get action (messageHandlers B) = Some h ->
    awaited (h (dateNow B) data) = Some v ->
    exists A1 m B1 r A2,
      invokeRequest caller action data A = (A1, [Post m]) /\
      (isReady A = true ->
       step A (Invoke caller action data) = (A1, [Post m])) /\
      (forall rest,
         resumeInvokes (mkWaiter caller action data :: rest) A =
           (fst (resumeInvokes rest A1),
            (Post m :: snd (resumeInvokes rest A1)))) /\
      getField "action" m = VStr action /\
      getField "data" m = data /\
      answered B m B1 r /\
      getField "requestId" r = getField "id" m /\
      getField "success" r = VBool true /\
      getField "data" r = v /\
      step A1 (MessageEvent r) = (A2, [Settle caller (Resolved v)]) /\
      pendingFor (getField "requestId" r) A2 = None.
Proof.
  intros A B caller action data h v LA LB Hact Ht HaB HaA Hh Hv.
  destruct (invokeRequest_spec caller action data A)
    as (S1 & S2 & S3 & S4 & S5 & S6).
  set (id := fst (generateId A)) in *.
  set (A1 := fst (invokeRequest caller action data A)) in *.
  set (m := requestEnvelope A1 id action data true).
  destruct (request_fields A1 id action data true)
    as (M1 & M2 & M3 & M4 & M5 & M6 & M7 & M8). fold m in M1, M2, M3, M4, M5, M6, M7, M8.
  set (B1 := snd (generateId B)).
  set (r := responseEnvelope B1 (fst (generateId B)) (VStr id) true v VUndefined).
  destruct (response_fields B1 (fst (generateId B)) (VStr id) true v VUndefined)
    as (R1 & R2 & R3 & R4 & R5 & R6 & R7 & R8). fold r in R1, R2, R3, R4, R5, R6, R7, R8.
  exists A1, m, B1, r.
  exists (deletePending (VStr id) (clearTimeout (nextTimer (host A)) A1)).
  assert (Tact : truthy (getField "action" m) = true).
  { rewrite M5. cbn. destruct (action =? "") eqn:E; [|reflexivity].
    apply String.eqb_eq in E. contradiction. }
  assert (Gt : strictEqStr (getField "type" m) (messageType B) = true).
  { rewrite M2, S2, Ht. unfold strictEqStr. apply String.eqb_refl. }
  assert (Ga : isAllowedValue (getField "communicationId" m) B = true).
  { rewrite M3, S3. exact HaB. }
  assert (Gh : handlerFor (getField "action" m) B = Some h).
  { rewrite M5. exact Hh. }
  assert (Gn : truthy (getField "needResponse" m) = true) by (rewrite M7; reflexivity).
  assert (Gr : truthy (getField "requestId" m) = false) by (rewrite M8; reflexivity).
  assert (Ei : invokeRequest caller action data A = (A1, [Post m])).
  { destruct (invokeRequest caller action data A) as [A1' e] eqn:E.
    cbn [fst snd] in *. subst A1. rewrite S1. reflexivity. }
  split; [exact Ei|].
  split.
  { intros RA. cbn [step]. unfold invoke. rewrite RA. exact Ei. }
  split.
  { intros rest. cbn [resumeInvokes w_caller w_action w_data]. rewrite Ei.
    destruct (resumeInvokes rest A1) as [A3 e3]. reflexivity. }
  split; [exact M5|]. split; [exact M6|].
  split.
  { unfold answered. destruct (h (dateNow B) data) as [v'|t|[v'|t]] eqn:Eh;
      cbn in Hv; try discriminate; inversion Hv; subst v'.
    - left. rewrite <- M6 in Eh.
      rewrite (deliver_request_sync B m h v LB M1 Gt Ga Tact Gr Gh Eh Gn).
      rewrite M4. reflexivity.
    - right. rewrite <- M6 in Eh.
      destruct (deliver_request_async B m h v LB M1 Gt Ga Tact Gr Gh Eh Gn)
        as [b0 [D1 D2]].
      exists b0. split; [exact D1|]. rewrite D2, M4. reflexivity. }
  split; [rewrite R4, M4; reflexivity|].
  split; [exact R5|]. split; [exact R6|].
  assert (Hs : step A1 (MessageEvent r) =
               fire (InvokeCall caller) (Resolved (getField "data" r))
                 (deletePending (getField "requestId" r)
                    (clearTimeout (nextTimer (host A)) A1))).
  { apply (deliver_response_ok A1 r (mkPending (InvokeCall caller) (nextTimer (host A)))).
    - rewrite S5. exact LA.
    - exact R1.
    - rewrite R2. unfold strictEqStr. rewrite S2, Ht.
      assert (EB : messageType B1 = messageType B)
        by (subst B1; destruct B as [? ? ? ? ? ? ? ? ? ? []]; reflexivity).
      rewrite EB. apply String.eqb_refl.
    - rewrite R3.
      assert (EB : communicationId B1 = communicationId B)
        by (subst B1; destruct B as [? ? ? ? ? ? ? ? ? ? []]; reflexivity).
      rewrite EB. unfold isAllowedValue. rewrite S4. exact HaA.
    - rewrite R8. reflexivity.
    - rewrite R4. apply generateId_truthy.
    - rewrite R4. exact S6.
    - rewrite R5. reflexivity. }
  split.
  { rewrite Hs, R4, R6. reflexivity. }
  rewrite R4. unfold deletePending, pendingFor.
  change (pendingRequests (set_pendingRequests ?x ?y)) with x.
  apply map_get_delete_same.
Qed.

(** ** The properties on the sample bridges *)

(** Two peers that allow-list each other: the call comes back with the
    payload the handler returned. *)
Lemma echo_between_allow_listed_peers :
  settlements
    (observed (pump 8 (act 0 (Invoke 7 "echo" payload)
                         (mkWorld [peerA; peerB] [] []))))
  = [(7, Resolved payload)].
Proof. vm_compute. reflexivity. Qed.

(** The same two peers with default options: peer A, constructed first,
    hears its own request, has no handler for it and posts the
    missing-handler failure, which reaches A before B's answer does. *)
Lemma echo_with_default_options_is_answered_by_the_caller :
  settlements
    (observed (pump 10 (act 0 (Invoke 7 "echo" payload)
                          (mkWorld [defaultA; defaultB] [] []))))
  = [(7, Rejected (mkError "未找到处理器: echo"))].
Proof. vm_compute. reflexivity. Qed.

(** On the channel of two allow-listed peers a call of the empty action is
    never dispatched to the handler registered under that name: nothing
    answers it and it ends with the request timeout. *)
Lemma empty_action_call_times_out :
  let w := pump 8 (act 0 (Invoke 7 "" payload)
                     (mkWorld [peerA; peerB_unnamed] [] [])) in
  map_get "" (messageHandlers peerB_unnamed) = Some echo /\
  channel w = [] /\
  settlements (observed w) = [] /\
  settlements (observed (act 0 (TimerFires 2) w))
    = [(7, Rejected (mkError "请求超时: "))].
Proof. vm_compute. repeat split. Qed.

(** [destroy] called while a handshake attempt is in flight rejects the
    attempt; the [catch] block of [attemptHandshake] then runs and, with
    attempts left, arms a retry, and when that timer fires the destroyed
    bridge posts a new probe. *)
Lemma destroy_during_an_attempt_leaves_a_retry_armed :
  let b := fst (step probing Destroy) in
  tornDown (fst (destroy probing)) /\
  handshakeRetryInterval b = Some 2 /\
  map callback (timers (host b)) = [HandshakeRetry] /\
  length (handshakeRequests (snd (step b (TimerFires 2)))) = 1.
Proof. vm_compute. repeat split. Qed.

Lemma reachable_run evs : forall b, reachable b -> reachable (fst (run b evs)).
Proof.
  induction evs as [|ev evs IH]; intros b R; cbn [run].
  - exact R.
  - pose proof (reachable_step b ev R) as R1.
    destruct (step b ev) as [b1 e1]. cbn [fst] in R1.
    specialize (IH b1 R1). destruct (run b1 evs) as [b2 e2]. exact IH.
Qed.


Lemma single_handshake_sequence_witness :
  reachable peerA /\
  handshakesInFlight peerA <= 1 /\
  exists m,
    snd (run peerA (map invokeEvent
                      [mkWaiter 1 "echo" payload; mkWaiter 2 "echo" VNull;
                       mkWaiter 3 "sum" payload])) = [Post m] /\
    isHandshakeRequest m = true.
Proof.
  assert (R : reachable peerA) by apply reachable_new.
  split; [exact R|].
  destruct (single_handshake_sequence peerA R) as (H1 & _ & _ & H4 & _).
  split; [exact H1|].
  destruct (H4 (mkWaiter 1 "echo" payload)
              [mkWaiter 2 "echo" VNull; mkWaiter 3 "sum" payload]
              eq_refl eq_refl) as (m & Hm1 & Hm2 & _).
  exists m. split; assumption.
Defined.

Lemma own_broadcast_completes_handshake_witness :
  Opt.orElse (Opt.allowedIds Opt.none) [] = [] /\
  exists b2,
    peers (pump 2 (act 0 (Invoke 7 "echo" payload)
                     (mkWorld [createBridge "solo" Opt.none
                                 (freshHost 1000 randomA)] [] [])))
    = [b2] /\
    isReady b2 = true.
Proof.
  split; [reflexivity|].
  destruct (own_broadcast_completes_handshake "solo" Opt.none 1000 randomA
              7 "echo" payload (or_introl eq_refl))
    as (_ & _ & _ & b2 & H1 & H2 & _).
  exists b2. split; assumption.
Defined.

(** * Further properties of the bridge *)

(** ** Fire-and-forget messages *)

(** X1 (send): [send] posts exactly one request envelope, with [needResponse] false,
    and nothing else happens: no pending entry, no timer, no wait for
    readiness and no handshake, whatever the state of the bridge. *)
Theorem send_is_fire_and_forget :
  forall (action : string) (data : value) (b : Bridge),
    exists m,
      step b (Send action data) = (fst (send action data b), [Post m]) /\
      getField "type" m = VStr (messageType b) /\
      getField "communicationId" m = VStr (communicationId b) /\
      getField "action" m = VStr action /\
      getField "data" m = data /\
      getField "needResponse" m = VBool false /\
      getField "requestId" m = VUndefined /\
      truthy (getField "id" m) = true /\
      sameCore b (fst (send action data b)) /\
      handshakesInFlight (fst (send action data b)) = handshakesInFlight b.
Proof.
  intros action data b.
  exists (requestEnvelope (fst (send action data b)) (fst (generateId b))
            action data false).
  split; [reflexivity|].
  repeat (split; [reflexivity|]).
  split; [apply generateId_truthy|].
  split; [|reflexivity].
  open_bridge b. repeat split.
Qed.

(** X2 (handleRequestMessage): a request that does not ask for a
    response never makes the receiver
    post anything, at once or when the promise of its handler settles,
    whether the handler is missing, returns or fails; the tables of the
    receiver are untouched. *)
Theorem request_without_response_is_never_answered :
  forall (msg : value) (b : Bridge),
    truthy (getField "needResponse" msg) = false ->
    posted (snd (handleRequestMessage msg b)) = [] /\
    settlements (snd (handleRequestMessage msg b)) = [] /\
    sameCore b (fst (handleRequestMessage msg b)) /\
    (forall s,
       In s (suspended (host (fst (handleRequestMessage msg b)))) ->
       In s (suspended (host b)) \/
       truthy (s_needResponse s) = false) /\
    (forall s b1,
       truthy (s_needResponse s) = false ->
       posted (snd (resumeRequest s b1)) = [] /\
       fst (resumeRequest s b1) = b1).
Proof.
  intros msg b Hn.
  split; [|split; [apply handleRequestMessage_quiet
                  |split; [apply handleRequestMessage_core|split]]].
  - unfold handleRequestMessage. rewrite Hn.
    destruct (handlerFor _ b) as [h|]; [|reflexivity].
    destruct (h _ _) as [v|t|l]; [| |reflexivity].
    + unfold handleRequest_done. rewrite Hn. reflexivity.
    + unfold handleRequest_catch. rewrite Hn. reflexivity.
  - intros s. unfold handleRequestMessage. rewrite Hn.
    destruct (handlerFor _ b) as [h|]; [|left; assumption].
    destruct (h _ _) as [v|t|l].
    + unfold handleRequest_done. rewrite Hn. left; assumption.
    + unfold handleRequest_catch. rewrite Hn. left; assumption.
    + cbn [fst]. destruct b as [? ? ? ? ? ? ? ? ? ? []]. cbn.
      intros Hin. apply in_app_iff in Hin. destruct Hin as [Hin|[Hin|[]]].
      * left; exact Hin.
      * right. subst s. exact Hn.
  - intros s b1 Hs. unfold resumeRequest.
    destruct (s_later s) as [v|t].
    + unfold handleRequest_done. rewrite Hs. split; reflexivity.
    + unfold handleRequest_catch. rewrite Hs. split; reflexivity.
Qed.

(** ** Handlers that fail *)

Lemma throwing_handler msg b h t :
  handlerFor (getField "action" msg) b = Some h ->
  h (dateNow b) (getField "data" msg) = Throws t ->
  handleRequestMessage msg b =
    if truthy (getField "needResponse" msg)
    then (snd (generateId b),
          [handlerLog (getField "action" msg) t;
           Post (responseEnvelope (snd (generateId b)) (fst (generateId b))
                   (getField "id" msg) false VUndefined
                   (VStr (errorMessageOf t)))])
    else (b, [handlerLog (getField "action" msg) t]).
Proof.
  intros Hh Ht. unfold handleRequestMessage. rewrite Hh, Ht.
  unfold handleRequest_catch. destruct (truthy _); reflexivity.
Qed.

(** X3 (handleRequestMessage, sendResponse): when the handler of a
    request throws, or returns a promise that
    rejects, the failure is logged with the action and, if a response was
    asked for, exactly one failure response is posted: correlated by the
    request's [id], without data, its [error] the message of the thrown
    [Error] or the string form of any other thrown value.  Without
    [needResponse] the failure is only logged. *)
Theorem handler_failure_is_reported :
  forall (msg : value) (b : Bridge) (h : Handler) (t : thrown),
    handlerFor (getField "action" msg) b = Some h ->
    let log := handlerLog (getField "action" msg) t in
    let reply (b0 : Bridge) :=
      responseEnvelope (snd (generateId b0)) (fst (generateId b0))
        (getField "id" msg) false VUndefined (VStr (errorMessageOf t)) in
    (h (dateNow b) (getField "data" msg) = Throws t ->
     handleRequestMessage msg b =
       if truthy (getField "needResponse" msg)
       then (snd (generateId b), [log; Post (reply b)])
       else (b, [log])) /\
    (h (dateNow b) (getField "data" msg) = ReturnsPromise (inr t) ->
     exists b0,
       handleRequestMessage msg b = (b0, []) /\
       nth_error (suspended (host b0)) (length (suspended (host b)))
         = Some (mkSuspended (getField "action" msg)
                   (getField "needResponse" msg) (getField "id" msg) (inr t)) /\
       let b1 := set_host (set_suspended (suspended (host b)) (host b)) b in
       step b0 (PromiseSettles (length (suspended (host b)))) =
         if truthy (getField "needResponse" msg)
         then (snd (generateId b1), [log; Post (reply b1)])
         else (b1, [log])) /\
    getField "requestId" (reply b) = getField "id" msg /\
    getField "success" (reply b) = VBool false /\
    getField "data" (reply b) = VUndefined /\
    getField "error" (reply b) = VStr (errorMessageOf t).
Proof.
  intros msg b h t Hh log reply.
  split; [|split; [|repeat split]].
  - intros Ht. apply (throwing_handler msg b h t Hh Ht).
  - intros Ht. eexists. split.
    { unfold handleRequestMessage. rewrite Hh, Ht. reflexivity. }
    split.
    { destruct b as [cid mt al mh pr rdy rp hri ha opts [clk rnd dr tms nt lst sus]].
      cbn. apply nth_error_last. }
    cbv zeta. cbn [step].
    destruct b as [cid mt al mh pr rdy rp hri ha opts [clk rnd dr tms nt lst sus]].
    cbn [host suspended set_host set_suspended fst].
    rewrite nth_error_last, removeNth_last.
    unfold resumeRequest, handleRequest_catch.
    cbn [s_later s_needResponse s_id s_action].
    destruct (truthy _); reflexivity.
Qed.

(** X4 (handleRequestMessage, handleResponseMessage): the failure of a
    handler reaches the caller as the rejection of its
    [invoke], with the handler's error message; a failure whose message is
    the empty string arrives as the fixed unknown-error text, because the
    receiving side tests [error] for truthiness. *)
Theorem handler_failure_reaches_the_caller :
  forall (msg : value) (b : Bridge) (h : Handler) (t : thrown)
         (a : Bridge) (pending : Pending) (caller : nat),
    handlerFor (getField "action" msg) b = Some h ->
    h (dateNow b) (getField "data" msg) = Throws t ->
    truthy (getField "needResponse" msg) = true ->
    pendingFor (getField "id" msg) a = Some pending ->
    callbacks pending = InvokeCall caller ->
    exists r,
      posted (snd (handleRequestMessage msg b)) = [r] /\
      snd (handleResponseMessage r a) =
        [Settle caller
           (Rejected (mkError (if errorMessageOf t =? "" then "未知错误"
                               else errorMessageOf t)))].
Proof.
  intros msg b h t a pending caller Hh Ht Hn Hp Hc.
  pose proof (throwing_handler msg b h t Hh Ht) as H1. rewrite Hn in H1.
  eexists. split.
  - rewrite H1. reflexivity.
  - unfold handleResponseMessage.
    change (getField "requestId" (responseEnvelope ?b0 ?i ?rid ?s ?d ?e)) with rid.
    change (getField "success" (responseEnvelope ?b0 ?i ?rid ?s ?d ?e))
      with (VBool s).
    change (getField "error" (responseEnvelope ?b0 ?i ?rid ?s ?d ?e)) with e.
    rewrite Hp, Hc.
    cbn [truthy fire snd toString]. destruct (errorMessageOf t =? ""); reflexivity.
Qed.

(** ** The handler registry *)

Lemma map_get_set_other {V} k k' (v : V) m :
  k' <> k -> map_get k' (map_set k v m) = map_get k' m.
Proof.
  intros Hne. induction m as [|[k0 v0] m IH]; cbn.
  - destruct (k =? k') eqn:E; [|reflexivity].
    apply String.eqb_eq in E. congruence.
  - destruct (k0 =? k) eqn:E; cbn.
    + apply String.eqb_eq in E. subst k0.
      destruct (k =? k') eqn:E2; [|reflexivity].
      apply String.eqb_eq in E2. congruence.
    + destruct (k0 =? k'); [reflexivity | exact IH].
Qed.

Lemma map_get_delete_other {V} k k' (m : list (string * V)) :
  k' <> k -> map_get k' (map_delete k m) = map_get k' m.
Proof.
  intros Hne. induction m as [|[k0 v0] m IH]; cbn; [reflexivity|].
  destruct (k0 =? k) eqn:E; cbn.
  - apply String.eqb_eq in E. subst k0.
    destruct (k =? k') eqn:E2; [|exact IH].
    apply String.eqb_eq in E2. congruence.
  - destruct (k0 =? k'); [reflexivity | exact IH].
Qed.

(** X5 (handle): [handle] registers the handler under its action and
    leaves every other
    action alone; registering again replaces the handler, so an action has
    one handler at most; the function [handle] returns removes whatever is
    registered under the action when it is called, a later registration
    included, and nothing else. *)
Theorem handler_registry :
  forall (action : string) (h : Handler) (b : Bridge),
    handlerFor (VStr action) (handle action h b) = Some h /\
    (forall h2,
       handlerFor (VStr action) (handle action h2 (handle action h b)) = Some h2) /\
    handlerFor (VStr action) (unhandle action b) = None /\
    (forall h2,
       handlerFor (VStr action)
         (unhandle action (handle action h2 (handle action h b))) = None) /\
    (forall other,
       other <> action ->
       handlerFor (VStr other) (handle action h b) = handlerFor (VStr other) b /\
       handlerFor (VStr other) (unhandle action b) = handlerFor (VStr other) b) /\
    (NoDup (map_keys (messageHandlers b)) ->
     NoDup (map_keys (messageHandlers (handle action h b))) /\
     NoDup (map_keys (messageHandlers (unhandle action b)))) /\
    sameCore b (handle action h b) /\
    sameCore b (unhandle action b).
Proof.
  intros action h b.
  split; [apply map_get_set_same|].
  split; [intros h2; apply map_get_set_same|].
  split; [apply map_get_delete_same|].
  split; [intros h2; apply map_get_delete_same|].
  split.
  { intros other Hne. split.
    - apply map_get_set_other; exact Hne.
    - apply map_get_delete_other; exact Hne. }
  split.
  { intros N. split; [apply NoDup_map_set | apply NoDup_map_delete]; exact N. }
  split; open_bridge b; repeat split.
Qed.

(** ** The allow-list *)

Lemma set_has_app x s1 s2 : set_has x (s1 ++ s2) = set_has x s1 || set_has x s2.
Proof. unfold set_has. apply existsb_app. Qed.

Lemma set_has_delete x y s :
  set_has x (set_delete y s) = set_has x s && negb (y =? x).
Proof.
  apply eq_true_iff_eq.
  rewrite andb_true_iff, negb_true_iff, !set_has_In.
  unfold set_delete. rewrite filter_In, negb_true_iff. split.
  - intros [Hin Hne]. split; [exact Hin|]. rewrite String.eqb_sym. exact Hne.
  - intros [Hin Hne]. split; [exact Hin|]. rewrite String.eqb_sym. exact Hne.
Qed.

(** X6 (addAllowedId, removeAllowedId, isAllowedId): an added identifier
    is allowed, and once the list is not empty only
    its members are: adding the first identifier to an empty list, which
    admitted everyone, shuts every other sender out.  A removed identifier
    is refused as long as the list keeps another member; removing the last
    member empties the list, and the bridge admits every sender again, the
    removed one included.  Adding twice is adding once. *)
Theorem allow_list_updates :
  forall (id : string) (b : Bridge),
    isAllowedId id (addAllowedId id b) = true /\
    (forall other,
       other <> id ->
       isAllowedId other (addAllowedId id b) = set_has other (allowedIds b)) /\
    (allowedIds b = [] ->
     forall other,
       other <> id ->
       isAllowedId other b = true /\ isAllowedId other (addAllowedId id b) = false) /\
    (allowedIds (removeAllowedId id b) <> [] ->
     isAllowedId id (removeAllowedId id b) = false) /\
    (forall other,
       other <> id ->
       allowedIds (removeAllowedId id b) <> [] ->
       isAllowedId other (removeAllowedId id b) = set_has other (allowedIds b)) /\
    (allowedIds (removeAllowedId id b) = [] ->
     forall any, isAllowedId any (removeAllowedId id b) = true) /\
    addAllowedId id (addAllowedId id b) = addAllowedId id b /\
    (NoDup (allowedIds b) ->
     NoDup (allowedIds (addAllowedId id b)) /\
     NoDup (allowedIds (removeAllowedId id b))).
Proof.
  intros id b.
  assert (Ea : allowedIds (addAllowedId id b) = set_add id (allowedIds b))
    by reflexivity.
  assert (Er : allowedIds (removeAllowedId id b) = set_delete id (allowedIds b))
    by reflexivity.
  unfold isAllowedId. rewrite Ea, Er.
  set (al := allowedIds b).
  assert (Hadd : forall other, other <> id ->
            (length (set_add id al) =? 0)%nat || set_has other (set_add id al)
            = set_has other al).
  { intros other Hne. unfold set_add.
    destruct (set_has id al) eqn:E.
    - destruct al as [|x l]; [discriminate|]. reflexivity.
    - rewrite set_has_app, length_app. cbn [length].
      replace (length al + 1 =? 0)%nat with false
        by (symmetry; apply Nat.eqb_neq; lia).
      unfold set_has at 2. cbn [existsb orb].
      destruct (id =? other) eqn:E2.
      + apply String.eqb_eq in E2. congruence.
      + rewrite orb_false_r. reflexivity. }
  split.
  { apply orb_true_iff. right. apply set_has_In, set_add_In. left; reflexivity. }
  split; [exact Hadd|].
  split.
  { intros He other Hne. rewrite (Hadd other Hne), He. split; reflexivity. }
  split.
  { intros Hne. rewrite set_has_delete, String.eqb_refl, andb_false_r.
    destruct (set_delete id al); [congruence | reflexivity]. }
  split.
  { intros other Hne Hl. rewrite set_has_delete.
    destruct (set_delete id al); [congruence|]. cbn [length Nat.eqb orb].
    destruct (id =? other) eqn:E2.
    - apply String.eqb_eq in E2. congruence.
    - apply andb_true_r. }
  split.
  { intros He any. rewrite He. reflexivity. }
  split.
  { unfold addAllowedId.
    change (allowedIds (set_allowedIds ?x ?y)) with x.
    destruct b as [cid mt al0 mh pr rdy rp hri ha opts hst].
    unfold set_allowedIds. cbn [communicationId messageType allowedIds
      messageHandlers pendingRequests isReady readyPromise
      handshakeRetryInterval handshakeAttempts options host].
    unfold set_add at 1.
    replace (set_has id (set_add id al0)) with true; [reflexivity|].
    symmetry. apply set_has_In, set_add_In. left; reflexivity. }
  intros N. split.
  - unfold set_add. destruct (set_has id al) eqn:E; [exact N|].
    apply NoDup_app; [exact N | constructor; [intros [] | constructor] |].
    intros x Hx [Hy|[]]. subst x. apply set_has_In in Hx. congruence.
  - apply NoDup_filter. exact N.
Qed.

(** ** Responses in any order *)

Lemma filter_swap {A} (f g : A -> bool) (l : list A) :
  filter f (filter g l) = filter g (filter f l).
Proof.
  induction l as [|x l IH]; cbn; [reflexivity|].
  destruct (f x) eqn:Ef, (g x) eqn:Eg; cbn; rewrite ?Ef, ?Eg, IH; reflexivity.
Qed.

Lemma answered_state_swap id1 id2 t1 t2 b :
  deletePending (VStr id2) (clearTimeout t2
    (deletePending (VStr id1) (clearTimeout t1 b))) =
  deletePending (VStr id1) (clearTimeout t1
    (deletePending (VStr id2) (clearTimeout t2 b))).
Proof.
  destruct b as [cid mt al mh pr rdy rp hri ha opts [clk rnd dr tms nt lst sus]].
  unfold deletePending, clearTimeout, set_pendingRequests, set_host, set_timers.
  cbn [communicationId messageType allowedIds messageHandlers pendingRequests
       isReady readyPromise handshakeRetryInterval handshakeAttempts options
       host now mathRandom draws timers nextTimer listening suspended].
  unfold map_delete.
  rewrite (filter_swap _ _ pr), (filter_swap _ _ tms). reflexivity.
Qed.

(** X7 (handleResponseMessage): responses to two pending calls may arrive
    in either order: each
    settles its own caller with its own outcome, the other entry is still
    pending in between, and both orders end in the same state. *)
Theorem responses_commute :
  forall (r1 r2 : value) (b : Bridge) (id1 id2 : string) (p1 p2 : Pending)
         (c1 c2 : nat),
    getField "requestId" r1 = VStr id1 ->
    getField "requestId" r2 = VStr id2 ->
    id1 <> id2 ->
    map_get id1 (pendingRequests b) = Some p1 ->
    map_get id2 (pendingRequests b) = Some p2 ->
    callbacks p1 = InvokeCall c1 ->
    callbacks p2 = InvokeCall c2 ->
    exists b1 b2 b12,
      handleResponseMessage r1 b = (b1, [Settle c1 (responseOutcome r1)]) /\
      handleResponseMessage r2 b = (b2, [Settle c2 (responseOutcome r2)]) /\
      pendingFor (VStr id2) b1 = Some p2 /\
      pendingFor (VStr id1) b2 = Some p1 /\
      handleResponseMessage r2 b1 = (b12, [Settle c2 (responseOutcome r2)]) /\
      handleResponseMessage r1 b2 = (b12, [Settle c1 (responseOutcome r1)]) /\
      pendingFor (VStr id1) b12 = None /\
      pendingFor (VStr id2) b12 = None.
Proof.
  intros r1 r2 b id1 id2 p1 p2 c1 c2 E1 E2 Hne G1 G2 C1 C2.
  assert (Hone : forall r id p c s,
            getField "requestId" r = VStr id ->
            map_get id (pendingRequests s) = Some p ->
            callbacks p = InvokeCall c ->
            handleResponseMessage r s =
              (deletePending (VStr id) (clearTimeout (timeout p) s),
               [Settle c (responseOutcome r)])).
  { intros r id p c s E G C. unfold handleResponseMessage, responseOutcome.
    rewrite E. cbn [pendingFor]. rewrite G, C.
    destruct (truthy (getField "success" r)); reflexivity. }
  assert (Hkeep : forall id id' t s,
            id' <> id ->
            map_get id' (pendingRequests
                           (deletePending (VStr id) (clearTimeout t s)))
            = map_get id' (pendingRequests s)).
  { intros id id' t s H. unfold deletePending.
    change (pendingRequests (set_pendingRequests ?x ?y)) with x.
    rewrite clearTimeout_pending. apply map_get_delete_other. exact H. }
  assert (Hgone : forall id t s,
            map_get id (pendingRequests
                          (deletePending (VStr id) (clearTimeout t s))) = None).
  { intros id t s. unfold deletePending.
    change (pendingRequests (set_pendingRequests ?x ?y)) with x.
    apply map_get_delete_same. }
  exists (deletePending (VStr id1) (clearTimeout (timeout p1) b)).
  exists (deletePending (VStr id2) (clearTimeout (timeout p2) b)).
  exists (deletePending (VStr id2) (clearTimeout (timeout p2)
            (deletePending (VStr id1) (clearTimeout (timeout p1) b)))).
  split; [apply Hone; assumption|].
  split; [apply Hone; assumption|].
  split; [cbn [pendingFor]; rewrite Hkeep by congruence; exact G2|].
  split; [cbn [pendingFor]; rewrite Hkeep by congruence; exact G1|].
  split.
  { apply Hone; try assumption. rewrite Hkeep by congruence. exact G2. }
  split.
  { rewrite answered_state_swap. apply Hone; try assumption.
    rewrite Hkeep by congruence. exact G1. }
  split.
  - cbn [pendingFor]. rewrite Hkeep by congruence. apply Hgone.
  - cbn [pendingFor]. apply Hgone.
Qed.

(** ** What the methods never write *)

Lemma static_refl b : static b b.
Proof. repeat split. intros H; exact H. Qed.

Lemma static_trans b1 b2 b3 : static b1 b2 -> static b2 b3 -> static b1 b3.
Proof.
  intros (A1 & A2 & A3 & A4 & A5 & A6 & A7 & A8)
         (B1 & B2 & B3 & B4 & B5 & B6 & B7 & B8).
  repeat split; try congruence. intros H. apply B8, A8, H.
Qed.

Ltac static_by_fields :=
  unfold static; cbn; repeat split; intros; try assumption; try reflexivity.

Lemma sameCore_static_host b h :
  static b (set_host h b) <->
  (mathRandom h = mathRandom (host b) /\ listening h = listening (host b)).
Proof.
  destruct b as [cid mt al mh pr rdy rp hri ha opts hst]. unfold static. cbn.
  split.
  - intros (_ & _ & _ & A & _ & _ & B & _). split; assumption.
  - intros [A B]. repeat split; try assumption. intros H; exact H.
Qed.

Lemma generateId_static b : static b (snd (generateId b)).
Proof. open_bridge b. static_by_fields. Qed.

Lemma clearTimeout_static h b : static b (clearTimeout h b).
Proof. open_bridge b. static_by_fields. Qed.

Lemma deletePending_static r b : static b (deletePending r b).
Proof. destruct r; open_bridge b; static_by_fields. Qed.

Lemma stopHandshakeRetry_static b : static b (stopHandshakeRetry b).
Proof. open_bridge b. destruct hri; static_by_fields. Qed.

Lemma invokeRequest_static c a d b : static b (fst (invokeRequest c a d b)).
Proof. open_bridge b. static_by_fields. Qed.

Lemma resumeInvokes_static ws : forall b, static b (fst (resumeInvokes ws b)).
Proof.
  induction ws as [|w ws IH]; intros b; cbn [resumeInvokes].
  - apply static_refl.
  - pose proof (invokeRequest_static (w_caller w) (w_action w) (w_data w) b) as S1.
    destruct (invokeRequest _ _ _ b) as [b1 e1]. cbn [fst] in S1.
    specialize (IH b1). destruct (resumeInvokes ws b1) as [b2 e2].
    cbn [fst] in *. eapply static_trans; eassumption.
Qed.

Lemma attemptHandshake_static b : static b (fst (attemptHandshake b)).
Proof. open_bridge b. static_by_fields. Qed.

Lemma attemptHandshake_then_static b : static b (fst (attemptHandshake_then b)).
Proof.
  unfold attemptHandshake_then, resolveReady.
  assert (S1 : static b (stopHandshakeRetry (set_isReady true b))).
  { eapply static_trans; [|apply stopHandshakeRetry_static].
    open_bridge b. static_by_fields. }
  destruct (readyPromise _) as [ws|]; [|exact S1].
  eapply static_trans; [exact S1|].
  eapply static_trans; [|apply resumeInvokes_static].
  destruct (stopHandshakeRetry (set_isReady true b)) as [? ? ? ? ? ? ? ? ? ? []].
  static_by_fields.
Qed.

Lemma attemptHandshake_catch_static e b :
  static b (fst (attemptHandshake_catch e b)).
Proof.
  open_bridge b. unfold attemptHandshake_catch. cbn.
  destruct (Opt.ge (ha + 1) (Opt.maxHandshakeAttempts opts)).
  - destruct rp, hri; static_by_fields.
  - static_by_fields.
Qed.

Lemma fire_static cb r b : static b (fst (fire cb r b)).
Proof.
  destruct cb as [c|]; [apply static_refl|]. destruct r as [v|e]; cbn [fire].
  - apply attemptHandshake_then_static.
  - apply attemptHandshake_catch_static.
Qed.

Lemma fireAll_static jobs : forall b, static b (fst (fireAll jobs b)).
Proof.
  induction jobs as [|[cb r] jobs IH]; intros b; cbn [fireAll].
  - apply static_refl.
  - pose proof (fire_static cb r b) as S1.
    destruct (fire cb r b) as [b1 e1]. cbn [fst] in S1.
    specialize (IH b1). destruct (fireAll jobs b1) as [b2 e2].
    cbn [fst] in *. eapply static_trans; eassumption.
Qed.

Lemma sendResponse_static rid s d e b : static b (fst (sendResponse rid s d e b)).
Proof. open_bridge b. static_by_fields. Qed.

Lemma handleRequest_done_static n i r b :
  static b (fst (handleRequest_done n i r b)).
Proof.
  unfold handleRequest_done. destruct (truthy n);
    [apply sendResponse_static | apply static_refl].
Qed.

Lemma handleRequest_catch_static a n i t b :
  static b (fst (handleRequest_catch a n i t b)).
Proof.
  unfold handleRequest_catch. destruct (truthy n); [|apply static_refl].
  pose proof (sendResponse_static i false VUndefined
                (VStr match t with ThrowError e => message e
                               | ThrowValue v => toString v end) b) as H.
  destruct (sendResponse _ _ _ _ b); exact H.
Qed.

Lemma handleRequestMessage_static msg b :
  static b (fst (handleRequestMessage msg b)).
Proof.
  unfold handleRequestMessage.
  destruct (handlerFor _ b) as [h|].
  - destruct (h _ _).
    + apply handleRequest_done_static.
    + apply handleRequest_catch_static.
    + open_bridge b. static_by_fields.
  - destruct (truthy _); [apply sendResponse_static | apply static_refl].
Qed.

Lemma resumeRequest_static s b : static b (fst (resumeRequest s b)).
Proof.
  unfold resumeRequest. destruct (s_later s);
    [apply handleRequest_done_static | apply handleRequest_catch_static].
Qed.

Lemma handleResponseMessage_static msg b :
  static b (fst (handleResponseMessage msg b)).
Proof.
  unfold handleResponseMessage.
  destruct (pendingFor _ b) as [p|]; [|apply static_refl].
  assert (S1 : static b (deletePending (getField "requestId" msg)
                           (clearTimeout (timeout p) b))).
  { eapply static_trans; [apply clearTimeout_static | apply deletePending_static]. }
  destruct (truthy _); (eapply static_trans; [exact S1 | apply fire_static]).
Qed.

Lemma handleMessage_static msg b : static b (fst (handleMessage msg b)).
Proof.
  unfold handleMessage.
  destruct (negb (isObject msg) || _); [apply static_refl|].
  destruct (negb (isAllowedValue _ b)); [apply static_refl|].
  assert (S1 : static b (fst (if truthy (getField "action" msg)
                              then handleRequestMessage msg b else (b, [])))).
  { destruct (truthy (getField "action" msg));
      [apply handleRequestMessage_static | apply static_refl]. }
  destruct (if truthy (getField "action" msg) then _ else _) as [b1 e1].
  cbn [fst] in S1.
  assert (S2 : static b1 (fst (if truthy (getField "requestId" msg)
                               then handleResponseMessage msg b1 else (b1, [])))).
  { destruct (truthy (getField "requestId" msg));
      [apply handleResponseMessage_static | apply static_refl]. }
  destruct (if truthy (getField "requestId" msg) then _ else _) as [b2 e2].
  cbn [fst] in *. eapply static_trans; eassumption.
Qed.

Lemma fold_clearTimeout_static (entries : list (string * Pending)) : forall b,
  static b (fold_left (fun acc kv => clearTimeout (timeout (snd kv)) acc)
              entries b).
Proof.
  induction entries as [|kv entries IH]; intros b; cbn [fold_left].
  - apply static_refl.
  - eapply static_trans; [apply clearTimeout_static | apply IH].
Qed.

(** One turn of the event loop, field by field. *)
Lemma step_fields b ev :
  communicationId (fst (step b ev)) = communicationId b /\
  messageType (fst (step b ev)) = messageType b /\
  options (fst (step b ev)) = options b /\
  mathRandom (host (fst (step b ev))) = mathRandom (host b) /\
  (writesHandlers ev = false ->
   messageHandlers (fst (step b ev)) = messageHandlers b) /\
  (writesAllowList ev = false ->
   allowedIds (fst (step b ev)) = allowedIds b) /\
  listening (host (fst (step b ev))) =
    (if isDestroy ev then false else listening (host b)) /\
  (isReady b = true -> isReady (fst (step b ev)) = true).
Proof.
  assert (From : forall b', static b b' ->
            communicationId b' = communicationId b /\
            messageType b' = messageType b /\
            options b' = options b /\
            mathRandom (host b') = mathRandom (host b) /\
            (writesHandlers ev = false -> messageHandlers b' = messageHandlers b) /\
            (writesAllowList ev = false -> allowedIds b' = allowedIds b) /\
            listening (host b') = listening (host b) /\
            (isReady b = true -> isReady b' = true)).
  { intros b' (A1 & A2 & A3 & A4 & A5 & A6 & A7 & A8).
    repeat split; intros; auto. }
  destruct ev; cbn [step isDestroy].
  - apply From. unfold invoke. destruct (isReady b) eqn:R.
    + apply invokeRequest_static.
    + destruct (readyPromise b) as [ws|].
      * open_bridge b. static_by_fields.
      * pose proof (attemptHandshake_static b) as S1.
        destruct (attemptHandshake b) as [b1 e1]. cbn [fst] in *.
        eapply static_trans; [exact S1|].
        destruct b1 as [? ? ? ? ? ? ? ? ? ? []]. static_by_fields.
  - apply From. unfold send. pose proof (generateId_static b) as S1.
    destruct (generateId b) as [id b1]. exact S1.
  - open_bridge b. repeat split; intros; try assumption; try reflexivity;
      discriminate.
  - open_bridge b. repeat split; intros; try assumption; try reflexivity;
      discriminate.
  - open_bridge b. repeat split; intros; try assumption; try reflexivity;
      discriminate.
  - open_bridge b. repeat split; intros; try assumption; try reflexivity;
      discriminate.
  - rewrite destroy_spec.
    pose proof (fold_clearTimeout_static (pendingRequests b)
                  (set_messageHandlers [] (stopHandshakeRetry b))) as S1.
    pose proof (stopHandshakeRetry_static b) as S0.
    match goal with
    | |- context [fireAll ?jobs ?s] =>
        pose proof (fireAll_static jobs s) as S2
    end.
    cbn [fst] in *.
    destruct (stopHandshakeRetry b) as [c0 m0 a0 h0 p0 r0 rp0 i0 t0 o0 hs0].
    destruct (fold_left _ _ _) as [c1 m1 a1 h1 p1 r1 rp1 i1 t1 o1 [? ? ? ? ? ? ?]].
    destruct (fst (fireAll _ _)) as [c2 m2 a2 h2 p2 r2 rp2 i2 t2 o2 [? ? ? ? ? ? ?]].
    unfold static in *. cbn in *.
    destruct S0 as (A1 & A2 & A3 & A4 & A5 & A6 & A7 & A8).
    destruct S1 as (B1 & B2 & B3 & B4 & B5 & B6 & B7 & B8).
    destruct S2 as (C1 & C2 & C3 & C4 & C5 & C6 & C7 & C8).
    repeat split; try congruence; try discriminate.
    intros H. auto.
  - apply From. destruct (listening (host b));
      [apply handleMessage_static | apply static_refl].
  - apply From. destruct (findTimer h b) as [t|]; [|apply static_refl].
    assert (S1 : static b
              (set_host (set_now (Z.max (dateNow (clearTimeout h b))
                                    (armedAt t + Opt.honoured (delay t)))
                           (host (clearTimeout h b))) (clearTimeout h b))).
    { open_bridge b. static_by_fields. }
    eapply static_trans; [exact S1|].
    destruct (callback t) as [id a c|id|]; cbn [runTimer fst].
    + apply (deletePending_static (VStr id)).
    + eapply static_trans; [apply (deletePending_static (VStr id))|].
      apply attemptHandshake_catch_static.
    + apply attemptHandshake_static.
  - apply From. destruct (nth_error _ k) as [s|]; [|apply static_refl].
    eapply static_trans; [|apply resumeRequest_static].
    open_bridge b. static_by_fields.
  - apply From. open_bridge b. static_by_fields.
Qed.

(** ** Once ready, always ready *)

Lemma ready_callsOnly b : phase b -> isReady b = true -> callsOnly b.
Proof.
  intros P R.
  destruct P as [R' F1 F2 | R' E1 E2 | id h ms clock ws R' E1 E2 E3
                | h ms clock ws R' E1 E2 E3 E4]; try congruence.
  split; assumption.
Qed.

Lemma callsOnly_sameCore b b' : sameCore b b' -> callsOnly b -> callsOnly b'.
Proof.
  intros (Hp & Ht & _) [F1 F2]. unfold callsOnly. rewrite Hp, Ht.
  split; assumption.
Qed.

Lemma ready_step_attempts b ev :
  isReady b = true -> callsOnly b ->
  handshakeAttempts (fst (step b ev)) = handshakeAttempts b.
Proof.
  intros R C. destruct ev; cbn [step].
  - unfold invoke. rewrite R. open_bridge b. reflexivity.
  - open_bridge b. reflexivity.
  - reflexivity.
  - reflexivity.
  - reflexivity.
  - reflexivity.
  - rewrite destroy_spec. destruct C as [F1 F2].
    rewrite (fireAll_calls _ _ _ F1).
    destruct (fold_clearTimeout_fields (pendingRequests b)
                (set_messageHandlers [] (stopHandshakeRetry b)))
      as (_ & _ & _ & _ & _ & H & _).
    cbn in H. cbn. rewrite H. open_bridge b. destruct hri; reflexivity.
  - destruct (listening (host b)); [|reflexivity].
    unfold handleMessage.
    destruct (negb (isObject data) || _); [reflexivity|].
    destruct (negb (isAllowedValue _ b)); [reflexivity|].
    assert (S1 : sameCore b (fst (if truthy (getField "action" data)
                                  then handleRequestMessage data b else (b, [])))).
    { destruct (truthy (getField "action" data));
        [apply handleRequestMessage_core | apply sameCore_refl]. }
    destruct (if truthy (getField "action" data) then _ else _) as [b1 e1].
    cbn [fst] in S1.
    pose proof (callsOnly_sameCore _ _ S1 C) as C1.
    assert (A1 : handshakeAttempts b1 = handshakeAttempts b) by apply S1.
    destruct (truthy (getField "requestId" data)); [|exact A1].
    unfold handleResponseMessage.
    destruct (pendingFor _ b1) as [p|] eqn:G; [|exact A1].
    destruct (getField "requestId" data) as [| | | |rid|] eqn:Er;
      try discriminate.
    cbn [pendingFor] in G.
    destruct (ready_entry_is_call b1 rid p C1 G) as [c Hc]. rewrite Hc.
    destruct (truthy _); cbn [fire fst]; rewrite <- A1;
      destruct b1 as [? ? ? ? ? ? ? ? ? ? []]; reflexivity.
  - destruct (findTimer h b) as [t|] eqn:Ft; [|reflexivity].
    destruct C as [_ F2]. unfold findTimer in Ft. apply find_In in Ft.
    rewrite Forall_forall in F2. specialize (F2 _ Ft).
    unfold isRequestTimer in F2.
    destruct (callback t) as [id a c| |]; try discriminate.
    cbn [runTimer fst]. open_bridge b. reflexivity.
  - destruct (nth_error _ k) as [s|]; [|reflexivity].
    pose proof (resumeRequest_core s
                  (set_host (set_suspended (removeNth k (suspended (host b)))
                               (host b)) b)) as S1.
    destruct S1 as (_ & _ & _ & _ & _ & _ & H & _). rewrite H.
    open_bridge b. reflexivity.
  - reflexivity.
Qed.

Lemma ready_run evs : forall b,
  phase b -> isReady b = true ->
  phase (fst (run b evs)) /\ isReady (fst (run b evs)) = true /\
  handshakeAttempts (fst (run b evs)) = handshakeAttempts b.
Proof.
  induction evs as [|ev evs IH]; intros b P R; cbn [run].
  - repeat split; assumption.
  - pose proof (phase_step b ev P) as P1.
    pose proof (step_fields b ev) as (_ & _ & _ & _ & _ & _ & _ & R1).
    specialize (R1 R).
    pose proof (ready_step_attempts b ev R (ready_callsOnly b P R)) as A1.
    destruct (step b ev) as [b1 e1]. cbn [fst] in *.
    destruct (IH b1 P1 R1) as (P2 & R2 & A2).
    destruct (run b1 evs) as [b2 e2]. cbn [fst] in *.
    repeat split; [assumption | assumption | congruence].
Qed.

(** X8 (ensureReady, performHandshakeWithRetry, destroy): readiness is
    permanent.  Once a bridge has completed its handshake, no sequence of
    calls, messages, timers or settled promises, [destroy] included, makes
    [getReady] false again; the attempt counter no longer moves, no
    handshake attempt or retry is ever in flight again, and every later
    [invoke] posts its own request in the same turn. *)
Theorem ready_is_permanent :
  forall (b : Bridge) (evs : list Event),
    reachable b ->
    isReady b = true ->
    let b' := fst (run b evs) in
    getReady b' = true /\
    handshakeAttempts b' = handshakeAttempts b /\
    handshakesInFlight b' = 0 /\
    (forall caller action data,
       exists m,
         snd (step b' (Invoke caller action data)) = [Post m] /\
         getField "action" m = VStr action /\
         getField "data" m = data /\
         map_get (fst (generateId b'))
           (pendingRequests (fst (step b' (Invoke caller action data)))) =
         Some (mkPending (InvokeCall caller) (nextTimer (host b')))).
Proof.
  intros b evs Rb R b'.
  destruct (ready_run evs b (reachable_phase b Rb) R) as (P' & R' & A').
  fold b' in P', R', A'.
  split; [exact R'|]. split; [exact A'|]. split.
  - destruct (phase_inFlight b' P') as [Le One].
    destruct (handshakesInFlight b') as [|[|n]]; [reflexivity | | lia].
    destruct (One eq_refl) as [F _]. congruence.
  - intros caller action data. cbn [step]. unfold invoke. rewrite R'.
    exists (requestEnvelope (fst (invokeRequest caller action data b'))
              (fst (generateId b')) action data true).
    split; [reflexivity|]. split; [reflexivity|]. split; [reflexivity|].
    destruct b' as [? ? ? ? ? ? ? ? ? ? []]. cbn.
    apply map_get_set_same.
Qed.

(** ** What only a response can do *)

Lemma fulfilled_app e1 e2 :
  fulfilled (e1 ++ e2) = (fulfilled e1 ++ fulfilled e2)%list.
Proof. unfold fulfilled. apply flat_map_app. Qed.

Lemma fulfilled_rejections (ws : list Waiter) e :
  fulfilled (map (fun w => Settle (w_caller w) (Rejected e)) ws) = [].
Proof. induction ws as [|w ws IH]; cbn; [reflexivity | exact IH]. Qed.

Lemma invokeRequest_quiet c a d b :
  isReady (fst (invokeRequest c a d b)) = isReady b /\
  fulfilled (snd (invokeRequest c a d b)) = [].
Proof. open_bridge b. split; reflexivity. Qed.

Lemma attemptHandshake_quiet b :
  isReady (fst (attemptHandshake b)) = isReady b /\
  fulfilled (snd (attemptHandshake b)) = [].
Proof. open_bridge b. split; reflexivity. Qed.

Lemma attemptHandshake_catch_quiet e b :
  isReady (fst (attemptHandshake_catch e b)) = isReady b /\
  fulfilled (snd (attemptHandshake_catch e b)) = [].
Proof.
  open_bridge b. unfold attemptHandshake_catch. cbn.
  destruct (Opt.ge (ha + 1) (Opt.maxHandshakeAttempts opts)).
  - destruct rp as [ws|], hri; cbn; split; try reflexivity;
      apply fulfilled_rejections.
  - split; reflexivity.
Qed.

Lemma fire_rejected_quiet cb e b :
  isReady (fst (fire cb (Rejected e) b)) = isReady b /\
  fulfilled (snd (fire cb (Rejected e) b)) = [].
Proof.
  destruct cb as [c|]; cbn [fire].
  - split; reflexivity.
  - apply attemptHandshake_catch_quiet.
Qed.

Lemma fireAll_rejected_quiet e (entries : list (string * Pending)) : forall b,
  let jobs := map (fun kv => (callbacks (snd kv), Rejected e)) entries in
  isReady (fst (fireAll jobs b)) = isReady b /\
  fulfilled (snd (fireAll jobs b)) = [].
Proof.
  induction entries as [|kv entries IH]; intros b; cbn [map fireAll].
  - split; reflexivity.
  - destruct (fire_rejected_quiet (callbacks (snd kv)) e b) as [R1 Q1].
    destruct (fire _ _ b) as [b1 e1]. cbn [fst snd] in *.
    destruct (IH b1) as [R2 Q2].
    destruct (fireAll _ b1) as [b2 e2]. cbn [fst snd] in *.
    rewrite fulfilled_app, Q1, Q2. split; [congruence | reflexivity].
Qed.

Lemma settlements_fulfilled effs : settlements effs = [] -> fulfilled effs = [].
Proof.
  induction effs as [|e effs IH]; cbn; [reflexivity|].
  destruct e as [m|c r|s t]; cbn; try exact IH. discriminate.
Qed.

Lemma resumeRequest_quiet s b : settlements (snd (resumeRequest s b)) = [].
Proof.
  unfold resumeRequest. destruct (s_later s).
  - unfold handleRequest_done. destruct (truthy _); reflexivity.
  - unfold handleRequest_catch. destruct (truthy _); reflexivity.
Qed.

(** Every turn other than the delivery of a successful response leaves
    the readiness flag alone and fulfils no promise. *)
Lemma quiet_step b ev :
  carriesSuccess b ev = false ->
  isReady (fst (step b ev)) = isReady b /\ fulfilled (snd (step b ev)) = [].
Proof.
  intros H. destruct ev; cbn [step].
  - unfold invoke. destruct (isReady b) eqn:R.
    + rewrite <- R. apply invokeRequest_quiet.
    + destruct (readyPromise b) as [ws|]; [split; [exact R | reflexivity]|].
      destruct (attemptHandshake_quiet b) as [R1 Q1].
      destruct (attemptHandshake b) as [b1 e1]. cbn [fst snd] in *.
      split; [cbn; congruence | exact Q1].
  - open_bridge b. split; reflexivity.
  - split; reflexivity.
  - split; reflexivity.
  - split; reflexivity.
  - split; reflexivity.
  - rewrite destroy_spec.
    match goal with
    | |- context [fireAll (map _ ?entries) ?s] =>
        destruct (fireAll_rejected_quiet (mkError "连接已断开") entries s)
          as [R1 Q1]
    end.
    cbv zeta in R1, Q1. split; [|exact Q1]. rewrite R1.
    destruct (fold_clearTimeout_fields (pendingRequests b)
                (set_messageHandlers [] (stopHandshakeRetry b)))
      as (Hr & _).
    cbn in Hr. cbn. rewrite Hr. apply stopHandshakeRetry_isReady.
  - cbn [carriesSuccess] in H.
    destruct (listening (host b)); [|split; reflexivity].
    unfold handleMessage.
    destruct (isObject data); [|split; reflexivity].
    destruct (strictEqStr _ _); [|split; reflexivity].
    destruct (isAllowedValue _ b); [|split; reflexivity].
    cbn [negb orb andb] in *.
    pose proof (handleRequestMessage_core data b) as S1.
    pose proof (handleRequestMessage_quiet data b) as Q1.
    assert (S1' : sameCore b (fst (if truthy (getField "action" data)
                                   then handleRequestMessage data b else (b, [])))).
    { destruct (truthy (getField "action" data));
        [exact S1 | apply sameCore_refl]. }
    assert (Q1' : settlements (snd (if truthy (getField "action" data)
                                    then handleRequestMessage data b else (b, [])))
                  = []).
    { destruct (truthy (getField "action" data)); [exact Q1 | reflexivity]. }
    destruct (if truthy (getField "action" data) then _ else _) as [b1 e1].
    cbn [fst snd] in S1', Q1'. apply settlements_fulfilled in Q1'.
    assert (R1 : isReady b1 = isReady b) by apply S1'.
    assert (P1 : pendingRequests b1 = pendingRequests b) by apply S1'.
    destruct (truthy (getField "requestId" data));
      [|cbn [fst snd]; rewrite app_nil_r; split; assumption].
    cbn [andb] in H. unfold handleResponseMessage.
    assert (G : pendingFor (getField "requestId" data) b1 =
                pendingFor (getField "requestId" data) b).
    { unfold pendingFor. rewrite P1. reflexivity. }
    rewrite G.
    destruct (pendingFor (getField "requestId" data) b) as [p|];
      [|cbn [fst snd]; rewrite app_nil_r; split; assumption].
    cbn [andb] in H. rewrite H.
    match goal with
    | |- context [fire ?cb (Rejected ?e) ?s] =>
        destruct (fire_rejected_quiet cb e s) as [R2 Q2];
        destruct (fire cb (Rejected e) s) as [b2 e2]
    end.
    cbn [fst snd] in *. rewrite fulfilled_app, Q1', Q2.
    split; [|reflexivity]. rewrite R2, <- R1.
    destruct (getField "requestId" data); destruct b1 as [? ? ? ? ? ? ? ? ? ? []];
      reflexivity.
  - destruct (findTimer h b) as [t|]; [|split; reflexivity].
    destruct (callback t) as [id a c|id|]; cbn [runTimer].
    + open_bridge b. split; reflexivity.
    + match goal with
      | |- context [attemptHandshake_catch ?e ?s] =>
          destruct (attemptHandshake_catch_quiet e s) as [R1 Q1]
      end.
      split; [|exact Q1]. rewrite R1. open_bridge b. reflexivity.
    + match goal with
      | |- context [attemptHandshake ?s] =>
          destruct (attemptHandshake_quiet s) as [R1 Q1]
      end.
      split; [|exact Q1]. rewrite R1. open_bridge b. reflexivity.
  - destruct (nth_error _ k) as [s|]; [|split; reflexivity].
    split.
    + match goal with
      | |- context [resumeRequest s ?x] =>
          pose proof (resumeRequest_core s x) as S1
      end.
      destruct S1 as (_ & _ & _ & H1 & _). rewrite H1.
      open_bridge b. reflexivity.
    + apply settlements_fulfilled, resumeRequest_quiet.
  - split; reflexivity.
Qed.

Lemma deaf_carries b ev : listening (host b) = false -> carriesSuccess b ev = false.
Proof. intros L. destruct ev; try reflexivity. cbn. rewrite L. reflexivity. Qed.

Lemma deaf_run evs : forall b,
  listening (host b) = false ->
  listening (host (fst (run b evs))) = false /\
  isReady (fst (run b evs)) = isReady b /\
  fulfilled (snd (run b evs)) = [].
Proof.
  induction evs as [|ev evs IH]; intros b L; cbn [run].
  - repeat split; assumption.
  - destruct (quiet_step b ev (deaf_carries b ev L)) as [R1 Q1].
    pose proof (step_fields b ev) as (_ & _ & _ & _ & _ & _ & L1 & _).
    assert (L1' : listening (host (fst (step b ev))) = false).
    { rewrite L1. destruct (isDestroy ev); [reflexivity | exact L]. }
    destruct (step b ev) as [b1 e1]. cbn [fst snd] in *.
    destruct (IH b1 L1') as (L2 & R2 & Q2).
    destruct (run b1 evs) as [b2 e2]. cbn [fst snd] in *.
    rewrite fulfilled_app, Q1, Q2. repeat split; [assumption | congruence].
Qed.

(** X9 (invoke, handleMessage, handleResponseMessage, the timeout closures,
    destroy): a promise returned by [invoke] is fulfilled, and a bridge
    becomes ready, only in a turn that delivers a message which passes the
    gates of the listener, names a pending entry in [requestId] and has a
    truthy [success].  Every other turn - a call of a public method, a
    timer, a settled handler promise, [destroy], any other message -
    fulfils nothing and leaves [getReady] as it was. *)
Theorem only_a_response_fulfils :
  forall (b : Bridge) (ev : Event),
    carriesSuccess b ev = false ->
    getReady (fst (step b ev)) = getReady b /\
    fulfilled (snd (step b ev)) = [].
Proof. intros b ev H. exact (quiet_step b ev H). Qed.

(** X10 (destroy, handleMessage): a destroyed bridge is deaf for good.
    After [destroy], whatever is called or delivered afterwards - handlers
    registered again, new [invoke] calls, responses to them - the listener
    stays detached: every message is dropped without effect, no promise is
    ever fulfilled, and [getReady] keeps the value it had when the bridge
    was destroyed. *)
Theorem destroyed_bridge_is_deaf :
  forall (b : Bridge) (evs : list Event) (m : value),
    let d := fst (step b Destroy) in
    let b' := fst (run d evs) in
    listening (host b') = false /\
    step b' (MessageEvent m) = (b', []) /\
    fulfilled (snd (step b Destroy)) = [] /\
    fulfilled (snd (run d evs)) = [] /\
    getReady b' = getReady b.
Proof.
  intros b evs m d b'.
  assert (Ld : listening (host d) = false).
  { pose proof (step_fields b Destroy) as (_ & _ & _ & _ & _ & _ & L & _).
    exact L. }
  destruct (deaf_run evs d Ld) as (L & R & Q). fold b' in L, R.
  destruct (quiet_step b Destroy eq_refl) as [Rd Qd]. fold d in Rd.
  split; [exact L|]. split; [cbn [step]; rewrite L; reflexivity|].
  split; [exact Qd|]. split; [exact Q|].
  unfold getReady. congruence.
Qed.

(** ** The stamp on every envelope *)

Lemma stamped_static b b' effs :
  static b b' -> Forall (stamped b') effs -> Forall (stamped b) effs.
Proof.
  intros (Hc & Hm & _) F. induction F as [|e effs He F IH]; constructor.
  - destruct e as [m|c r|s t]; cbn in *; [|exact I|exact I].
    rewrite <- Hc, <- Hm. exact He.
  - exact IH.
Qed.

Lemma stamped_seq b b1 e1 e2 :
  static b b1 -> Forall (stamped b) e1 -> Forall (stamped b1) e2 ->
  Forall (stamped b) (e1 ++ e2).
Proof.
  intros S F1 F2. apply Forall_app. split; [exact F1|].
  eapply stamped_static; eassumption.
Qed.

Lemma request_stamped b b1 id action data n :
  static b b1 -> truthy (VStr id) = true ->
  Forall (stamped b) [Post (requestEnvelope b1 id action data n)].
Proof.
  intros (Hc & Hm & _) T. constructor; [|constructor].
  cbn. rewrite Hc, Hm. repeat split. exact T.
Qed.

Lemma response_stamped b b1 id rid s d e :
  static b b1 -> truthy (VStr id) = true ->
  Forall (stamped b) [Post (responseEnvelope b1 id rid s d e)].
Proof.
  intros (Hc & Hm & _) T. constructor; [|constructor].
  cbn. rewrite Hc, Hm. repeat split. exact T.
Qed.

Lemma invokeRequest_stamped c a d b :
  Forall (stamped b) (snd (invokeRequest c a d b)).
Proof.
  apply (request_stamped b (fst (invokeRequest c a d b)) (fst (generateId b))).
  - apply invokeRequest_static.
  - apply generateId_truthy.
Qed.

Lemma attemptHandshake_stamped b :
  Forall (stamped b) (snd (attemptHandshake b)).
Proof.
  apply (request_stamped b (fst (attemptHandshake b)) (fst (generateId b))).
  - apply attemptHandshake_static.
  - apply generateId_truthy.
Qed.

Lemma send_stamped a d b : Forall (stamped b) (snd (send a d b)).
Proof.
  apply (request_stamped b (snd (generateId b)) (fst (generateId b))).
  - apply generateId_static.
  - apply generateId_truthy.
Qed.

Lemma sendResponse_stamped rid s d e b :
  Forall (stamped b) (snd (sendResponse rid s d e b)).
Proof.
  apply (response_stamped b (snd (generateId b)) (fst (generateId b))).
  - apply generateId_static.
  - apply generateId_truthy.
Qed.

Lemma resumeInvokes_stamped ws : forall b,
  Forall (stamped b) (snd (resumeInvokes ws b)).
Proof.
  induction ws as [|w ws IH]; intros b; cbn [resumeInvokes].
  - constructor.
  - pose proof (invokeRequest_static (w_caller w) (w_action w) (w_data w) b) as S1.
    pose proof (invokeRequest_stamped (w_caller w) (w_action w) (w_data w) b) as F1.
    destruct (invokeRequest _ _ _ b) as [b1 e1]. cbn [fst snd] in *.
    specialize (IH b1). destruct (resumeInvokes ws b1) as [b2 e2].
    cbn [fst snd] in *. eapply stamped_seq; eassumption.
Qed.

Lemma settle_stamped b (ws : list Waiter) e :
  Forall (stamped b) (map (fun w => Settle (w_caller w) (Rejected e)) ws).
Proof. induction ws as [|w ws IH]; cbn; constructor; [exact I | exact IH]. Qed.

Lemma attemptHandshake_then_stamped b :
  Forall (stamped b) (snd (attemptHandshake_then b)).
Proof.
  unfold attemptHandshake_then, resolveReady.
  destruct (readyPromise _) as [ws|]; [|constructor].
  eapply stamped_static; [|apply resumeInvokes_stamped].
  eapply static_trans; [|eapply static_trans; [apply stopHandshakeRetry_static|]].
  - instantiate (1 := set_isReady true b). open_bridge b. static_by_fields.
  - destruct (stopHandshakeRetry (set_isReady true b)) as [? ? ? ? ? ? ? ? ? ? []].
    static_by_fields.
Qed.

Lemma attemptHandshake_catch_stamped e b :
  Forall (stamped b) (snd (attemptHandshake_catch e b)).
Proof.
  open_bridge b. unfold attemptHandshake_catch. cbn.
  destruct (Opt.ge (ha + 1) (Opt.maxHandshakeAttempts opts)); [|constructor].
  destruct rp as [ws|], hri; cbn; try constructor; apply settle_stamped.
Qed.

Lemma fire_stamped cb r b : Forall (stamped b) (snd (fire cb r b)).
Proof.
  destruct cb as [c|]; cbn [fire].
  - constructor; [exact I | constructor].
  - destruct r; [apply attemptHandshake_then_stamped
                | apply attemptHandshake_catch_stamped].
Qed.

Lemma fireAll_stamped jobs : forall b, Forall (stamped b) (snd (fireAll jobs b)).
Proof.
  induction jobs as [|[cb r] jobs IH]; intros b; cbn [fireAll].
  - constructor.
  - pose proof (fire_static cb r b) as S1.
    pose proof (fire_stamped cb r b) as F1.
    destruct (fire cb r b) as [b1 e1]. cbn [fst snd] in *.
    specialize (IH b1). destruct (fireAll jobs b1) as [b2 e2].
    cbn [fst snd] in *. eapply stamped_seq; eassumption.
Qed.

Lemma handleRequest_done_stamped n i r b :
  Forall (stamped b) (snd (handleRequest_done n i r b)).
Proof.
  unfold handleRequest_done. destruct (truthy n);
    [apply sendResponse_stamped | constructor].
Qed.

Lemma handleRequest_catch_stamped a n i t b :
  Forall (stamped b) (snd (handleRequest_catch a n i t b)).
Proof.
  unfold handleRequest_catch. destruct (truthy n).
  - pose proof (sendResponse_stamped i false VUndefined
                  (VStr match t with ThrowError e => message e
                                 | ThrowValue v => toString v end) b) as H.
    destruct (sendResponse _ _ _ _ b) as [b1 e1]. cbn [snd] in *.
    constructor; [exact I | exact H].
  - constructor; [exact I | constructor].
Qed.

Lemma handleRequestMessage_stamped msg b :
  Forall (stamped b) (snd (handleRequestMessage msg b)).
Proof.
  unfold handleRequestMessage.
  destruct (handlerFor _ b) as [h|].
  - destruct (h _ _).
    + apply handleRequest_done_stamped.
    + apply handleRequest_catch_stamped.
    + constructor.
  - destruct (truthy _); [apply sendResponse_stamped | constructor].
Qed.

Lemma resumeRequest_stamped s b : Forall (stamped b) (snd (resumeRequest s b)).
Proof.
  unfold resumeRequest. destruct (s_later s);
    [apply handleRequest_done_stamped | apply handleRequest_catch_stamped].
Qed.

Lemma handleResponseMessage_stamped msg b :
  Forall (stamped b) (snd (handleResponseMessage msg b)).
Proof.
  unfold handleResponseMessage.
  destruct (pendingFor _ b) as [p|]; [|constructor].
  assert (S1 : static b (deletePending (getField "requestId" msg)
                           (clearTimeout (timeout p) b))).
  { eapply static_trans; [apply clearTimeout_static | apply deletePending_static]. }
  destruct (truthy _); (eapply stamped_static; [exact S1 | apply fire_stamped]).
Qed.

Lemma handleMessage_stamped msg b : Forall (stamped b) (snd (handleMessage msg b)).
Proof.
  unfold handleMessage.
  destruct (negb (isObject msg) || _); [constructor|].
  destruct (negb (isAllowedValue _ b)); [constructor|].
  assert (S1 : static b (fst (if truthy (getField "action" msg)
                              then handleRequestMessage msg b else (b, [])))).
  { destruct (truthy (getField "action" msg));
      [apply handleRequestMessage_static | apply static_refl]. }
  assert (F1 : Forall (stamped b)
                 (snd (if truthy (getField "action" msg)
                       then handleRequestMessage msg b else (b, [])))).
  { destruct (truthy (getField "action" msg));
      [apply handleRequestMessage_stamped | constructor]. }
  destruct (if truthy (getField "action" msg) then _ else _) as [b1 e1].
  cbn [fst snd] in S1, F1.
  assert (F2 : Forall (stamped b1)
                 (snd (if truthy (getField "requestId" msg)
                       then handleResponseMessage msg b1 else (b1, [])))).
  { destruct (truthy (getField "requestId" msg));
      [apply handleResponseMessage_stamped | constructor]. }
  destruct (if truthy (getField "requestId" msg) then _ else _) as [b2 e2].
  cbn [fst snd] in *. eapply stamped_seq; eassumption.
Qed.

Lemma step_static_but b ev :
  communicationId (fst (step b ev)) = communicationId b /\
  messageType (fst (step b ev)) = messageType b.
Proof.
  pose proof (step_fields b ev) as (A & B & _). split; assumption.
Qed.

Lemma stamped_same b b' effs :
  communicationId b' = communicationId b -> messageType b' = messageType b ->
  Forall (stamped b') effs -> Forall (stamped b) effs.
Proof.
  intros Hc Hm F. induction F as [|e effs He F IH]; constructor.
  - destruct e as [m|c r|s t]; cbn in *; [|exact I|exact I].
    rewrite <- Hc, <- Hm. exact He.
  - exact IH.
Qed.

Lemma step_stamped b ev : Forall (stamped b) (snd (step b ev)).
Proof.
  destruct ev; cbn [step]; try (constructor; fail).
  - unfold invoke. destruct (isReady b).
    + apply invokeRequest_stamped.
    + destruct (readyPromise b) as [ws|]; [constructor|].
      pose proof (attemptHandshake_stamped b) as F1.
      destruct (attemptHandshake b) as [b1 e1]. exact F1.
  - apply send_stamped.
  - rewrite destroy_spec.
    match goal with
    | |- context [fireAll ?jobs ?s] =>
        apply (stamped_same b s); [| |apply fireAll_stamped]
    end.
    + pose proof (fold_clearTimeout_static (pendingRequests b)
                    (set_messageHandlers [] (stopHandshakeRetry b)))
        as (Hc & _).
      cbn. cbn in Hc. rewrite Hc.
      apply (stopHandshakeRetry_static b).
    + pose proof (fold_clearTimeout_static (pendingRequests b)
                    (set_messageHandlers [] (stopHandshakeRetry b)))
        as (_ & Hm & _).
      cbn. cbn in Hm. rewrite Hm.
      apply (stopHandshakeRetry_static b).
  - destruct (listening (host b)); [apply handleMessage_stamped | constructor].
  - destruct (findTimer h b) as [t|]; [|constructor].
    match goal with
    | |- context [runTimer _ ?s] => apply (stamped_same b s); [reflexivity..|]
    end.
    destruct (callback t) as [id a c|id|]; cbn [runTimer snd].
    + constructor; [exact I | constructor].
    + match goal with
      | |- context [attemptHandshake_catch ?e ?s] =>
          apply (stamped_same _ s); [reflexivity..|];
          apply attemptHandshake_catch_stamped
      end.
    + apply attemptHandshake_stamped.
  - destruct (nth_error _ k) as [s|]; [|constructor].
    match goal with
    | |- context [resumeRequest s ?x] =>
        apply (stamped_same b x); [reflexivity..|]
    end.
    apply resumeRequest_stamped.
Qed.

Lemma run_fields evs : forall b,
  communicationId (fst (run b evs)) = communicationId b /\
  messageType (fst (run b evs)) = messageType b /\
  options (fst (run b evs)) = options b /\
  mathRandom (host (fst (run b evs))) = mathRandom (host b) /\
  (existsb writesHandlers evs = false ->
   messageHandlers (fst (run b evs)) = messageHandlers b) /\
  (existsb writesAllowList evs = false ->
   allowedIds (fst (run b evs)) = allowedIds b) /\
  listening (host (fst (run b evs))) =
    (if existsb isDestroy evs then false else listening (host b)) /\
  Forall (stamped b) (snd (run b evs)).
Proof.
  induction evs as [|ev evs IH]; intros b; cbn [run existsb].
  - repeat split. constructor.
  - pose proof (step_fields b ev) as (A1 & A2 & A3 & A4 & A5 & A6 & A7 & _).
    pose proof (step_stamped b ev) as F1.
    destruct (step b ev) as [b1 e1]. cbn [fst snd] in *.
    destruct (IH b1) as (B1 & B2 & B3 & B4 & B5 & B6 & B7 & F2).
    destruct (run b1 evs) as [b2 e2]. cbn [fst snd] in *.
    repeat split; try congruence.
    + intros H. apply orb_false_iff in H. destruct H as [H1 H2].
      rewrite (B5 H2). exact (A5 H1).
    + intros H. apply orb_false_iff in H. destruct H as [H1 H2].
      rewrite (B6 H2). exact (A6 H1).
    + rewrite B7, A7. destruct (isDestroy ev), (existsb isDestroy evs);
        reflexivity.
    + apply Forall_app. split; [exact F1|].
      eapply stamped_same; [exact A1 | exact A2 | exact F2].
Qed.

(** X11 (constructor, send, invokeRequest, sendSingleHandshakeRequest,
    sendResponse): the identity of a bridge is fixed at construction.
    Whatever happens afterwards, [communicationId], [messageType] and the
    merged options keep their values; the handler registry changes only in
    [handle], the closure it returns and [destroy]; the allow-list only in
    [addAllowedId] and [removeAllowedId]; the listener is detached by
    [destroy] and by nothing else, and never attached again; and every
    envelope the bridge ever posts is an object stamped with its message
    type, its communication id and a non-empty id. *)
Theorem identity_is_fixed :
  forall (b : Bridge) (evs : list Event),
    let b' := fst (run b evs) in
    communicationId b' = communicationId b /\
    messageType b' = messageType b /\
    options b' = options b /\
    (existsb writesHandlers evs = false ->
     messageHandlers b' = messageHandlers b) /\
    (existsb writesAllowList evs = false -> allowedIds b' = allowedIds b) /\
    listening (host b') =
      (if existsb isDestroy evs then false else listening (host b)) /\
    (forall m, In m (posted (snd (run b evs))) ->
               isObject m = true /\
               getField "type" m = VStr (messageType b) /\
               getField "communicationId" m = VStr (communicationId b) /\
               truthy (getField "id" m) = true).
Proof.
  intros b evs b'.
  destruct (run_fields evs b) as (A1 & A2 & A3 & _ & A5 & A6 & A7 & F).
  repeat split; try assumption;
    (unfold posted in H; apply in_flat_map in H;
     destruct H as [e [He Hm]]; rewrite Forall_forall in F;
     specialize (F e He); destruct e as [m'|c r|s t]; cbn in Hm;
     [destruct Hm as [Hm|[]]; subst m'; apply F | destruct Hm | destruct Hm]).
Qed.

(** ** Construction *)

Lemma NoDup_set_add x s : NoDup s -> NoDup (set_add x s).
Proof.
  intros N. unfold set_add. destruct (set_has x s) eqn:E; [exact N|].
  apply NoDup_app; [exact N | constructor; [intros [] | constructor] |].
  intros y Hy [Hx|[]]. subst y. apply set_has_In in Hy. congruence.
Qed.

Lemma NoDup_set_delete x s : NoDup s -> NoDup (set_delete x s).
Proof. intros N. apply NoDup_filter. exact N. Qed.

Lemma NoDup_set_of_list_from l : forall s,
  NoDup s -> NoDup (fold_left (fun s x => set_add x s) l s).
Proof.
  induction l as [|x l IH]; intros s N; cbn [fold_left]; [exact N|].
  apply IH, NoDup_set_add, N.
Qed.

Lemma NoDup_set_of_list l : NoDup (set_of_list l).
Proof. apply NoDup_set_of_list_from. constructor. Qed.

Lemma createBridge_messageType cid o h :
  messageType (createBridge cid o h) <> "" /\
  (forall t, Opt.messageType o = Some t -> t <> "" ->
             messageType (createBridge cid o h) = t) /\
  (Opt.messageType o = None \/ Opt.messageType o = Some "" ->
   messageType (createBridge cid o h) = DEFAULT_MESSAGE_TYPE).
Proof.
  cbn. destruct (Opt.messageType o) as [t|].
  - destruct (t =? "") eqn:E.
    + apply String.eqb_eq in E. subst t.
      split; [discriminate|]. split; [|reflexivity].
      intros t Ht Hne. congruence.
    + apply String.eqb_neq in E. split; [exact E|]. split.
      * intros t' Ht _. congruence.
      * intros [H|H]; congruence.
  - split; [discriminate|]. split; [discriminate | reflexivity].
Qed.

Lemma untyped_is_dropped b m :
  messageType b <> "" ->
  getField "type" m = VUndefined \/ getField "type" m = VStr "" ->
  step b (MessageEvent m) = (b, []).
Proof.
  intros Hne Ht. cbn [step]. destruct (listening (host b)); [|reflexivity].
  unfold handleMessage.
  replace (strictEqStr (getField "type" m) (messageType b)) with false.
  - rewrite orb_true_r. reflexivity.
  - destruct Ht as [Ht|Ht]; rewrite Ht; cbn [strictEqStr]; [reflexivity|].
    symmetry. apply String.eqb_neq. congruence.
Qed.

(** X12 (constructor, createBridge, setupMessageListener,
    setupHandshakeHandler): what the constructor builds.  The message type
    is the [messageType] option when that is a non-empty string and
    ["web-bridge"] otherwise - also for the empty string - so it is never
    empty; the allow-list holds the members of the [allowedIds] option
    once each, and the bridge admits everyone when the option is missing
    or empty and exactly the listed identifiers otherwise.  Each of the
    four timing options that is present in the argument replaces its
    default, whatever its value, and each that is missing keeps it
    (30000, 500, 1000, 10): unlike the two options read through [||], a
    timing option given as [undefined] is copied, so that a
    [requestTimeout] given as [undefined] is no delay the host waits for
    and a [maxHandshakeAttempts] given as [undefined] is a limit no count
    reaches.  The bridge is not ready, has nothing pending, no timer armed
    and no attempt counted; its listener is attached; and the only handler
    registered is the one for the handshake action. *)
Theorem fresh_bridge :
  forall (cid : string) (o : Opt.user) (clock : Z) (rnd : nat -> string),
    let b := createBridge cid o (freshHost clock rnd) in
    communicationId b = cid /\
    messageType b <> "" /\
    (forall t, Opt.messageType o = Some t -> t <> "" -> messageType b = t) /\
    (Opt.messageType o = None \/ Opt.messageType o = Some "" ->
     messageType b = DEFAULT_MESSAGE_TYPE) /\
    NoDup (allowedIds b) /\
    (forall id, In id (allowedIds b) <->
                In id (Opt.orElse (Opt.allowedIds o) [])) /\
    (forall id, isAllowedId id b = true <->
                Opt.orElse (Opt.allowedIds o) [] = [] \/
                In id (Opt.orElse (Opt.allowedIds o) [])) /\
    (forall s, Opt.u_requestTimeout o = Some s ->
               Opt.requestTimeout (options b) = s) /\
    (Opt.u_requestTimeout o = None ->
     Opt.requestTimeout (options b) = Opt.Int 30000) /\
    (forall s, Opt.u_handshakeTimeout o = Some s ->
               Opt.handshakeTimeout (options b) = s) /\
    (Opt.u_handshakeTimeout o = None ->
     Opt.handshakeTimeout (options b) = Opt.Int 500) /\
    (forall s, Opt.u_handshakeRetryInterval o = Some s ->
               Opt.handshakeRetryInterval (options b) = s) /\
    (Opt.u_handshakeRetryInterval o = None ->
     Opt.handshakeRetryInterval (options b) = Opt.Int 1000) /\
    (forall s, Opt.u_maxHandshakeAttempts o = Some s ->
               Opt.maxHandshakeAttempts (options b) = s) /\
    (Opt.u_maxHandshakeAttempts o = None ->
     Opt.maxHandshakeAttempts (options b) = Opt.Int 10) /\
    (Opt.u_requestTimeout o = Some Opt.Undefined ->
     Opt.honoured (Opt.requestTimeout (options b)) = 0%Z) /\
    (Opt.u_maxHandshakeAttempts o = Some Opt.Undefined ->
     forall count,
       Opt.ge count (Opt.maxHandshakeAttempts (options b)) = false) /\
    getReady b = false /\
    pendingRequests b = [] /\
    timers (host b) = [] /\
    handshakeAttempts b = 0%Z /\
    readyPromise b = None /\
    listening (host b) = true /\
    map_keys (messageHandlers b) = [HANDSHAKE_ACTION] /\
    map_get HANDSHAKE_ACTION (messageHandlers b) = Some handshakeHandler.
Proof.
  intros cid o clock rnd b.
  destruct (createBridge_messageType cid o (freshHost clock rnd))
    as (M1 & M2 & M3).
  split; [reflexivity|]. split; [exact M1|]. split; [exact M2|].
  split; [exact M3|].
  split; [apply NoDup_set_of_list|].
  split; [intros id; apply set_of_list_In|].
  split.
  { intros id. rewrite isAllowedId_spec.
    change (allowedIds b) with (set_of_list (Opt.orElse (Opt.allowedIds o) [])).
    rewrite set_of_list_In. split; (intros [H|H]; [left | right; exact H]).
    - destruct (Opt.orElse (Opt.allowedIds o) []) as [|x l]; [reflexivity|].
      assert (Hin : In x (set_of_list (x :: l)))
        by (apply set_of_list_In; left; reflexivity).
      rewrite H in Hin. destruct Hin.
    - rewrite H. reflexivity. }
  split; [intros s H; cbn; rewrite H; reflexivity|].
  split; [intros H; cbn; rewrite H; reflexivity|].
  split; [intros s H; cbn; rewrite H; reflexivity|].
  split; [intros H; cbn; rewrite H; reflexivity|].
  split; [intros s H; cbn; rewrite H; reflexivity|].
  split; [intros H; cbn; rewrite H; reflexivity|].
  split; [intros s H; cbn; rewrite H; reflexivity|].
  split; [intros H; cbn; rewrite H; reflexivity|].
  split; [intros H; cbn; rewrite H; reflexivity|].
  split; [intros H count; cbn; rewrite H; reflexivity|].
  repeat split.
Qed.

(** ** Shape of the tables in every reachable state *)

Lemma tables_step b ev :
  NoDup (allowedIds b) -> NoDup (map_keys (messageHandlers b)) ->
  NoDup (allowedIds (fst (step b ev))) /\
  NoDup (map_keys (messageHandlers (fst (step b ev)))).
Proof.
  intros N1 N2.
  pose proof (step_fields b ev) as (_ & _ & _ & _ & A5 & A6 & _).
  destruct ev; try (rewrite (A5 eq_refl), (A6 eq_refl); split; assumption).
  - split; [exact N1|]. cbn. apply NoDup_map_set. exact N2.
  - split; [exact N1|]. cbn. apply NoDup_map_delete. exact N2.
  - split; [|exact N2]. cbn. apply NoDup_set_add. exact N1.
  - split; [|exact N2]. cbn. apply NoDup_set_delete. exact N1.
  - rewrite (A6 eq_refl). split; [exact N1|].
    cbn [step]. rewrite destroy_spec.
    match goal with
    | |- context [fireAll ?jobs ?s] =>
        destruct (fireAll_static jobs s) as (_ & _ & _ & _ & H & _)
    end.
    rewrite H.
    destruct (fold_clearTimeout_fields (pendingRequests b)
                (set_messageHandlers [] (stopHandshakeRetry b)))
      as (_ & _ & _ & _ & Hh & _).
    cbn in Hh. cbn. rewrite Hh. constructor.
Qed.

Lemma reachable_tables b :
  reachable b ->
  messageType b <> "" /\ NoDup (allowedIds b) /\
  NoDup (map_keys (messageHandlers b)).
Proof.
  induction 1 as [cid o clock rnd | b ev R (M & N1 & N2)].
  - split; [apply createBridge_messageType|].
    split; [apply NoDup_set_of_list|].
    cbn. constructor; [intros [] | constructor].
  - destruct (tables_step b ev N1 N2) as [N1' N2'].
    pose proof (step_fields b ev) as (_ & Hm & _).
    split; [rewrite Hm; exact M|]. split; assumption.
Qed.

(** X13 (constructor, addAllowedId, removeAllowedId, handle, destroy,
    handleMessage): in every state a bridge can reach, the message type is
    not empty, the allow-list holds each identifier once and the registry
    each action once - the [Set] and the [Map] of the class - and a value
    whose [type] is missing or is the empty string is dropped by the
    listener, whatever else it carries. *)
Theorem tables_are_well_formed :
  forall (b : Bridge) (m : value),
    reachable b ->
    messageType b <> "" /\
    NoDup (allowedIds b) /\
    NoDup (map_keys (messageHandlers b)) /\
    (getField "type" m = VUndefined \/ getField "type" m = VStr "" ->
     step b (MessageEvent m) = (b, [])).
Proof.
  intros b m R. destruct (reachable_tables b R) as (M & N1 & N2).
  split; [exact M|]. split; [exact N1|]. split; [exact N2|].
  apply untyped_is_dropped. exact M.
Qed.

(** ** The handshake responder *)

Lemma no_registry_write_no_destroy evs :
  existsb writesHandlers evs = false -> existsb isDestroy evs = false.
Proof.
  induction evs as [|ev evs IH]; cbn; [reflexivity|].
  intros H. apply orb_false_iff in H. destruct H as [H1 H2].
  rewrite (IH H2). destruct ev; try reflexivity; discriminate.
Qed.

(** X14 (setupHandshakeHandler, handleMessage, handleRequestMessage,
    sendResponse): every bridge answers handshake probes from the moment
    it is constructed.  As long as the registry has not been written -
    no [handle], no unregistering, no [destroy] - a probe of the bridge's
    message type from an admitted sender is answered in the same turn
    with one success response that names the probe in [requestId] and
    carries [{ success: true, timestamp: Date.now() }]; the bridge need
    not be ready itself, and answering changes nothing but the id
    generator. *)
Theorem handshake_probe_is_answered :
  forall (cid : string) (o : Opt.user) (clock : Z) (rnd : nat -> string)
         (evs : list Event) (probe : value),
    let b := fst (run (createBridge cid o (freshHost clock rnd)) evs) in
    existsb writesHandlers evs = false ->
    isProbe probe ->
    strictEqStr (getField "type" probe) (messageType b) = true ->
    isAllowedValue (getField "communicationId" probe) b = true ->
    exists r,
      step b (MessageEvent probe) = (snd (generateId b), [Post r]) /\
      getField "requestId" r = getField "id" probe /\
      getField "success" r = VBool true /\
      getField "data" r = VObj [("success", VBool true);
                                ("timestamp", VNum (dateNow b))] /\
      getField "error" r = VUndefined /\
      getField "communicationId" r = VStr cid /\
      getField "action" r = VUndefined /\
      sameCore b (snd (generateId b)).
Proof.
  intros cid o clock rnd evs probe b W (Ho & Ha & Hn & Hr) Ht Hal.
  destruct (run_fields evs (createBridge cid o (freshHost clock rnd)))
    as (Hc & _ & _ & _ & Hh & _ & Hl & _).
  fold b in Hc, Hh, Hl. specialize (Hh W).
  rewrite (no_registry_write_no_destroy evs W) in Hl.
  exists (responseEnvelope (snd (generateId b)) (fst (generateId b))
            (getField "id" probe) true
            (VObj [("success", VBool true); ("timestamp", VNum (dateNow b))])
            VUndefined).
  split.
  - apply (deliver_request_sync b probe handshakeHandler); try assumption.
    + rewrite Ha. reflexivity.
    + rewrite Ha. cbn [handlerFor]. rewrite Hh. reflexivity.
    + reflexivity.
  - split; [reflexivity|]. split; [reflexivity|]. split; [reflexivity|].
    split; [reflexivity|]. split; [|split; [reflexivity | apply generateId_core]].
    change (VStr (communicationId (snd (generateId b))) = VStr cid).
    destruct (generateId_static b) as (Hg & _). rewrite Hg, Hc. reflexivity.
Qed.

(** ** Every pending entry has its timer *)

Lemma NoDup_map_inj {A B} (f : A -> B) (l : list A) x y :
  NoDup (map f l) -> In x l -> In y l -> f x = f y -> x = y.
Proof.
  induction l as [|a l IH]; cbn; intros N Hx Hy E; [destruct Hx|].
  inversion N as [|fa fl Hn N']; subst.
  destruct Hx as [Hx|Hx], Hy as [Hy|Hy].
  - congruence.
  - subst a. exfalso. apply Hn. rewrite E. apply in_map. exact Hy.
  - subst a. exfalso. apply Hn. rewrite <- E. apply in_map. exact Hx.
  - apply IH; assumption.
Qed.

Lemma NoDup_map_filter {A B} (f : A -> B) g (l : list A) :
  NoDup (map f l) -> NoDup (map f (filter g l)).
Proof.
  induction l as [|a l IH]; cbn; intros N; [constructor|].
  inversion N as [|fa fl Hn N']; subst.
  destruct (g a); [|apply IH; exact N'].
  cbn. constructor; [|apply IH; exact N'].
  intros Hin. apply Hn. apply in_map_iff in Hin.
  destruct Hin as [y [E Hy]]. apply filter_In in Hy.
  rewrite <- E. apply in_map. apply Hy.
Qed.

Lemma find_tid (l : list Timer) t :
  NoDup (map tid l) -> In t l ->
  find (fun x => (tid x =? tid t)%nat) l = Some t.
Proof.
  induction l as [|a l IH]; cbn; intros N Hin; [destruct Hin|].
  inversion N as [|fa fl Hn N']; subst.
  destruct Hin as [Hin|Hin].
  - subst a. rewrite Nat.eqb_refl. reflexivity.
  - destruct (tid a =? tid t)%nat eqn:E.
    + apply Nat.eqb_eq in E. exfalso. apply Hn. rewrite E.
      apply in_map. exact Hin.
    + apply IH; assumption.
Qed.

Lemma map_get_In_key {V} k (v : V) m : map_get k m = Some v -> In (k, v) m.
Proof.
  induction m as [|[k' v'] m IH]; cbn; intros H; [discriminate|].
  destruct (k' =? k) eqn:E.
  - apply String.eqb_eq in E. inversion H; subst. left; reflexivity.
  - right. apply IH. exact H.
Qed.

Lemma In_map_set {V} k (v : V) id p m :
  In (k, v) (map_set id p m) -> (k = id /\ v = p) \/ In (k, v) m.
Proof.
  induction m as [|[k' v'] m IH]; cbn.
  - intros [H|[]]. inversion H; subst. left; split; reflexivity.
  - destruct (k' =? id).
    + intros [H|H]; [inversion H; subst; left; split; reflexivity|].
      right; right; exact H.
    + intros [H|H]; [right; left; exact H|].
      destruct (IH H) as [H'|H']; [left; exact H' | right; right; exact H'].
Qed.

Lemma In_map_delete {V} k (v : V) id m :
  In (k, v) (map_delete id m) -> k <> id /\ In (k, v) m.
Proof.
  unfold map_delete. rewrite filter_In. cbn. intros [Hin Hne].
  split; [|exact Hin]. apply negb_true_iff, String.eqb_neq in Hne. exact Hne.
Qed.

(** A timer that guards an entry is no retry timer, and it names the
    entry it guards. *)
Lemma guards_not_retry t id p : guards t id p -> callback t <> HandshakeRetry.
Proof.
  intros [_ G]. destruct (callbacks p) as [c|].
  - destruct G as [a G]. rewrite G. discriminate.
  - rewrite G. discriminate.
Qed.

Lemma guards_same_timer t id p id' p' :
  guards t id p -> guards t id' p' -> id = id'.
Proof.
  intros [_ G] [_ G'].
  destruct (callbacks p) as [c|], (callbacks p') as [c'|].
  - destruct G as [a G], G' as [a' G']. congruence.
  - destruct G as [a G]. congruence.
  - destruct G' as [a' G']. congruence.
  - congruence.
Qed.

(** The two ways the timer table changes: timers are cleared, or one timer
    is armed under a fresh handle. *)
Lemma armed_clear b b' f :
  armed b ->
  timers (host b') = filter f (timers (host b)) ->
  nextTimer (host b') = nextTimer (host b) ->
  handshakeRetryInterval b' = handshakeRetryInterval b \/
  handshakeRetryInterval b' = None ->
  (forall id p, In (id, p) (pendingRequests b') ->
     In (id, p) (pendingRequests b) /\
     forall t, In t (timers (host b)) -> guards t id p -> f t = true) ->
  armed b'.
Proof.
  intros (F & N & R & G) Ht Hn Hr Hp. unfold armed. rewrite Ht, Hn.
  split; [apply Forall_filter_keep; exact F|].
  split; [apply NoDup_map_filter; exact N|].
  split.
  - intros h Hh. destruct Hr as [Hr|Hr]; [|congruence].
    rewrite Hr in Hh. destruct (R h Hh) as [Lt Cb]. split; [exact Lt|].
    intros t Hin. apply filter_In in Hin. apply Cb, Hin.
  - intros id p Hin. destruct (Hp id p Hin) as [Hin' Keep].
    destruct (G id p Hin') as [t [Ht' Gt]]. exists t. split; [|exact Gt].
    apply filter_In. split; [exact Ht' | apply Keep; assumption].
Qed.

Lemma armed_arm b b' cb ms clk :
  armed b ->
  timers (host b') =
    (timers (host b) ++ [mkTimer (nextTimer (host b)) cb ms clk])%list ->
  nextTimer (host b') = S (nextTimer (host b)) ->
  handshakeRetryInterval b' = handshakeRetryInterval b \/
  (handshakeRetryInterval b' = Some (nextTimer (host b)) /\
   cb = HandshakeRetry) ->
  (forall id p, In (id, p) (pendingRequests b') ->
     In (id, p) (pendingRequests b) \/
     guards (mkTimer (nextTimer (host b)) cb ms clk) id p) ->
  armed b'.
Proof.
  intros (F & N & R & G) Ht Hn Hr Hp. unfold armed. rewrite Ht, Hn.
  split.
  { apply Forall_app. split.
    - eapply Forall_impl; [|exact F]. cbn. intros t Lt. lia.
    - constructor; [cbn; lia | constructor]. }
  split.
  { rewrite map_app. cbn [map tid]. apply NoDup_app; [exact N | | ].
    - constructor; [intros [] | constructor].
    - intros x Hx [Hy|[]]. subst x. apply in_map_iff in Hx.
      destruct Hx as [t [E Hin]]. rewrite Forall_forall in F.
      specialize (F t Hin). cbn in F. lia. }
  split.
  - intros h Hh. destruct Hr as [Hr|[Hr Hcb]].
    + rewrite Hr in Hh. destruct (R h Hh) as [Lt Cb]. split; [lia|].
      intros t Hin E. apply in_app_iff in Hin. destruct Hin as [Hin|[Hin|[]]].
      * apply Cb; assumption.
      * subst t. cbn in E. lia.
    + rewrite Hr in Hh. inversion Hh; subst h. split; [lia|].
      intros t Hin E. apply in_app_iff in Hin. destruct Hin as [Hin|[Hin|[]]].
      * rewrite Forall_forall in F. specialize (F t Hin). cbn in F. lia.
      * subst t. exact Hcb.
  - intros id p Hin. destruct (Hp id p Hin) as [Hin'|Gn].
    + destruct (G id p Hin') as [t [Ht' Gt]]. exists t.
      split; [apply in_app_iff; left; exact Ht' | exact Gt].
    + eexists. split; [apply in_app_iff; right; left; reflexivity | exact Gn].
Qed.

Lemma armed_sameCore b b' : sameCore b b' -> armed b -> armed b'.
Proof.
  intros (Hp & Ht & Hn & _ & _ & Hh & _) (F & N & R & G).
  unfold armed. rewrite Hp, Ht, Hn, Hh. repeat split; try assumption;
    apply R; assumption.
Qed.

Lemma armed_fields b b' :
  pendingRequests b' = pendingRequests b ->
  timers (host b') = timers (host b) ->
  nextTimer (host b') = nextTimer (host b) ->
  handshakeRetryInterval b' = handshakeRetryInterval b ->
  armed b -> armed b'.
Proof.
  intros Hp Ht Hn Hh (F & N & R & G).
  unfold armed. rewrite Hp, Ht, Hn, Hh. repeat split; try assumption;
    apply R; assumption.
Qed.

Lemma invokeRequest_armed c a d b : armed b -> armed (fst (invokeRequest c a d b)).
Proof.
  intros A.
  apply (armed_arm b _ (RequestTimeout (fst (generateId b)) a c)
           (Opt.requestTimeout (options b)) (dateNow b) A).
  - open_bridge b. reflexivity.
  - open_bridge b. reflexivity.
  - left. open_bridge b. reflexivity.
  - intros id p Hin.
    assert (E : pendingRequests (fst (invokeRequest c a d b)) =
                map_set (fst (generateId b))
                  (mkPending (InvokeCall c) (nextTimer (host b)))
                  (pendingRequests b)).
    { open_bridge b. reflexivity. }
    rewrite E in Hin. apply In_map_set in Hin.
    destruct Hin as [[Hk Hv]|Hin]; [|left; exact Hin].
    right. subst id p. split; [reflexivity|]. cbn. exists a. reflexivity.
Qed.

Lemma attemptHandshake_armed b : armed b -> armed (fst (attemptHandshake b)).
Proof.
  intros A.
  apply (armed_arm b _ (HandshakeTimeout (fst (generateId b)))
           (Opt.handshakeTimeout (options b)) (dateNow b) A).
  - open_bridge b. reflexivity.
  - open_bridge b. reflexivity.
  - left. open_bridge b. reflexivity.
  - intros id p Hin.
    assert (E : pendingRequests (fst (attemptHandshake b)) =
                map_set (fst (generateId b))
                  (mkPending HandshakeAttempt (nextTimer (host b)))
                  (pendingRequests b)).
    { open_bridge b. reflexivity. }
    rewrite E in Hin. apply In_map_set in Hin.
    destruct Hin as [[Hk Hv]|Hin]; [|left; exact Hin].
    right. subst id p. split; reflexivity.
Qed.

Lemma resumeInvokes_armed ws : forall b,
  armed b -> armed (fst (resumeInvokes ws b)).
Proof.
  induction ws as [|w ws IH]; intros b A; cbn [resumeInvokes]; [exact A|].
  pose proof (invokeRequest_armed (w_caller w) (w_action w) (w_data w) b A) as A1.
  destruct (invokeRequest _ _ _ b) as [b1 e1]. cbn [fst] in A1.
  specialize (IH b1 A1). destruct (resumeInvokes ws b1) as [b2 e2]. exact IH.
Qed.

Lemma stopHandshakeRetry_armed b : armed b -> armed (stopHandshakeRetry b).
Proof.
  intros A. unfold stopHandshakeRetry.
  destruct (handshakeRetryInterval b) as [h|] eqn:Eh; [|exact A].
  apply (armed_clear b _ (fun t => negb (tid t =? h)%nat) A).
  - open_bridge b. reflexivity.
  - open_bridge b. reflexivity.
  - right. reflexivity.
  - intros id p Hin. split; [open_bridge b; exact Hin|].
    intros t Ht Gt. apply negb_true_iff, Nat.eqb_neq. intros E.
    destruct A as (_ & _ & R & _). destruct (R h Eh) as [_ Cb].
    apply (guards_not_retry t id p Gt). apply Cb; assumption.
Qed.

Lemma attemptHandshake_then_armed b :
  armed b -> armed (fst (attemptHandshake_then b)).
Proof.
  intros A. unfold attemptHandshake_then, resolveReady.
  assert (A1 : armed (stopHandshakeRetry (set_isReady true b))).
  { apply stopHandshakeRetry_armed.
    apply (armed_fields b); try reflexivity. exact A. }
  destruct (readyPromise _) as [ws|]; [|exact A1].
  apply resumeInvokes_armed.
  eapply armed_fields; [..|exact A1]; reflexivity.
Qed.

Lemma attemptHandshake_catch_armed e b :
  armed b -> armed (fst (attemptHandshake_catch e b)).
Proof.
  intros A. unfold attemptHandshake_catch.
  set (b1 := set_handshakeAttempts (handshakeAttempts b + 1) b).
  assert (A1 : armed b1) by (apply (armed_fields b); try reflexivity; exact A).
  destruct (Opt.ge (handshakeAttempts b1) (Opt.maxHandshakeAttempts (options b1))).
  - pose proof (stopHandshakeRetry_armed b1 A1) as A2.
    unfold rejectReady. destruct (readyPromise _); [|exact A2].
    eapply armed_fields; [..|exact A2]; reflexivity.
  - apply (armed_arm b1 _ HandshakeRetry
             (Opt.handshakeRetryInterval (options b1)) (dateNow b1) A1).
    + destruct b as [? ? ? ? ? ? ? ? ? ? []]. reflexivity.
    + destruct b as [? ? ? ? ? ? ? ? ? ? []]. reflexivity.
    + right. split; [|reflexivity]. destruct b as [? ? ? ? ? ? ? ? ? ? []].
      reflexivity.
    + intros id p Hin. left. destruct b as [? ? ? ? ? ? ? ? ? ? []]. exact Hin.
Qed.

Lemma fire_armed cb r b : armed b -> armed (fst (fire cb r b)).
Proof.
  intros A. destruct cb as [c|]; [exact A|]. destruct r; cbn [fire].
  - apply attemptHandshake_then_armed, A.
  - apply attemptHandshake_catch_armed, A.
Qed.

Lemma fireAll_armed jobs : forall b, armed b -> armed (fst (fireAll jobs b)).
Proof.
  induction jobs as [|[cb r] jobs IH]; intros b A; cbn [fireAll]; [exact A|].
  pose proof (fire_armed cb r b A) as A1.
  destruct (fire cb r b) as [b1 e1]. cbn [fst] in A1.
  specialize (IH b1 A1). destruct (fireAll jobs b1) as [b2 e2]. exact IH.
Qed.

(** Taking an entry out together with its timer. *)
Lemma settle_armed id p b :
  armed b -> map_get id (pendingRequests b) = Some p ->
  armed (deletePending (VStr id) (clearTimeout (timeout p) b)).
Proof.
  intros A G.
  apply (armed_clear b _ (fun t => negb (tid t =? timeout p)%nat) A).
  - open_bridge b. reflexivity.
  - open_bridge b. reflexivity.
  - left. open_bridge b. reflexivity.
  - intros id' p' Hin.
    assert (E : pendingRequests (deletePending (VStr id) (clearTimeout (timeout p) b))
                = map_delete id (pendingRequests b))
      by (open_bridge b; reflexivity).
    rewrite E in Hin. apply In_map_delete in Hin. destruct Hin as [Hne Hin].
    split; [exact Hin|]. intros t' Ht' Gt'.
    apply negb_true_iff, Nat.eqb_neq. intros Et.
    destruct A as (_ & N & _ & Gd).
    destruct (Gd id p (map_get_In_key _ _ _ G)) as [t [Ht Gt]].
    assert (t' = t).
    { apply (NoDup_map_inj tid (timers (host b))); try assumption.
      destruct Gt as [Gt _]. congruence. }
    subst t'. apply Hne. symmetry. eapply guards_same_timer; eassumption.
Qed.

Lemma handleResponseMessage_armed msg b :
  armed b -> armed (fst (handleResponseMessage msg b)).
Proof.
  intros A. unfold handleResponseMessage.
  destruct (pendingFor _ b) as [p|] eqn:G; [|exact A].
  destruct (getField "requestId" msg) as [| | | |rid|] eqn:Er; try discriminate.
  cbn [pendingFor] in G.
  pose proof (settle_armed rid p b A G) as A1.
  destruct (truthy _); apply fire_armed, A1.
Qed.

Lemma handleMessage_armed msg b : armed b -> armed (fst (handleMessage msg b)).
Proof.
  intros A. unfold handleMessage.
  destruct (negb (isObject msg) || _); [exact A|].
  destruct (negb (isAllowedValue _ b)); [exact A|].
  assert (A1 : armed (fst (if truthy (getField "action" msg)
                           then handleRequestMessage msg b else (b, [])))).
  { destruct (truthy (getField "action" msg)); [|exact A].
    eapply armed_sameCore; [apply handleRequestMessage_core | exact A]. }
  destruct (if truthy (getField "action" msg) then _ else _) as [b1 e1].
  cbn [fst] in A1.
  assert (A2 : armed (fst (if truthy (getField "requestId" msg)
                           then handleResponseMessage msg b1 else (b1, [])))).
  { destruct (truthy (getField "requestId" msg)); [|exact A1].
    apply handleResponseMessage_armed, A1. }
  destruct (if truthy (getField "requestId" msg) then _ else _) as [b2 e2].
  exact A2.
Qed.

Lemma drop_entries_armed b : armed b -> armed (set_pendingRequests [] b).
Proof.
  intros (F & N & R & G). unfold armed. cbn.
  repeat split; try assumption; try (apply R; assumption).
  intros id p [].
Qed.

Lemma clear_emptied_armed h b :
  armed (set_pendingRequests [] b) ->
  armed (set_pendingRequests [] (clearTimeout h b)).
Proof.
  intros A.
  apply (armed_clear (set_pendingRequests [] b) _
           (fun t => negb (tid t =? h)%nat) A).
  - open_bridge b. reflexivity.
  - open_bridge b. reflexivity.
  - left. open_bridge b. reflexivity.
  - intros id p [].
Qed.

Lemma fold_clearTimeout_armed (entries : list (string * Pending)) : forall b,
  armed (set_pendingRequests [] b) ->
  armed (set_pendingRequests []
           (fold_left (fun acc kv => clearTimeout (timeout (snd kv)) acc)
              entries b)).
Proof.
  induction entries as [|kv entries IH]; intros b A; cbn [fold_left].
  - exact A.
  - apply IH, clear_emptied_armed, A.
Qed.

Lemma destroy_armed b : armed b -> armed (fst (destroy b)).
Proof.
  intros A. rewrite destroy_spec. cbn [fst].
  eapply armed_fields;
    [..|apply (fold_clearTimeout_armed (pendingRequests b)
                 (set_messageHandlers [] (stopHandshakeRetry b)))];
    try reflexivity.
  apply drop_entries_armed.
  eapply armed_fields; [..|apply (stopHandshakeRetry_armed b A)]; reflexivity.
Qed.

(** A timer that expires, with the entries its closure leaves. *)
Lemma expire_armed b b' t :
  armed b ->
  In t (timers (host b)) ->
  timers (host b') =
    filter (fun x => negb (tid x =? tid t)%nat) (timers (host b)) ->
  nextTimer (host b') = nextTimer (host b) ->
  handshakeRetryInterval b' = handshakeRetryInterval b ->
  (forall id p, In (id, p) (pendingRequests b') ->
                In (id, p) (pendingRequests b) /\ ~ guards t id p) ->
  armed b'.
Proof.
  intros A Ht Et En Eh Hp.
  apply (armed_clear b b' (fun x => negb (tid x =? tid t)%nat) A Et En).
  - left. exact Eh.
  - intros id p Hin. destruct (Hp id p Hin) as [Hin' Ng].
    split; [exact Hin'|]. intros t' Ht' Gt'.
    apply negb_true_iff, Nat.eqb_neq. intros E.
    destruct A as (_ & N & _).
    assert (t' = t) by (apply (NoDup_map_inj tid (timers (host b))); assumption).
    subst t'. apply Ng, Gt'.
Qed.

Lemma find_timer_In h b t :
  findTimer h b = Some t -> In t (timers (host b)) /\ tid t = h.
Proof.
  unfold findTimer. intros H. apply find_some in H. destruct H as [Hin E].
  apply Nat.eqb_eq in E. split; assumption.
Qed.

Lemma timer_armed h b : armed b -> armed (fst (step b (TimerFires h))).
Proof.
  intros A. cbn [step].
  destruct (findTimer h b) as [t|] eqn:Ft; [|exact A].
  destruct (find_timer_In h b t Ft) as [Hin Eh]. subst h.
  set (b2 := set_host
               (set_now (Z.max (dateNow (clearTimeout (tid t) b))
                           (armedAt t + Opt.honoured (delay t)))
                  (host (clearTimeout (tid t) b)))
               (clearTimeout (tid t) b)).
  destruct (callback t) as [id a c|id|] eqn:Cb; cbn [runTimer fst].
  - apply (expire_armed b _ t A Hin).
    + open_bridge b. reflexivity.
    + open_bridge b. reflexivity.
    + open_bridge b. reflexivity.
    + intros id' p' Hin'.
      assert (E : pendingRequests (deletePending (VStr id) b2)
                  = map_delete id (pendingRequests b))
        by (open_bridge b; reflexivity).
      rewrite E in Hin'. apply In_map_delete in Hin'.
      destruct Hin' as [Hne Hin']. split; [exact Hin'|].
      intros [_ G]. rewrite Cb in G. destruct (callbacks p') as [c'|].
      * destruct G as [a' G]. congruence.
      * discriminate.
  - apply attemptHandshake_catch_armed.
    apply (expire_armed b _ t A Hin).
    + open_bridge b. reflexivity.
    + open_bridge b. reflexivity.
    + open_bridge b. reflexivity.
    + intros id' p' Hin'.
      assert (E : pendingRequests (deletePending (VStr id) b2)
                  = map_delete id (pendingRequests b))
        by (open_bridge b; reflexivity).
      rewrite E in Hin'. apply In_map_delete in Hin'.
      destruct Hin' as [Hne Hin']. split; [exact Hin'|].
      intros [_ G]. rewrite Cb in G. destruct (callbacks p') as [c'|].
      * destruct G as [a' G]. discriminate.
      * congruence.
  - apply attemptHandshake_armed.
    apply (expire_armed b _ t A Hin).
    + open_bridge b. reflexivity.
    + open_bridge b. reflexivity.
    + open_bridge b. reflexivity.
    + intros id' p' Hin'.
      assert (E : pendingRequests b2 = pendingRequests b)
        by (open_bridge b; reflexivity).
      rewrite E in Hin'. split; [exact Hin'|].
      intros G. apply (guards_not_retry _ _ _ G). exact Cb.
Qed.

Lemma step_armed b ev : armed b -> armed (fst (step b ev)).
Proof.
  intros A. destruct ev.
  - cbn [step]. unfold invoke. destruct (isReady b).
    + apply invokeRequest_armed, A.
    + destruct (readyPromise b) as [ws|].
      * eapply armed_fields; [..|exact A]; reflexivity.
      * pose proof (attemptHandshake_armed b A) as A1.
        destruct (attemptHandshake b) as [b1 e1]. cbn [fst] in *.
        eapply armed_fields; [..|exact A1]; reflexivity.
  - cbn [step]. unfold send.
    pose proof (generateId_core b) as S1.
    destruct (generateId b) as [id b1]. cbn [fst snd] in *.
    eapply armed_sameCore; eassumption.
  - eapply armed_fields; [..|exact A]; reflexivity.
  - eapply armed_fields; [..|exact A]; reflexivity.
  - eapply armed_fields; [..|exact A]; reflexivity.
  - eapply armed_fields; [..|exact A]; reflexivity.
  - cbn [step]. pose proof (destroy_armed b A) as A1.
    destruct (destroy b) as [b1 jobs]. cbn [fst] in A1.
    apply fireAll_armed, A1.
  - cbn [step]. destruct (listening (host b)); [|exact A].
    apply handleMessage_armed, A.
  - apply timer_armed, A.
  - cbn [step]. destruct (nth_error _ k) as [s|]; [|exact A].
    eapply armed_sameCore; [apply resumeRequest_core|].
    eapply armed_fields; [..|exact A]; reflexivity.
  - eapply armed_fields; [..|exact A]; reflexivity.
Qed.

Lemma reachable_armed b : reachable b -> armed b.
Proof.
  induction 1 as [cid o clock rnd | b ev R A].
  - unfold armed. cbn. split; [constructor|]. split; [constructor|].
    split; [discriminate | intros id p []].
  - apply step_armed, A.
Qed.

Lemma find_fresh (l : list Timer) x :
  Forall (fun t => tid t < tid x) l ->
  find (fun t => (tid t =? tid x)%nat) (l ++ [x]) = Some x.
Proof.
  induction 1 as [|a l Ha F IH]; cbn.
  - rewrite Nat.eqb_refl. reflexivity.
  - replace (tid a =? tid x)%nat with false; [exact IH|].
    symmetry. apply Nat.eqb_neq. lia.
Qed.

Lemma attemptHandshake_catch_counts e b :
  handshakeAttempts (fst (attemptHandshake_catch e b)) =
  (handshakeAttempts b + 1)%Z.
Proof.
  open_bridge b. unfold attemptHandshake_catch. cbn.
  destruct (Opt.ge (ha + 1) (Opt.maxHandshakeAttempts opts)); [|reflexivity].
  destruct rp, hri; reflexivity.
Qed.

(** X15 (invokeRequest, sendSingleHandshakeRequest, handleResponseMessage,
    stopHandshakeRetry, clearPendingRequests): no pending entry outlives
    its timer.  In every state a bridge can reach, each entry of
    [pendingRequests] has the timer that was armed with it still armed,
    under the handle the entry stores.  When that timer expires the entry
    is removed; for a call, the caller is rejected with the timeout error
    that names the action of the call; for a handshake attempt, the
    attempt is counted as failed. *)
Theorem pending_entries_are_guarded :
  forall (b : Bridge) (id : string) (p : Pending),
    reachable b ->
    In (id, p) (pendingRequests b) ->
    exists t,
      findTimer (timeout p) b = Some t /\
      guards t id p /\
      pendingFor (VStr id) (fst (step b (TimerFires (timeout p)))) = None /\
      match callbacks p with
      | InvokeCall caller =>
          exists action,
            snd (step b (TimerFires (timeout p))) =
              [Settle caller (Rejected (mkError ("请求超时: " ++ action)))]
      | HandshakeAttempt =>
          handshakeAttempts (fst (step b (TimerFires (timeout p)))) =
            (handshakeAttempts b + 1)%Z
      end.
Proof.
  intros b id p R Hin.
  pose proof (reachable_armed b R) as (F & N & _ & G).
  destruct (G id p Hin) as [t [Ht Gt]]. exists t.
  assert (Ft : findTimer (timeout p) b = Some t).
  { destruct Gt as [E _]. rewrite <- E. apply find_tid; assumption. }
  split; [exact Ft|]. split; [exact Gt|].
  cbn [step]. rewrite Ft. destruct Gt as [Et Gc].
  destruct (callbacks p) as [c|].
  - destruct Gc as [a Gc]. rewrite Gc. cbn [runTimer fst snd]. split.
    + cbn [pendingFor]. open_bridge b. apply map_get_delete_same.
    + exists a. reflexivity.
  - rewrite Gc. cbn [runTimer]. split.
    + cbn [pendingFor]. rewrite attemptHandshake_catch_pending.
      open_bridge b. apply map_get_delete_same.
    + rewrite attemptHandshake_catch_counts. open_bridge b. reflexivity.
Qed.

Lemma find_cleared (l : list Timer) h :
  find (fun t => (tid t =? h)%nat) (filter (fun t => negb (tid t =? h)%nat) l)
  = None.
Proof.
  induction l as [|a l IH]; cbn; [reflexivity|].
  destruct (tid a =? h)%nat eqn:E; cbn; [exact IH|]. rewrite E. exact IH.
Qed.

(** X16 (invokeRequest and its timeout closure, handleMessage,
    handleResponseMessage): a request nobody answers times out.
    [invokeRequest] calls [setTimeout] with [options.requestTimeout] and
    gets a fresh handle; when that timer expires the caller is rejected
    with ["请求超时: " + action] and the entry is removed, so that a
    response which arrives afterwards is dropped without effect and a
    second expiry does nothing.  The expiry comes no earlier than the
    delay the host honours: the whole of [requestTimeout] when that is a
    number from 0 up to the largest signed 32-bit integer, and no wait at
    all that could be relied on when it is negative, larger, not a number
    or [undefined]. *)
Theorem unanswered_request_times_out :
  forall (b : Bridge) (caller : nat) (action : string) (data : value),
    reachable b ->
    let id := fst (generateId b) in
    let h := nextTimer (host b) in
    let b1 := fst (invokeRequest caller action data b) in
    let b2 := fst (step b1 (TimerFires h)) in
    findTimer h b1 =
      Some (mkTimer h (RequestTimeout id action caller)
              (Opt.requestTimeout (options b)) (dateNow b)) /\
    pendingFor (VStr id) b1 = Some (mkPending (InvokeCall caller) h) /\
    snd (step b1 (TimerFires h)) =
      [Settle caller (Rejected (mkError ("请求超时: " ++ action)))] /\
    pendingFor (VStr id) b2 = None /\
    (dateNow b + Opt.honoured (Opt.requestTimeout (options b))
     <= dateNow b2)%Z /\
    (forall r,
       getField "requestId" r = VStr id ->
       truthy (getField "action" r) = false ->
       step b2 (MessageEvent r) = (b2, [])) /\
    step b2 (TimerFires h) = (b2, []).
Proof.
  intros b caller action data R id h b1 b2.
  pose proof (reachable_armed b R) as (F & _).
  set (t := mkTimer h (RequestTimeout id action caller)
              (Opt.requestTimeout (options b)) (dateNow b)).
  assert (Ft : findTimer h b1 = Some t).
  { unfold findTimer.
    replace (timers (host b1)) with (timers (host b) ++ [t])%list
      by (subst b1 t h id; open_bridge b; reflexivity).
    apply (find_fresh (timers (host b)) t). exact F. }
  assert (Hp : pendingFor (VStr id) b1 = Some (mkPending (InvokeCall caller) h)).
  { cbn [pendingFor].
    replace (pendingRequests b1)
      with (map_set id (mkPending (InvokeCall caller) h) (pendingRequests b))
      by (subst b1 h id; open_bridge b; reflexivity).
    apply map_get_set_same. }
  assert (St : step b1 (TimerFires h) =
               (deletePending (VStr id)
                  (set_host
                     (set_now (Z.max (dateNow (clearTimeout h b1))
                                 (armedAt t + Opt.honoured (delay t)))
                        (host (clearTimeout h b1))) (clearTimeout h b1)),
                [Settle caller (Rejected (mkError ("请求超时: " ++ action)))])).
  { cbn [step]. rewrite Ft. reflexivity. }
  assert (Hn : pendingFor (VStr id) b2 = None).
  { subst b2. rewrite St. cbn [fst pendingFor].
    destruct b1 as [? ? ? ? ? ? ? ? ? ? []]. cbn. apply map_get_delete_same. }
  assert (Hf : findTimer h b2 = None).
  { subst b2. rewrite St. cbn [fst]. unfold findTimer.
    destruct b1 as [? ? ? ? ? ? ? ? ? ? []]. cbn. apply find_cleared. }
  split; [exact Ft|]. split; [exact Hp|].
  split; [rewrite St; reflexivity|]. split; [exact Hn|].
  split.
  { subst b2. rewrite St. cbn [fst].
    assert (E : dateNow
                  (deletePending (VStr id)
                     (set_host
                        (set_now (Z.max (dateNow (clearTimeout h b1))
                                    (armedAt t + Opt.honoured (delay t)))
                           (host (clearTimeout h b1))) (clearTimeout h b1)))
                = Z.max (dateNow (clearTimeout h b1)) (armedAt t + Opt.honoured (delay t))).
    { destruct b1 as [? ? ? ? ? ? ? ? ? ? []]. reflexivity. }
    rewrite E. subst t. cbn [armedAt delay]. lia. }
  split.
  - intros r Hr Ha. cbn [step]. destruct (listening (host b2)); [|reflexivity].
    unfold handleMessage.
    destruct (negb (isObject r) || _); [reflexivity|].
    destruct (negb (isAllowedValue _ b2)); [reflexivity|].
    rewrite Ha. unfold handleResponseMessage. rewrite Hr, Hn.
    destruct (truthy (VStr id)); reflexivity.
  - cbn [step]. rewrite Hf. reflexivity.
Qed.

(** ** Callers stranded by [destroy] *)

Lemma stalled_step b ev :
  stalled b ->
  stalled (fst (step b ev)) /\
  settlements (snd (step b ev)) = [] /\
  exists more, waiters (fst (step b ev)) = (waiters b ++ more)%list.
Proof.
  intros (R & Rp & Ep & Et & L).
  destruct (readyPromise b) as [ws|] eqn:Erp; [clear Rp|congruence].
  assert (W : waiters b = ws) by (unfold waiters; rewrite Erp; reflexivity).
  rewrite W.
  destruct ev; cbn [step].
  - unfold invoke. rewrite R, Erp. cbn [fst snd].
    split; [|split; [reflexivity|]].
    + open_bridge b. unfold stalled. cbn. repeat split. discriminate.
    + exists [mkWaiter caller action data]. reflexivity.
  - split; [|split; [reflexivity|]].
    + open_bridge b. unfold stalled. cbn. repeat split. discriminate.
    + exists []. rewrite app_nil_r. open_bridge b. reflexivity.
  - split; [|split; [reflexivity|]].
    + open_bridge b. unfold stalled. cbn. repeat split. discriminate.
    + exists []. rewrite app_nil_r. open_bridge b. reflexivity.
  - split; [|split; [reflexivity|]].
    + open_bridge b. unfold stalled. cbn. repeat split. discriminate.
    + exists []. rewrite app_nil_r. open_bridge b. reflexivity.
  - split; [|split; [reflexivity|]].
    + open_bridge b. unfold stalled. cbn. repeat split. discriminate.
    + exists []. rewrite app_nil_r. open_bridge b. reflexivity.
  - split; [|split; [reflexivity|]].
    + open_bridge b. unfold stalled. cbn. repeat split. discriminate.
    + exists []. rewrite app_nil_r. open_bridge b. reflexivity.
  - rewrite destroy_spec, Ep. cbn [fold_left map fireAll fst snd].
    split; [|split; [reflexivity|]].
    + open_bridge b. unfold stalled. destruct hri; cbn; repeat split; discriminate.
    + exists []. rewrite app_nil_r. open_bridge b. destruct hri; reflexivity.
  - rewrite L. cbn [fst snd].
    split; [|split; [reflexivity|]].
    + unfold stalled. rewrite R, Erp, Ep, Et, L. repeat split. discriminate.
    + exists []. rewrite app_nil_r. exact W.
  - unfold findTimer. rewrite Et. cbn [find fst snd].
    split; [|split; [reflexivity|]].
    + unfold stalled. rewrite R, Erp, Ep, Et, L. repeat split. discriminate.
    + exists []. rewrite app_nil_r. exact W.
  - destruct (nth_error _ k) as [s|].
    + match goal with
      | |- context [resumeRequest s ?x] =>
          pose proof (resumeRequest_core s x) as
            (Hp & Ht & _ & Hr & Hrp & _ & _ & _ & Hl);
          pose proof (resumeRequest_quiet s x) as Q
      end.
      split; [|split; [exact Q|]].
      * unfold stalled. rewrite Hp, Ht, Hr, Hrp, Hl.
        open_bridge b. repeat split. discriminate.
      * exists []. rewrite app_nil_r. unfold waiters. rewrite Hrp.
        open_bridge b. reflexivity.
    + cbn [fst snd]. split; [|split; [reflexivity|]].
      * unfold stalled. rewrite R, Erp, Ep, Et, L. repeat split. discriminate.
      * exists []. rewrite app_nil_r. exact W.
  - split; [|split; [reflexivity|]].
    + open_bridge b. unfold stalled. cbn. repeat split. discriminate.
    + exists []. rewrite app_nil_r. open_bridge b. reflexivity.
Qed.

Lemma stalled_run evs : forall b,
  stalled b ->
  stalled (fst (run b evs)) /\
  settlements (snd (run b evs)) = [] /\
  exists more, waiters (fst (run b evs)) = (waiters b ++ more)%list.
Proof.
  induction evs as [|ev evs IH]; intros b S; cbn [run].
  - split; [exact S|]. split; [reflexivity|]. exists []. rewrite app_nil_r.
    reflexivity.
  - destruct (stalled_step b ev S) as (S1 & Q1 & [m1 W1]).
    destruct (step b ev) as [b1 e1]. cbn [fst snd] in *.
    destruct (IH b1 S1) as (S2 & Q2 & [m2 W2]).
    destruct (run b1 evs) as [b2 e2]. cbn [fst snd] in *.
    split; [exact S2|]. split; [rewrite settlements_app, Q1, Q2; reflexivity|].
    exists (m1 ++ m2)%list. rewrite W2, W1, app_assoc. reflexivity.
Qed.

(** X17 (destroy, stopHandshakeRetry, clearPendingRequests, ensureReady):
    [destroy] between two handshake attempts strands the callers.  When
    the last attempt has failed and the retry timer is armed, [destroy]
    clears that timer and finds nothing pending to reject, so it tells
    nobody; [readyPromise] stays set and nothing is left that could settle
    it.  Whatever happens afterwards, none of the parked callers is ever
    settled, the bridge never becomes ready, and every later [invoke]
    joins the parked callers without posting anything. *)
Theorem destroy_between_attempts_strands_the_callers :
  forall (b : Bridge) (evs : list Event),
    betweenAttempts b ->
    let d := fst (step b Destroy) in
    let b' := fst (run d evs) in
    snd (step b Destroy) = [] /\
    waiters d = waiters b /\
    timers (host d) = [] /\
    settlements (snd (run d evs)) = [] /\
    getReady b' = false /\
    (exists more, waiters b' = (waiters b ++ more)%list) /\
    (forall caller action data,
       step b' (Invoke caller action data) =
         (set_readyPromise
            (Some (waiters b' ++ [mkWaiter caller action data])%list) b', [])).
Proof.
  intros b evs (R & Ep & (h & ms & clock & Et & Eh) & Rp) d b'.
  destruct (readyPromise b) as [ws|] eqn:Erp; [clear Rp|congruence].
  assert (Sd : step b Destroy =
               (set_host (set_listening false (set_timers [] (host b)))
                  (set_messageHandlers [] (set_handshakeRetryInterval None b)),
                [])).
  { cbn [step]. rewrite destroy_spec, Ep. cbn [fold_left map fireAll].
    unfold stopHandshakeRetry. rewrite Eh.
    open_bridge b. cbn. rewrite Nat.eqb_refl. reflexivity. }
  assert (S : stalled d).
  { subst d. rewrite Sd. cbn [fst]. open_bridge b. unfold stalled. cbn.
    repeat split. discriminate. }
  assert (Wd : waiters d = waiters b).
  { subst d. rewrite Sd. open_bridge b. reflexivity. }
  destruct (stalled_run evs d S) as (S' & Q & [more W]). fold b' in S', W.
  split; [rewrite Sd; reflexivity|]. split; [exact Wd|].
  split; [apply S|]. split; [exact Q|].
  destruct S' as (R' & Rp' & _).
  split; [exact R'|]. split; [exists more; rewrite W, Wd; reflexivity|].
  intros caller action data. cbn [step]. unfold invoke. rewrite R'.
  unfold waiters. destruct (readyPromise b') as [ws'|]; [reflexivity|congruence].
Qed.

(** ** A handshake nobody answers *)

Lemma last_attempt_times_out b id h clock ws :
  attemptInFlight b id h clock ws ->
  Opt.ge (handshakeAttempts b + 1) (Opt.maxHandshakeAttempts (options b))
    = true ->
  FAILED (fst (step b (TimerFires h))) /\
  snd (step b (TimerFires h)) =
    map (fun w => Settle (w_caller w)
                    (Rejected (handshakeFailure (mkError "握手超时")))) ws /\
  pendingRequests (fst (step b (TimerFires h))) = [] /\
  timers (host (fst (step b (TimerFires h)))) = [] /\
  (clock + Opt.honoured (Opt.handshakeTimeout (options b)) <=
   dateNow (fst (step b (TimerFires h))))%Z.
Proof.
  intros (R & Ep & Et & En & Erp) Hm.
  open_bridge b. crunch. rewrite Hm.
  destruct hri; crunch; unfold FAILED; cbn; repeat split;
    solve [exact Hm | lia].
Qed.

Lemma failed_attempt_is_retried b id h clock ws :
  attemptInFlight b id h clock ws ->
  Opt.ge (handshakeAttempts b + 1) (Opt.maxHandshakeAttempts (options b))
    = false ->
  let b1 := fst (step b (TimerFires h)) in
  let b2 := fst (step b1 (TimerFires (S h))) in
  snd (step b (TimerFires h)) = [] /\
  (exists m, snd (step b1 (TimerFires (S h))) = [Post m] /\
             isHandshakeRequest m = true) /\
  (exists id' clock',
     attemptInFlight b2 id' (S (S h)) clock' ws /\
     (clock + Opt.honoured (Opt.handshakeTimeout (options b)) +
      Opt.honoured (Opt.handshakeRetryInterval (options b)) <= clock')%Z) /\
  handshakeAttempts b2 = (handshakeAttempts b + 1)%Z /\
  options b2 = options b.
Proof.
  intros (R & Ep & Et & En & Erp) Hm.
  open_bridge b. crunch. rewrite Hm. crunch.
  split; [reflexivity|]. split; [eexists; split; reflexivity|].
  split; [|split; reflexivity].
  eexists. eexists. split.
  - unfold attemptInFlight. cbn. repeat split.
  - lia.
Qed.

Lemma run_cons b ev evs :
  run b (ev :: evs) =
    (fst (run (fst (step b ev)) evs),
     (snd (step b ev) ++ snd (run (fst (step b ev)) evs))%list).
Proof.
  cbn [run]. destruct (step b ev) as [b1 e1]. cbn [fst snd].
  destruct (run b1 evs) as [b2 e2]. reflexivity.
Qed.

Lemma posted_rejections (ws : list Waiter) e :
  posted (map (fun w => Settle (w_caller w) (Rejected e)) ws) = [].
Proof. induction ws as [|w ws IH]; cbn; [reflexivity | exact IH]. Qed.

Lemma posted_post m effs : posted (Post m :: effs) = m :: posted effs.
Proof. reflexivity. Qed.

Lemma settlements_post m effs : settlements (Post m :: effs) = settlements effs.
Proof. reflexivity. Qed.

Lemma ge_false_below a a' s :
  (a <= a')%Z -> Opt.ge a' s = false -> Opt.ge a s = false.
Proof.
  intros Le H. destruct (Opt.ge a s) eqn:E; [|reflexivity].
  rewrite (ge_mono a a' s Le E) in H. discriminate.
Qed.

(** [k] failed attempts stay below the limit and the next one reaches it. *)
Lemma unanswered_run k : forall b id h clock ws,
  attemptInFlight b id h clock ws ->
  (k = 0 \/
   Opt.ge (handshakeAttempts b + Z.of_nat k)
     (Opt.maxHandshakeAttempts (options b)) = false) ->
  Opt.ge (handshakeAttempts b + Z.of_nat k + 1)
    (Opt.maxHandshakeAttempts (options b)) = true ->
  let r := run b (unanswered k h) in
  FAILED (fst r) /\
  settlements (snd r) =
    map (fun w => (w_caller w,
                   Rejected (handshakeFailure (mkError "握手超时")))) ws /\
  length (posted (snd r)) = k /\
  handshakeRequests (snd r) = posted (snd r) /\
  pendingRequests (fst r) = [] /\
  timers (host (fst r)) = [] /\
  (clock + (Z.of_nat k + 1) * Opt.honoured (Opt.handshakeTimeout (options b)) +
   Z.of_nat k * Opt.honoured (Opt.handshakeRetryInterval (options b))
   <= dateNow (fst r))%Z.
Proof.
  induction k as [|k IH]; intros b id h clock ws Shape Below Reach r; subst r.
  - cbn [unanswered]. rewrite run_cons. cbn [run fst snd].
    rewrite app_nil_r.
    destruct (last_attempt_times_out b id h clock ws Shape)
      as (F & E & Ep & Et & Hc).
    { rewrite <- Reach. f_equal. cbn [Z.of_nat]. lia. }
    rewrite E. unfold handshakeRequests. rewrite posted_rejections.
    split; [exact F|]. split; [apply map_settle_settlements|].
    repeat split; try assumption. cbn [Z.of_nat]. lia.
  - cbn [unanswered]. rewrite !run_cons. cbn [fst snd].
    destruct Below as [Below|Below]; [discriminate|].
    destruct (failed_attempt_is_retried b id h clock ws Shape)
      as (E1 & (m & E2 & Hm) & (id' & clock' & Shape' & Hc) & Ha & Ho).
    { apply (ge_false_below _ (handshakeAttempts b + Z.of_nat (S k))); [lia|].
      exact Below. }
    cbv zeta in E2, Shape', Ha, Ho.
    rewrite E1, E2. cbn [app].
    set (b2 := fst (step (fst (step b (TimerFires h))) (TimerFires (S h)))) in *.
    destruct (IH b2 id' (S (S h)) clock' ws Shape')
      as (F & Q & Lp & Hr & Ep & Et & Hc').
    { destruct k as [|k']; [left; reflexivity|]. right.
      rewrite Ho, Ha. rewrite <- Below. f_equal. lia. }
    { rewrite Ho, Ha. rewrite <- Reach. f_equal. lia. }
    rewrite Ho in Hc'.
    unfold handshakeRequests in *.
    rewrite posted_post, settlements_post. cbn [filter length].
    rewrite Hm, Hr, Lp.
    split; [exact F|]. split; [exact Q|].
    split; [reflexivity|]. split; [reflexivity|].
    split; [exact Ep|]. split; [exact Et|]. lia.
Qed.

(** No count reaches the limit: every failed attempt is retried. *)
Lemma unanswered_run_open k : forall b id h clock ws,
  attemptInFlight b id h clock ws ->
  (forall count,
     Opt.ge count (Opt.maxHandshakeAttempts (options b)) = false) ->
  let r := run b (unanswered k h) in
  settlements (snd r) = [] /\
  length (posted (snd r)) = k /\
  handshakeRequests (snd r) = posted (snd r) /\
  isReady (fst r) = false /\
  handshakeAttempts (fst r) = (handshakeAttempts b + Z.of_nat k + 1)%Z.
Proof.
  induction k as [|k IH]; intros b id h clock ws Shape Never r; subst r.
  - cbn [unanswered]. rewrite run_cons. cbn [run fst snd].
    rewrite app_nil_r.
    destruct (failed_attempt_is_retried b id h clock ws Shape (Never _))
      as (E1 & _).
    rewrite E1.
    pose proof Shape as (R & Ep & Et & En & Erp).
    pose proof (Never (handshakeAttempts b + 1)%Z) as Hm.
    repeat split.
    + open_bridge b. crunch. rewrite Hm. reflexivity.
    + open_bridge b. crunch. rewrite Hm. cbn. lia.
  - cbn [unanswered]. rewrite !run_cons. cbn [fst snd].
    destruct (failed_attempt_is_retried b id h clock ws Shape (Never _))
      as (E1 & (m & E2 & Hm) & (id' & clock' & Shape' & Hc) & Ha & Ho).
    cbv zeta in E2, Shape', Ha, Ho.
    rewrite E1, E2. cbn [app].
    set (b2 := fst (step (fst (step b (TimerFires h))) (TimerFires (S h)))) in *.
    destruct (IH b2 id' (S (S h)) clock' ws Shape')
      as (Q & Lp & Hr & R' & A').
    { intros count. rewrite Ho. apply Never. }
    unfold handshakeRequests in *.
    rewrite posted_post, settlements_post. cbn [filter length].
    rewrite Hm, Hr, Lp.
    split; [exact Q|]. split; [reflexivity|]. split; [reflexivity|].
    split; [exact R'|]. rewrite A', Ha. lia.
Qed.

(** X18 (ensureReady, performHandshakeWithRetry,
    sendSingleHandshakeRequest, stopHandshakeRetry): a handshake nobody
    answers.  On a bridge that is not ready and has no sequence running,
    [invoke] starts one; every attempt that times out is counted.  When
    the count after [k] more failures is still below
    [maxHandshakeAttempts] and the next one reaches it, the bridge posts
    [k + 1] probes and nothing else, then rejects the call with
    ["建联失败: Error: 握手超时"]; it ends with nothing pending and no
    timer armed, and not before every handshake timeout and retry
    interval the host honours has passed.  With the default limit of 10
    and no attempt counted that is 10 probes.  When no count reaches the
    limit - [maxHandshakeAttempts] given as [undefined], [NaN] or
    [Infinity] - the bridge never gives up: after any number of timeouts
    the call is still unsettled and another retry is under way. *)
Theorem unanswered_handshake_gives_up :
  forall (b : Bridge) (caller : nat) (action : string) (data : value)
         (k : nat),
    reachable b ->
    isReady b = false ->
    readyPromise b = None ->
    let limit := Opt.maxHandshakeAttempts (options b) in
    let r := run b (Invoke caller action data
                      :: unanswered k (nextTimer (host b))) in
    ((k = 0 \/ Opt.ge (handshakeAttempts b + Z.of_nat k) limit = false) ->
     Opt.ge (handshakeAttempts b + Z.of_nat k + 1) limit = true ->
     settlements (snd r) =
       [(caller, Rejected (mkError "建联失败: Error: 握手超时"))] /\
     length (posted (snd r)) = S k /\
     handshakeRequests (snd r) = posted (snd r) /\
     FAILED (fst r) /\
     pendingRequests (fst r) = [] /\
     timers (host (fst r)) = [] /\
     (dateNow b +
      (Z.of_nat k + 1) * Opt.honoured (Opt.handshakeTimeout (options b)) +
      Z.of_nat k * Opt.honoured (Opt.handshakeRetryInterval (options b))
      <= dateNow (fst r))%Z) /\
    ((forall n, limit = Opt.Int n ->
                k = Z.to_nat (n - handshakeAttempts b - 1) ->
                (k = 0 \/
                 Opt.ge (handshakeAttempts b + Z.of_nat k) limit = false) /\
                Opt.ge (handshakeAttempts b + Z.of_nat k + 1) limit = true)) /\
    ((limit = Opt.Undefined \/ limit = Opt.NaN \/ limit = Opt.Infinity) ->
     settlements (snd r) = [] /\
     length (posted (snd r)) = S k /\
     handshakeRequests (snd r) = posted (snd r) /\
     isReady (fst r) = false /\
     handshakeAttempts (fst r) = (handshakeAttempts b + Z.of_nat k + 1)%Z).
Proof.
  intros b caller action data k Rb R Erp limit r.
  pose proof (reachable_phase b Rb) as P.
  destruct (not_ready_cases b P R)
    as [[Ep Et] | [(id & h & ms & clock & ws & E1 & E2 & E3)
                  | (h & ms & clock & ws & E1 & E2 & E3 & E4)]];
    try congruence.
  set (b1 := fst (step b (Invoke caller action data))).
  assert (Shape : attemptInFlight b1 (fst (generateId b)) (nextTimer (host b))
                    (dateNow b) [mkWaiter caller action data]).
  { subst b1. cbn [step]. unfold invoke. rewrite R, Erp.
    open_bridge b. unfold attemptInFlight. cbn. repeat split. }
  assert (Ho : options b1 = options b /\ handshakeAttempts b1 = handshakeAttempts b).
  { subst b1. cbn [step]. unfold invoke. rewrite R, Erp.
    open_bridge b. split; reflexivity. }
  destruct Ho as [Ho Ha].
  destruct (attemptHandshake_posts b) as [m [Hp Hm]].
  assert (E0 : snd (step b (Invoke caller action data)) = [Post m]).
  { cbn [step]. unfold invoke. rewrite R, Erp.
    destruct (attemptHandshake b) as [b0 e0]. exact Hp. }
  assert (Er : r = (fst (run b1 (unanswered k (nextTimer (host b)))),
                    Post m :: snd (run b1 (unanswered k (nextTimer (host b)))))).
  { subst r. rewrite run_cons. fold b1. rewrite E0. reflexivity. }
  split; [|split].
  - intros Below Reach.
    destruct (unanswered_run k b1 (fst (generateId b)) (nextTimer (host b))
                (dateNow b) [mkWaiter caller action data] Shape)
      as (F & Q & Lp & Hr & Ep' & Et' & Hc).
    { rewrite Ho, Ha. exact Below. }
    { rewrite Ho, Ha. exact Reach. }
    rewrite Ho in Hc. rewrite Er. cbn [fst snd].
    unfold handshakeRequests in *.
    rewrite posted_post, settlements_post. cbn [filter length].
    rewrite Hm, Hr, Lp.
    split; [exact Q|].
    split; [reflexivity|]. split; [reflexivity|].
    repeat split; try assumption; apply F.
  - intros n En Ek. subst limit. rewrite En. cbn [Opt.ge]. split.
    + destruct k as [|k']; [left; reflexivity|]. right.
      apply Z.leb_gt. lia.
    + apply Z.leb_le. lia.
  - intros Hl.
    assert (Never : forall count,
              Opt.ge count (Opt.maxHandshakeAttempts (options b1)) = false).
    { intros count. rewrite Ho. fold limit.
      destruct Hl as [Hl|[Hl|Hl]]; rewrite Hl; reflexivity. }
    destruct (unanswered_run_open k b1 (fst (generateId b))
                (nextTimer (host b)) (dateNow b)
                [mkWaiter caller action data] Shape Never)
      as (Q & Lp & Hr & R' & A').
    rewrite Er. cbn [fst snd].
    unfold handshakeRequests in *.
    rewrite posted_post, settlements_post. cbn [filter length].
    rewrite Hm, Hr, Lp.
    split; [exact Q|]. split; [reflexivity|]. split; [reflexivity|].
    split; [exact R'|]. rewrite A', Ha. reflexivity.
Qed.

(** ** The calls parked behind a handshake *)

Lemma posted_app e1 e2 : posted (e1 ++ e2) = (posted e1 ++ posted e2)%list.
Proof. unfold posted. apply flat_map_app. Qed.

Lemma resumeInvokes_sends ws : forall b,
  map asks (posted (snd (resumeInvokes ws b))) = map asked ws /\
  map timerCall (timers (host (fst (resumeInvokes ws b)))) =
    (map timerCall (timers (host b)) ++
     map (fun w => Some (w_caller w, w_action w)) ws)%list.
Proof.
  induction ws as [|w ws IH]; intros b; cbn [resumeInvokes].
  - cbn. rewrite app_nil_r. split; reflexivity.
  - destruct (invokeRequest (w_caller w) (w_action w) (w_data w) b)
      as [b1 e1] eqn:E1.
    destruct (IH b1) as [H1 H2].
    destruct (resumeInvokes ws b1) as [b2 e2]. cbn [fst snd] in *.
    assert (Eb : b1 = fst (invokeRequest (w_caller w) (w_action w) (w_data w) b))
      by (rewrite E1; reflexivity).
    assert (Ee : e1 = snd (invokeRequest (w_caller w) (w_action w) (w_data w) b))
      by (rewrite E1; reflexivity).
    clear E1. rewrite posted_app, map_app, H1, H2. subst b1 e1.
    split.
    + open_bridge b. reflexivity.
    + open_bridge b. rewrite map_app, <- app_assoc. reflexivity.
Qed.

(** X19 (ensureReady, invoke, performHandshakeWithRetry,
    handleResponseMessage): the calls parked behind a handshake are sent
    when it succeeds.  When the success response to the probe in flight is
    delivered, the bridge becomes ready, [readyPromise] is cleared, and in
    that same turn every parked [invoke] posts its own request, in the
    order the calls were made, each with its action and data and with
    [needResponse] true, and each under a timeout timer of its own; no
    caller is settled yet, and nothing of the handshake is left armed. *)
Theorem parked_calls_are_sent_in_order :
  forall (b : Bridge) (r : value) (p : Pending),
    reachable b ->
    isReady b = false ->
    listening (host b) = true ->
    isObject r = true ->
    strictEqStr (getField "type" r) (messageType b) = true ->
    isAllowedValue (getField "communicationId" r) b = true ->
    truthy (getField "action" r) = false ->
    truthy (getField "requestId" r) = true ->
    pendingFor (getField "requestId" r) b = Some p ->
    truthy (getField "success" r) = true ->
    let b' := fst (step b (MessageEvent r)) in
    let effs := snd (step b (MessageEvent r)) in
    getReady b' = true /\
    readyPromise b' = None /\
    map asks (posted effs) = map asked (waiters b) /\
    length (posted effs) = length (waiters b) /\
    settlements effs = [] /\
    map timerCall (timers (host b')) =
      map (fun w => Some (w_caller w, w_action w)) (waiters b) /\
    handshakesInFlight b' = 0.
Proof.
  intros b r p Rb R L Ho Ht Ha Hact Hrid Hp Hs b' effs.
  pose proof (reachable_phase b Rb) as P.
  assert (P' : phase b') by (apply phase_step; exact P).
  assert (St : step b (MessageEvent r) =
               fire (callbacks p) (Resolved (getField "data" r))
                 (deletePending (getField "requestId" r)
                    (clearTimeout (timeout p) b)))
    by (apply deliver_response_ok; assumption).
  destruct (getField "requestId" r) as [| | | |rid|] eqn:Er; try discriminate.
  cbn [pendingFor] in Hp.
  destruct (not_ready_cases b P R)
    as [[E1 E2] | [(id & h & ms & clock & ws & E1 & E2 & E3)
                  | (h & ms & clock & ws & E1 & E2 & E3 & E4)]].
  - rewrite E1 in Hp. discriminate.
  - rewrite E1 in Hp. cbn [map_get] in Hp.
    destruct (id =? rid) eqn:Eid; [|discriminate].
    apply String.eqb_eq in Eid. subst rid.
    inversion Hp; subst p. clear Hp. cbn [callbacks timeout fire] in St.
    set (b3 := set_readyPromise None
                 (stopHandshakeRetry
                    (set_isReady true
                       (deletePending (VStr id) (clearTimeout h b))))).
    assert (Et : timers (host b3) = []).
    { subst b3. open_bridge b. destruct hri; crunch; reflexivity. }
    assert (Ef : isReady b3 = true /\ readyPromise b3 = None).
    { subst b3. open_bridge b. destruct hri; crunch; split; reflexivity. }
    assert (Sr : step b (MessageEvent r) = resumeInvokes ws b3).
    { rewrite St. unfold attemptHandshake_then, resolveReady.
      replace (readyPromise
                 (stopHandshakeRetry
                    (set_isReady true
                       (deletePending (VStr id) (clearTimeout h b)))))
        with (Some ws); [reflexivity|].
      open_bridge b. destruct hri; crunch; reflexivity. }
    assert (W : waiters b = ws) by (unfold waiters; rewrite E3; reflexivity).
    destruct (resumeInvokes_sends ws b3) as [S1 S2].
    destruct (resumeInvokes_fields ws b3) as (F1 & _ & _ & F4 & _ & F6).
    destruct Ef as [Ef1 Ef2].
    subst b' effs. rewrite Sr in *. rewrite W.
    split; [unfold getReady; congruence|].
    split; [congruence|]. split; [exact S1|].
    split.
    { rewrite <- (length_map asks), S1, length_map. reflexivity. }
    split; [exact F6|].
    split; [rewrite S2, Et; reflexivity|].
    destruct (phase_inFlight _ P') as [Le One].
    destruct (handshakesInFlight _) as [|[|n]]; [reflexivity | | lia].
    destruct (One eq_refl) as [Fr _]. congruence.
  - rewrite E1 in Hp. discriminate.
Qed.

(** ** The further properties on the sample bridges *)

Lemma reachable_peerB : reachable peerB.
Proof.
  change peerB with
    (fst (step (createBridge "b" (allowing ["a"]) (freshHost 1000 randomB))
            (Handle "echo" echo))).
  apply reachable_step, reachable_new.
Qed.

Lemma reachable_probing : reachable probing.
Proof. unfold probing, defaultA. apply reachable_step, reachable_new. Qed.

Lemma reachable_selfReady : reachable selfReady.
Proof.
  unfold selfReady, answering. apply reachable_step, reachable_step.
  exact reachable_probing.
Qed.

Lemma request_without_response_is_never_answered_witness :
  truthy (getField "needResponse" notice) = false /\
  posted (snd (handleRequestMessage notice peerB)) = [] /\
  settlements (snd (handleRequestMessage notice peerB)) = [].
Proof.
  split; [reflexivity|].
  destruct (request_without_response_is_never_answered notice peerB eq_refl)
    as (H1 & H2 & _).
  split; assumption.
Defined.

Lemma handler_failure_is_reported_witness :
  handlerFor (getField "action" failRequest) peerB_failing = Some failing /\
  exists r,
    handleRequestMessage failRequest peerB_failing =
      (snd (generateId peerB_failing),
       [handlerLog (VStr "fail") (ThrowError (mkError "boom")); Post r]) /\
    getField "requestId" r = VStr "1000-a0" /\
    getField "success" r = VBool false /\
    getField "error" r = VStr "boom".
Proof.
  split; [reflexivity|].
  destruct (handler_failure_is_reported failRequest peerB_failing failing
              (ThrowError (mkError "boom")) eq_refl)
    as (H1 & _ & R1 & R2 & _ & R4).
  eexists. split; [exact (H1 eq_refl)|].
  split; [exact R1|]. split; [exact R2 | exact R4].
Defined.

Lemma handler_failure_reaches_the_caller_witness :
  handlerFor (getField "action" failRequest) peerB_failing = Some failing /\
  pendingFor (getField "id" failRequest) callingFail =
    Some (mkPending (InvokeCall 7) 1) /\
  exists r,
    posted (snd (handleRequestMessage failRequest peerB_failing)) = [r] /\
    snd (handleResponseMessage r callingFail) =
      [Settle 7 (Rejected (mkError "boom"))].
Proof.
  split; [reflexivity|]. split; [reflexivity|].
  exact (handler_failure_reaches_the_caller failRequest peerB_failing failing
           (ThrowError (mkError "boom")) callingFail
           (mkPending (InvokeCall 7) 1) 7
           eq_refl eq_refl eq_refl eq_refl eq_refl).
Defined.

Lemma responses_commute_witness :
  map_get "1000-a0" (pendingRequests twoCalls) = Some (mkPending (InvokeCall 7) 1) /\
  map_get "1000-a1" (pendingRequests twoCalls) = Some (mkPending (InvokeCall 8) 2) /\
  exists b1 b2 b12,
    handleResponseMessage (replyTo "1000-a0" payload) twoCalls =
      (b1, [Settle 7 (Resolved payload)]) /\
    handleResponseMessage (replyTo "1000-a1" VNull) b1 =
      (b12, [Settle 8 (Resolved VNull)]) /\
    handleResponseMessage (replyTo "1000-a1" VNull) twoCalls =
      (b2, [Settle 8 (Resolved VNull)]) /\
    handleResponseMessage (replyTo "1000-a0" payload) b2 =
      (b12, [Settle 7 (Resolved payload)]).
Proof.
  split; [reflexivity|]. split; [reflexivity|].
  destruct (responses_commute (replyTo "1000-a0" payload)
              (replyTo "1000-a1" VNull) twoCalls "1000-a0" "1000-a1"
              (mkPending (InvokeCall 7) 1) (mkPending (InvokeCall 8) 2) 7 8
              eq_refl eq_refl ltac:(discriminate) eq_refl eq_refl
              eq_refl eq_refl)
    as (b1 & b2 & b12 & H1 & H2 & _ & _ & H5 & H6 & _).
  exists b1, b2, b12.
  split; [exact H1|]. split; [exact H5|]. split; [exact H2 | exact H6].
Defined.

Lemma ready_is_permanent_witness :
  reachable selfReady /\
  isReady selfReady = true /\
  getReady (fst (run selfReady [Destroy; Invoke 9 "echo" VNull; TimerFires 2]))
    = true /\
  handshakesInFlight
    (fst (run selfReady [Destroy; Invoke 9 "echo" VNull; TimerFires 2])) = 0.
Proof.
  split; [exact reachable_selfReady|]. split; [reflexivity|].
  destruct (ready_is_permanent selfReady
              [Destroy; Invoke 9 "echo" VNull; TimerFires 2]
              reachable_selfReady eq_refl)
    as (H1 & _ & H3 & _).
  split; assumption.
Defined.

Lemma only_a_response_fulfils_witness :
  carriesSuccess probing (TimerFires 1) = false /\
  getReady (fst (step probing (TimerFires 1))) = getReady probing /\
  fulfilled (snd (step probing (TimerFires 1))) = [].
Proof.
  split; [reflexivity|].
  apply (only_a_response_fulfils probing (TimerFires 1) eq_refl).
Defined.

Lemma tables_are_well_formed_witness :
  reachable peerB /\
  messageType peerB <> "" /\
  NoDup (map_keys (messageHandlers peerB)) /\
  step peerB (MessageEvent (VObj [("action", VStr "echo")])) = (peerB, []).
Proof.
  split; [exact reachable_peerB|].
  destruct (tables_are_well_formed peerB (VObj [("action", VStr "echo")])
              reachable_peerB)
    as (H1 & _ & H3 & H4).
  split; [exact H1|]. split; [exact H3|]. apply H4. left. reflexivity.
Defined.

Lemma handshake_probe_is_answered_witness :
  existsb writesHandlers [AddAllowedId "c"; Invoke 3 "sum" VNull] = false /\
  isProbe probeOfA /\
  exists r,
    snd (step (fst (run (createBridge "b" (allowing ["a"])
                           (freshHost 1000 randomB))
                      [AddAllowedId "c"; Invoke 3 "sum" VNull]))
           (MessageEvent probeOfA)) = [Post r] /\
    getField "requestId" r = VStr "1000-a0" /\
    getField "success" r = VBool true.
Proof.
  split; [reflexivity|].
  assert (P : isProbe probeOfA) by (repeat split).
  split; [exact P|].
  destruct (handshake_probe_is_answered "b" (allowing ["a"]) 1000%Z randomB
              [AddAllowedId "c"; Invoke 3 "sum" VNull] probeOfA
              eq_refl P eq_refl eq_refl)
    as (r & H1 & H2 & H3 & _).
  exists r. split; [rewrite H1; reflexivity|]. split; assumption.
Defined.

Lemma pending_entries_are_guarded_witness :
  reachable probing /\
  In ("1000-a0", mkPending HandshakeAttempt 1) (pendingRequests probing) /\
  exists t,
    findTimer 1 probing = Some t /\
    callback t = HandshakeTimeout "1000-a0" /\
    pendingFor (VStr "1000-a0") (fst (step probing (TimerFires 1))) = None.
Proof.
  split; [exact reachable_probing|].
  assert (Hin : In ("1000-a0", mkPending HandshakeAttempt 1)
                  (pendingRequests probing)) by (left; reflexivity).
  split; [exact Hin|].
  destruct (pending_entries_are_guarded probing "1000-a0"
              (mkPending HandshakeAttempt 1) reachable_probing Hin)
    as (t & H1 & [_ H2] & H3 & _).
  exists t. split; [exact H1|]. split; [exact H2 | exact H3].
Defined.

Lemma unanswered_request_times_out_witness :
  reachable peerA /\
  snd (step (fst (invokeRequest 7 "echo" payload peerA)) (TimerFires 1)) =
    [Settle 7 (Rejected (mkError "请求超时: echo"))] /\
  pendingFor (VStr "1000-a0")
    (fst (step (fst (invokeRequest 7 "echo" payload peerA)) (TimerFires 1)))
    = None.
Proof.
  assert (R : reachable peerA) by apply reachable_new.
  split; [exact R|].
  destruct (unanswered_request_times_out peerA 7 "echo" payload R)
    as (_ & _ & H3 & H4 & _).
  split; [exact H3 | exact H4].
Defined.

Lemma destroy_between_attempts_strands_the_callers_witness :
  betweenAttempts retrying /\
  snd (step retrying Destroy) = [] /\
  waiters (fst (step retrying Destroy)) = [mkWaiter 7 "echo" payload] /\
  settlements
    (snd (run (fst (step retrying Destroy))
            [Invoke 8 "echo" VNull; TimerFires 2; Elapse 100000])) = [].
Proof.
  assert (B : betweenAttempts retrying).
  { split; [reflexivity|]. split; [reflexivity|]. split; [|discriminate].
    exists 2, (Opt.Int 1000), 1500%Z. split; reflexivity. }
  split; [exact B|].
  destruct (destroy_between_attempts_strands_the_callers retrying
              [Invoke 8 "echo" VNull; TimerFires 2; Elapse 100000] B)
    as (H1 & H2 & _ & H4 & _).
  split; [exact H1|]. split; [exact H2 | exact H4].
Defined.

Lemma unanswered_handshake_gives_up_witness :
  reachable defaultA /\
  isReady defaultA = false /\
  readyPromise defaultA = None /\
  settlements (snd (run defaultA (Invoke 7 "echo" payload :: unanswered 9 1))) =
    [(7, Rejected (mkError "建联失败: Error: 握手超时"))] /\
  length (posted (snd (run defaultA
                         (Invoke 7 "echo" payload :: unanswered 9 1)))) = 10.
Proof.
  assert (R : reachable defaultA) by apply reachable_new.
  split; [exact R|]. split; [reflexivity|]. split; [reflexivity|].
  destruct (unanswered_handshake_gives_up defaultA 7 "echo" payload 9 R
              eq_refl eq_refl)
    as (H & _).
  destruct (H (or_intror eq_refl) eq_refl) as (H1 & H2 & _).
  split; [exact H1 | exact H2].
Defined.

Lemma parked_calls_are_sent_in_order_witness :
  reachable threeParked /\
  pendingFor (getField "requestId" probeAnswer) threeParked =
    Some (mkPending HandshakeAttempt 1) /\
  map asks (posted (snd (step threeParked (MessageEvent probeAnswer)))) =
    [(VStr "echo", payload, VBool true);
     (VStr "sum", VNull, VBool true);
     (VStr "echo", VNum 3, VBool true)] /\
  getReady (fst (step threeParked (MessageEvent probeAnswer))) = true.
Proof.
  assert (R : reachable threeParked).
  { unfold threeParked. apply reachable_run. exact reachable_probing. }
  split; [exact R|]. split; [reflexivity|].
  destruct (parked_calls_are_sent_in_order threeParked probeAnswer
              (mkPending HandshakeAttempt 1) R
              eq_refl eq_refl eq_refl eq_refl eq_refl eq_refl eq_refl
              eq_refl eq_refl)
    as (H1 & _ & H3 & _).
  split; [exact H3 | exact H1].
Defined.

(** * The handshake, event by event *)

(** A pending handshake attempt is all there is in the tables. *)
Lemma attempt_shape b id p :
  reachable b -> In (id, p) (pendingRequests b) ->
  callbacks p = HandshakeAttempt ->
  isReady b = false /\
  p = mkPending HandshakeAttempt (timeout p) /\
  pendingRequests b = [(id, p)] /\
  (exists ms clock,
     timers (host b) = [mkTimer (timeout p) (HandshakeTimeout id) ms clock]) /\
  (exists ws, readyPromise b = Some ws).
Proof.
  intros Rb Hin Hc. pose proof (reachable_phase b Rb) as P.
  destruct P as [R F1 F2 | R E1 E2 | id0 h ms clock ws R E1 E2 E3
                | h ms clock ws R E1 E2 E3 E4].
  - rewrite Forall_forall in F1. specialize (F1 _ Hin).
    unfold isInvokeEntry, isHandshakeEntry in F1. cbn in F1.
    rewrite Hc in F1. discriminate.
  - rewrite E1 in Hin. destruct Hin.
  - rewrite E1 in Hin. destruct Hin as [Hin|[]]. inversion Hin; subst id p.
    cbn [timeout]. repeat split; try assumption.
    + exists ms, clock. exact E2.
    + exists ws. exact E3.
  - rewrite E1 in Hin. destruct Hin.
Qed.

Lemma attempt_fails b id p ev :
  reachable b -> In (id, p) (pendingRequests b) ->
  callbacks p = HandshakeAttempt ->
  failsAttempt b id p ev ->
  isReady b = false /\
  handshakeAttempts (fst (step b ev)) = (handshakeAttempts b + 1)%Z /\
  isReady (fst (step b ev)) = false /\
  pendingRequests (fst (step b ev)) = [] /\
  options (fst (step b ev)) = options b /\
  (Opt.ge (handshakeAttempts b + 1) (Opt.maxHandshakeAttempts (options b))
     = true ->
   snd (step b ev) = giveUp (attemptError ev) (waiters b) /\
   readyPromise (fst (step b ev)) = None /\
   handshakeRetryInterval (fst (step b ev)) = None /\
   timers (host (fst (step b ev))) = []) /\
  (Opt.ge (handshakeAttempts b + 1) (Opt.maxHandshakeAttempts (options b))
     = false ->
   snd (step b ev) = [] /\
   readyPromise (fst (step b ev)) = readyPromise b /\
   handshakeRetryInterval (fst (step b ev)) = Some (nextTimer (host b)) /\
   timers (host (fst (step b ev))) =
     [mkTimer (nextTimer (host b)) HandshakeRetry
        (Opt.handshakeRetryInterval (options b))
        (dateNow (fst (step b ev)))] /\
   nextTimer (host (fst (step b ev))) = S (nextTimer (host b))).
Proof.
  intros Rb Hin Hc Hf.
  destruct (attempt_shape b id p Rb Hin Hc)
    as (R & Ep & E1 & (ms & clock & E2) & (ws & E3)).
  split; [exact R|].
  assert (W : waiters b = ws) by (unfold waiters; rewrite E3; reflexivity).
  rewrite W. unfold giveUp.
  destruct p as [cb h]. cbn [timeout] in *. inversion Ep; subst cb. clear Ep Hc.
  destruct ev; cbn [failsAttempt] in Hf; try contradiction.
  - (* destroy *)
    clear Hf. open_bridge b.
    destruct hri as [h0|]; crunch;
      try (destruct (h =? h0)%nat; crunch);
      destruct (Opt.ge (ha + 1) (Opt.maxHandshakeAttempts opts)) eqn:Em;
      crunch; rewrite ?app_nil_r;
      repeat split; intros; try reflexivity; try discriminate.
  - (* response *)
    destruct Hf as ((L & Ho & Ht & Ha & Hact & Hrid & Tid) & Hs).
    cbn [step]. rewrite L. unfold handleMessage.
    rewrite Ho, Ht, Ha, Hact, Hrid, Tid. cbn [negb orb].
    cbv beta iota zeta. unfold handleResponseMessage. cbv zeta.
    rewrite Hrid, Hs. cbn [pendingFor].
    rewrite E1. cbn [map_get]. rewrite String.eqb_refl.
    cbn [callbacks timeout fire attemptError app].
    open_bridge b. crunch.
    destruct (Opt.ge (ha + 1) (Opt.maxHandshakeAttempts opts)) eqn:Em;
      destruct hri; crunch;
      repeat split; intros; try reflexivity; try discriminate.
  - (* timeout *)
    subst h0. open_bridge b. crunch.
    destruct (Opt.ge (ha + 1) (Opt.maxHandshakeAttempts opts)) eqn:Em;
      destruct hri; crunch;
      repeat split; intros; try reflexivity; try discriminate.
Qed.

Lemma attempt_succeeds b id p msg :
  reachable b -> In (id, p) (pendingRequests b) ->
  callbacks p = HandshakeAttempt ->
  respondsTo b id msg -> truthy (getField "success" msg) = true ->
  isReady (fst (step b (MessageEvent msg))) = true /\
  readyPromise (fst (step b (MessageEvent msg))) = None /\
  handshakeRetryInterval (fst (step b (MessageEvent msg))) = None /\
  handshakeAttempts (fst (step b (MessageEvent msg))) = handshakeAttempts b /\
  settlements (snd (step b (MessageEvent msg))) = [] /\
  handshakesInFlight (fst (step b (MessageEvent msg))) = 0.
Proof.
  intros Rb Hin Hc (L & Ho & Ht & Ha & Hact & Hrid & Tid) Hs.
  destruct (attempt_shape b id p Rb Hin Hc)
    as (R & Ep & E1 & (ms & clock & E2) & (ws & E3)).
  pose proof (phase_step b (MessageEvent msg) (reachable_phase b Rb)) as P'.
  destruct p as [cb h]. cbn [timeout] in *. inversion Ep; subst cb. clear Ep Hc.
  assert (St : step b (MessageEvent msg) =
               attemptHandshake_then
                 (deletePending (VStr id) (clearTimeout h b))).
  { cbn [step]. rewrite L. unfold handleMessage.
    rewrite Ho, Ht, Ha, Hact, Hrid, Tid. cbn [negb orb].
    cbv beta iota zeta. unfold handleResponseMessage. cbv zeta.
    rewrite Hrid, Hs. cbn [pendingFor].
    rewrite E1. cbn [map_get]. rewrite String.eqb_refl.
    cbn [callbacks timeout fire app].
    destruct (attemptHandshake_then _) as [b2 e2]. reflexivity. }
  set (b3 := set_readyPromise None
               (stopHandshakeRetry
                  (set_isReady true
                     (deletePending (VStr id) (clearTimeout h b))))).
  assert (Sr : step b (MessageEvent msg) = resumeInvokes ws b3).
  { rewrite St. unfold attemptHandshake_then, resolveReady.
    replace (readyPromise
               (stopHandshakeRetry
                  (set_isReady true
                     (deletePending (VStr id) (clearTimeout h b)))))
      with (Some ws); [reflexivity|].
    open_bridge b. destruct hri; crunch; reflexivity. }
  assert (Ef : isReady b3 = true /\ readyPromise b3 = None /\
               handshakeRetryInterval b3 = None /\
               handshakeAttempts b3 = handshakeAttempts b).
  { subst b3. open_bridge b. destruct hri; crunch; repeat split. }
  destruct Ef as (Ef1 & Ef2 & Ef3 & Ef4).
  destruct (resumeInvokes_fields ws b3) as (F1 & F2 & F3 & F4 & _ & F6).
  rewrite Sr in *.
  assert (Rd : isReady (fst (resumeInvokes ws b3)) = true) by congruence.
  split; [exact Rd|]. split; [congruence|]. split; [congruence|].
  split; [congruence|]. split; [exact F6|].
  destruct (phase_inFlight _ P') as [Le One].
  destruct (handshakesInFlight _) as [|[|n]]; [reflexivity | | lia].
  destruct (One eq_refl) as [Fr _]. congruence.
Qed.

(** An attempt starts: by the first [invoke] on a bridge with no sequence
    running, and by the retry timer. *)
Lemma invoke_starts_attempt b caller action data :
  reachable b -> isReady b = false -> readyPromise b = None ->
  exists m,
    snd (step b (Invoke caller action data)) = [Post m] /\
    getField "action" m = VStr HANDSHAKE_ACTION /\
    getField "needResponse" m = VBool true /\
    getField "id" m = VStr (fst (generateId b)) /\
    pendingRequests (fst (step b (Invoke caller action data))) =
      [(fst (generateId b),
        mkPending HandshakeAttempt (nextTimer (host b)))] /\
    timers (host (fst (step b (Invoke caller action data)))) =
      [mkTimer (nextTimer (host b)) (HandshakeTimeout (fst (generateId b)))
         (Opt.handshakeTimeout (options b)) (dateNow b)] /\
    waiters (fst (step b (Invoke caller action data))) =
      [mkWaiter caller action data] /\
    handshakeAttempts (fst (step b (Invoke caller action data))) =
      handshakeAttempts b.
Proof.
  intros Rb R Erp. pose proof (reachable_phase b Rb) as P.
  destruct (not_ready_cases b P R)
    as [[Ep Et] | [(id & h & ms & clock & ws & E1 & E2 & E3)
                  | (h & ms & clock & ws & E1 & E2 & E3 & E4)]];
    try congruence.
  open_bridge b. eexists. crunch. repeat split.
Qed.

Lemma retry_starts_attempt b h ms clock :
  timers (host b) = [mkTimer h HandshakeRetry ms clock] ->
  pendingRequests b = [] ->
  exists m id,
    snd (step b (TimerFires h)) = [Post m] /\
    getField "action" m = VStr HANDSHAKE_ACTION /\
    getField "needResponse" m = VBool true /\
    getField "id" m = VStr id /\
    pendingRequests (fst (step b (TimerFires h))) =
      [(id, mkPending HandshakeAttempt (nextTimer (host b)))] /\
    timers (host (fst (step b (TimerFires h)))) =
      [mkTimer (nextTimer (host b)) (HandshakeTimeout id)
         (Opt.handshakeTimeout (options b))
         (dateNow (fst (step b (TimerFires h))))] /\
    (clock + Opt.honoured ms <= dateNow (fst (step b (TimerFires h))))%Z /\
    handshakeAttempts (fst (step b (TimerFires h))) = handshakeAttempts b /\
    readyPromise (fst (step b (TimerFires h))) = readyPromise b.
Proof.
  intros Et Ep. open_bridge b. eexists. eexists. crunch.
  repeat split. lia.
Qed.

(** C3. An attempt starts with the first [invoke] on a bridge that has no
    sequence running, and with the retry timer; each start posts exactly
    one request under the reserved handshake action, correlated by a
    fresh id, and arms one timer with the per-attempt [handshakeTimeout]
    (500 ms by default, where [requestTimeout] is 30000 ms).  The attempt
    fails when that timer expires, when a response without a truthy
    [success] answers it, or when [destroy] rejects it: each of these
    events removes the entry and counts one attempt.  If the count has
    then reached [maxHandshakeAttempts], every caller waiting is rejected
    with an error that wraps the error of this attempt, and nothing is
    left armed.  Otherwise nobody is told, and one retry timer is armed
    with a delay of exactly [handshakeRetryInterval]; when it fires, not
    before the delay the host honours has passed, the next attempt starts
    in the same way.  The attempt succeeds when a response with a truthy
    [success] answers it: the bridge is ready, the handle of the retry
    timer is cleared, and no attempt or retry is left in flight. *)
Theorem handshake_attempt_protocol :
  forall b : Bridge,
    reachable b ->
    (isReady b = false -> readyPromise b = None ->
     forall caller action data,
     exists m,
       snd (step b (Invoke caller action data)) = [Post m] /\
       getField "action" m = VStr HANDSHAKE_ACTION /\
       getField "needResponse" m = VBool true /\
       getField "id" m = VStr (fst (generateId b)) /\
       pendingRequests (fst (step b (Invoke caller action data))) =
         [(fst (generateId b),
           mkPending HandshakeAttempt (nextTimer (host b)))] /\
       timers (host (fst (step b (Invoke caller action data)))) =
         [mkTimer (nextTimer (host b))
            (HandshakeTimeout (fst (generateId b)))
            (Opt.handshakeTimeout (options b)) (dateNow b)]) /\
    (Opt.handshakeTimeout Opt.defaults = Opt.Int 500 /\
     Opt.requestTimeout Opt.defaults = Opt.Int 30000 /\
     (Opt.honoured (Opt.handshakeTimeout Opt.defaults) <
      Opt.honoured (Opt.requestTimeout Opt.defaults))%Z) /\
    (forall id p ev,
       In (id, p) (pendingRequests b) ->
       callbacks p = HandshakeAttempt ->
       failsAttempt b id p ev ->
       let limit := Opt.maxHandshakeAttempts (options b) in
       let b' := fst (step b ev) in
       handshakeAttempts b' = (handshakeAttempts b + 1)%Z /\
       pendingRequests b' = [] /\
       isReady b' = false /\
       (Opt.ge (handshakeAttempts b + 1) limit = true ->
        snd (step b ev) = giveUp (attemptError ev) (waiters b) /\
        FAILED b' /\
        handshakeRetryInterval b' = None /\
        timers (host b') = []) /\
       (Opt.ge (handshakeAttempts b + 1) limit = false ->
        snd (step b ev) = [] /\
        waiters b' = waiters b /\
        handshakeRetryInterval b' = Some (nextTimer (host b)) /\
        timers (host b') =
          [mkTimer (nextTimer (host b)) HandshakeRetry
             (Opt.handshakeRetryInterval (options b)) (dateNow b')] /\
        exists m id',
          let b'' := fst (step b' (TimerFires (nextTimer (host b)))) in
          snd (step b' (TimerFires (nextTimer (host b)))) = [Post m] /\
          getField "action" m = VStr HANDSHAKE_ACTION /\
          getField "needResponse" m = VBool true /\
          getField "id" m = VStr id' /\
          pendingRequests b'' =
            [(id', mkPending HandshakeAttempt (S (nextTimer (host b))))] /\
          timers (host b'') =
            [mkTimer (S (nextTimer (host b))) (HandshakeTimeout id')
               (Opt.handshakeTimeout (options b)) (dateNow b'')] /\
          (dateNow b' +
           Opt.honoured (Opt.handshakeRetryInterval (options b))
           <= dateNow b'')%Z /\
          handshakeAttempts b'' = (handshakeAttempts b + 1)%Z /\
          waiters b'' = waiters b)) /\
    (forall id p msg,
       In (id, p) (pendingRequests b) ->
       callbacks p = HandshakeAttempt ->
       respondsTo b id msg ->
       truthy (getField "success" msg) = true ->
       let b' := fst (step b (MessageEvent msg)) in
       isReady b' = true /\
       readyPromise b' = None /\
       handshakeRetryInterval b' = None /\
       handshakesInFlight b' = 0 /\
       handshakeAttempts b' = handshakeAttempts b /\
       settlements (snd (step b (MessageEvent msg))) = []).
Proof.
  intros b Rb.
  split; [|split; [|split]].
  - intros R Erp caller action data.
    destruct (invoke_starts_attempt b caller action data Rb R Erp)
      as (m & H1 & H2 & H3 & H4 & H5 & H6 & _).
    exists m. repeat split; assumption.
  - repeat split.
  - intros id p ev Hin Hc Hf limit b'.
    destruct (attempt_fails b id p ev Rb Hin Hc Hf)
      as (R & A & R' & Ep' & Ho & Hmax & Hmore).
    fold b' in A, R', Ep', Ho, Hmax, Hmore.
    split; [exact A|]. split; [exact Ep'|]. split; [exact R'|].
    split.
    + intros Hm. destruct (Hmax Hm) as (E & Erp & Eh & Et).
      split; [exact E|]. split; [|split; assumption].
      unfold FAILED. rewrite A, Ho. repeat split; assumption.
    + intros Hm. destruct (Hmore Hm) as (E & Erp & Eh & Et & En).
      split; [exact E|].
      split; [unfold waiters; rewrite Erp; reflexivity|].
      split; [exact Eh|]. split; [exact Et|].
      destruct (retry_starts_attempt b' (nextTimer (host b))
                  (Opt.handshakeRetryInterval (options b)) (dateNow b')
                  Et Ep')
        as (m & id' & H1 & H2 & H3 & H4 & H5 & H6 & H7 & H8 & H9).
      exists m, id'. cbv zeta. rewrite En, Ho in *.
      repeat split; try assumption.
      * congruence.
      * unfold waiters. rewrite H9, Erp. reflexivity.
  - intros id p msg Hin Hc Hr Hs b'.
    destruct (attempt_succeeds b id p msg Rb Hin Hc Hr Hs)
      as (H1 & H2 & H3 & H4 & H5 & H6).
    repeat split; assumption.
Qed.

(** * The terminal failure *)

Lemma giveUp_settlements e ws :
  settlements (giveUp e ws) =
  map (fun w => (w_caller w, Rejected (handshakeFailure e))) ws.
Proof. apply map_settle_settlements. Qed.

(** C2. A handshake attempt fails when its timer expires, when a response
    without a truthy [success] answers it, or when [destroy] rejects it.
    When such a failure brings the counter to the configured maximum, the
    bridge is in [FAILED] (not ready, no sequence in progress, counter at
    or above the maximum) and every caller parked on [readyPromise] is
    rejected, in the order of the calls, with the error that wraps the
    error of that attempt; no other event moves the counter to the
    maximum.  A later [invoke] in [FAILED] starts one new probe and waits
    on it with the counter still at the maximum, so each of the three
    failures of that probe rejects the call in the same way and leaves
    the bridge in [FAILED] again.  The bridge becomes ready only in the
    turn that delivers a response with a truthy [success] to the pending
    entry of a handshake attempt. *)
Theorem handshake_failure_is_terminal :
  forall (b : Bridge) (ev : Event),
    reachable b ->
    let b' := fst (step b ev) in
    let effs := snd (step b ev) in
    (forall id p,
       In (id, p) (pendingRequests b) ->
       callbacks p = HandshakeAttempt ->
       failsAttempt b id p ev ->
       Opt.ge (handshakeAttempts b + 1)
         (Opt.maxHandshakeAttempts (options b)) = true ->
       handshakeAttempts b' = (handshakeAttempts b + 1)%Z /\
       FAILED b' /\
       effs = giveUp (attemptError ev) (waiters b) /\
       pendingRequests b' = [] /\
       timers (host b') = []) /\
    (isReady b = false ->
     handshakeAttempts b' <> handshakeAttempts b ->
     Opt.ge (handshakeAttempts b') (Opt.maxHandshakeAttempts (options b))
       = true ->
     FAILED b' /\
     settlements effs =
       map (fun w => (w_caller w, Rejected (handshakeFailure (attemptError ev))))
         (waiters b)) /\
    (FAILED b ->
     forall caller action data,
       ev = Invoke caller action data ->
       (exists m, effs = [Post m] /\ isHandshakeRequest m = true) /\
       isReady b' = false /\
       waiters b' = [mkWaiter caller action data] /\
       handshakesInFlight b' = 1 /\
       Opt.ge (handshakeAttempts b')
         (Opt.maxHandshakeAttempts (options b')) = true /\
       exists id p,
         pendingRequests b' = [(id, p)] /\
         callbacks p = HandshakeAttempt /\
         forall later,
           failsAttempt b' id p later ->
           FAILED (fst (step b' later)) /\
           snd (step b' later) =
             [Settle caller
                (Rejected (handshakeFailure (attemptError later)))]) /\
    (FAILED b ->
     forall caller action data later,
       let b1 := fst (step b (Invoke caller action data)) in
       handshakeAttempts (fst (step b1 later)) <> handshakeAttempts b1 ->
       FAILED (fst (step b1 later)) /\
       settlements (snd (step b1 later)) =
         [(caller, Rejected (handshakeFailure (attemptError later)))]) /\
    (isReady b = false ->
     isReady b' = true ->
     exists msg pending,
       ev = MessageEvent msg /\
       listening (host b) = true /\
       pendingFor (getField "requestId" msg) b = Some pending /\
       callbacks pending = HandshakeAttempt /\
       truthy (getField "success" msg) = true).
Proof.
  intros b ev Rb b' effs. pose proof (reachable_phase b Rb) as P.
  assert (Fails : forall s e id p,
            reachable s ->
            In (id, p) (pendingRequests s) ->
            callbacks p = HandshakeAttempt ->
            failsAttempt s id p e ->
            Opt.ge (handshakeAttempts s + 1)
              (Opt.maxHandshakeAttempts (options s)) = true ->
            handshakeAttempts (fst (step s e)) = (handshakeAttempts s + 1)%Z /\
            FAILED (fst (step s e)) /\
            snd (step s e) = giveUp (attemptError e) (waiters s) /\
            pendingRequests (fst (step s e)) = [] /\
            timers (host (fst (step s e))) = []).
  { intros s e id p Rs Hin Hc Hf Hm.
    destruct (attempt_fails s id p e Rs Hin Hc Hf)
      as (R & A & R' & Ep' & Ho & Hmax & _).
    destruct (Hmax Hm) as (E & Erp & Eh & Et).
    split; [exact A|]. split; [|repeat split; assumption].
    unfold FAILED. rewrite A, Ho. repeat split; assumption. }
  assert (Exhaust : forall s e,
            phase s -> isReady s = false ->
            handshakeAttempts (fst (step s e)) <> handshakeAttempts s ->
            Opt.ge (handshakeAttempts (fst (step s e)))
              (Opt.maxHandshakeAttempts (options s)) = true ->
            FAILED (fst (step s e)) /\
            settlements (snd (step s e)) =
              map (fun w => (w_caller w,
                             Rejected (handshakeFailure (attemptError e))))
                (waiters s)).
  { intros s e Ps Rs Hne Hmax.
    destruct (step_verdict s e Ps Rs) as [Ho [[V1 _] | (V1 & V2 & V3)]].
    - contradiction.
    - rewrite V1 in Hmax. destruct (V3 Hmax) as [W1 W2].
      split; [|exact W2]. unfold FAILED. rewrite Ho, V1.
      repeat split; assumption. }
  assert (Start : FAILED b ->
            forall caller action data,
              (exists m, snd (step b (Invoke caller action data)) = [Post m] /\
                         isHandshakeRequest m = true) /\
              isReady (fst (step b (Invoke caller action data))) = false /\
              waiters (fst (step b (Invoke caller action data)))
                = [mkWaiter caller action data] /\
              handshakesInFlight (fst (step b (Invoke caller action data))) = 1 /\
              Opt.ge
                (handshakeAttempts (fst (step b (Invoke caller action data))))
                (Opt.maxHandshakeAttempts
                   (options (fst (step b (Invoke caller action data)))))
                = true).
  { intros (R & E & Hmax) caller action data.
    destruct (not_ready_cases b P R)
      as [[E1 E2] | [(id & h & ms & clock & ws & E1 & E2 & E3)
                    | (h & ms & clock & ws & E1 & E2 & E3 & E4)]];
      try congruence.
    destruct (attemptHandshake_posts b) as [m [Hm1 Hm2]].
    cbn [step]. unfold invoke. rewrite R, E.
    destruct (attemptHandshake b) as [b1 e1] eqn:Ea. cbn [snd fst] in *.
    assert (Eb : b1 = fst (attemptHandshake b)) by (rewrite Ea; reflexivity).
    split; [exists m; split; assumption|].
    subst b1. clear Ea. open_bridge b. repeat split. exact Hmax. }
  split; [|split; [|split; [|split]]].
  - intros id p Hin Hc Hf Hm. exact (Fails b ev id p Rb Hin Hc Hf Hm).
  - intros R Hne Hmax. apply Exhaust; assumption.
  - intros F caller action data Hev. subst b' effs ev.
    destruct (Start F caller action data) as (S1 & S2 & S3 & S4 & S5).
    split; [exact S1|]. split; [exact S2|]. split; [exact S3|].
    split; [exact S4|]. split; [exact S5|].
    destruct F as (R & E & Hmax).
    destruct (invoke_starts_attempt b caller action data Rb R E)
      as (m & _ & _ & _ & _ & H5 & _ & H7 & H8).
    set (b1 := fst (step b (Invoke caller action data))) in *.
    exists (fst (generateId b)),
           (mkPending HandshakeAttempt (nextTimer (host b))).
    split; [exact H5|]. split; [reflexivity|].
    intros later Hf.
    assert (Rb1 : reachable b1) by (apply reachable_step; exact Rb).
    assert (Hin : In (fst (generateId b),
                      mkPending HandshakeAttempt (nextTimer (host b)))
                    (pendingRequests b1))
      by (rewrite H5; left; reflexivity).
    destruct (Fails b1 later _ _ Rb1 Hin eq_refl Hf) as (_ & F1 & E1 & _).
    { apply (ge_mono (handshakeAttempts b1)); [lia | exact S5]. }
    split; [exact F1|]. rewrite E1, H7. reflexivity.
  - intros F caller action data later b1 Hne.
    destruct (Start F caller action data) as (_ & R1 & W1 & _ & M1).
    fold b1 in R1, W1, M1.
    assert (P1 : phase b1) by (apply phase_step; exact P).
    destruct (step_grows b1 later) as [G1 G2].
    destruct (Exhaust b1 later P1 R1 Hne) as [F2 S2].
    { apply (ge_mono (handshakeAttempts b1)); [exact G1 | exact M1]. }
    split; [exact F2|]. rewrite S2, W1. reflexivity.
  - intros R Hr.
    destruct (step_verdict b ev P R) as [Ho [[_ V] | (_ & V & _)]].
    + exact (V Hr).
    + fold b' in V. congruence.
Qed.

(** * [destroy] with a handshake attempt in flight *)

(** C7. The body of [destroy] tears the bridge down, but the turn does not
    end there when a handshake attempt is pending: rejecting the attempt
    runs the [catch] block of [attemptHandshake] once [destroy] has
    returned.  On a bridge with default options whose first call has just
    started the handshake, that block counts the attempt and, with
    attempts left, arms a new retry timer and stores its handle: at the
    end of the turn the bridge is not torn down, the caller of the pending
    [invoke] has not been rejected and is still parked, and when the
    timer fires the destroyed bridge posts another probe.  A second
    [destroy] stops that timer; the caller is not told then either.  With
    no attempt left the same [destroy] does reject the caller. *)
Theorem destroy_leaves_the_handshake_running :
  let d := fst (step probing Destroy) in
  reachable probing /\
  pendingRequests probing = [("1000-a0", mkPending HandshakeAttempt 1)] /\
  waiters probing = [mkWaiter 7 "echo" payload] /\
  tornDown (fst (destroy probing)) /\
  ~ tornDown d /\
  handshakeRetryInterval d = Some 2 /\
  timers (host d) = [mkTimer 2 HandshakeRetry (Opt.Int 1000) 1000] /\
  handshakeAttempts d = 1%Z /\
  snd (step probing Destroy) = [] /\
  waiters d = [mkWaiter 7 "echo" payload] /\
  length (handshakeRequests (snd (step d (TimerFires 2)))) = 1 /\
  tornDown (fst (step d Destroy)) /\
  snd (step d Destroy) = [] /\
  waiters (fst (step d Destroy)) = [mkWaiter 7 "echo" payload] /\
  snd (step impatient Destroy) =
    [Settle 7 (Rejected (mkError "建联失败: Error: 连接已断开"))].
Proof.
  cbv zeta.
  split; [exact reachable_probing|].
  split; [reflexivity|]. split; [reflexivity|].
  split; [apply destroy_tornDown|].
  split.
  { intros (H & _). vm_compute in H. discriminate H. }
  split; [reflexivity|]. split; [reflexivity|]. split; [reflexivity|].
  split; [reflexivity|]. split; [reflexivity|]. split; [reflexivity|].
  split; [vm_compute; repeat split|].
  split; [reflexivity|]. split; reflexivity.
Qed.

(** * The round trip on the channel *)

Lemma act_first a bs ch obs ev :
  act 0 ev (mkWorld (a :: bs) ch obs) =
    mkWorld (fst (step a ev) :: bs) (ch ++ posted (snd (step a ev)))
      (obs ++ snd (step a ev)).
Proof.
  unfold act. cbn [peers nth_error channel observed replaceNth].
  destruct (step a ev) as [a1 e]. reflexivity.
Qed.

Lemma act_second a b bs ch obs ev :
  act 1 ev (mkWorld (a :: b :: bs) ch obs) =
    mkWorld (a :: fst (step b ev) :: bs) (ch ++ posted (snd (step b ev)))
      (obs ++ snd (step b ev)).
Proof.
  unfold act. cbn [peers nth_error channel observed replaceNth].
  destruct (step b ev) as [b1 e]. reflexivity.
Qed.

Lemma deliver_pair a b m ch obs :
  deliver (mkWorld [a; b] (m :: ch) obs) =
    mkWorld [fst (step a (MessageEvent m)); fst (step b (MessageEvent m))]
      (ch ++ posted (snd (step a (MessageEvent m)) ++
                     snd (step b (MessageEvent m))))
      (obs ++ snd (step a (MessageEvent m)) ++ snd (step b (MessageEvent m))).
Proof.
  unfold deliver. cbn [channel peers observed dispatch].
  destruct (step a (MessageEvent m)) as [a1 e1].
  destruct (step b (MessageEvent m)) as [b1 e2]. cbn [fst snd].
  rewrite app_nil_r. reflexivity.
Qed.

(** A bridge that does not admit a sender drops what it sends; a bridge
    that does not admit its own identifier drops its own broadcast. *)
Lemma unadmitted_is_dropped b m :
  isAllowedValue (getField "communicationId" m) b = false ->
  step b (MessageEvent m) = (b, []).
Proof.
  intros H. cbn [step]. destruct (listening (host b)); [|reflexivity].
  unfold handleMessage. rewrite H.
  destruct (negb (isObject m) || _); reflexivity.
Qed.

(** A response that names no pending entry changes nothing. *)
Lemma stray_response_is_dropped b m :
  truthy (getField "action" m) = false ->
  pendingFor (getField "requestId" m) b = None ->
  step b (MessageEvent m) = (b, []).
Proof.
  intros Ha Hp. cbn [step]. destruct (listening (host b)); [|reflexivity].
  unfold handleMessage.
  destruct (negb (isObject m) || _); [reflexivity|].
  destruct (negb (isAllowedValue _ b)); [reflexivity|].
  rewrite Ha. unfold handleResponseMessage. rewrite Hp.
  destruct (truthy (getField "requestId" m)); reflexivity.
Qed.

Lemma isAllowedValue_id c b : isAllowedValue (VStr c) b = isAllowedId c b.
Proof. reflexivity. Qed.

(** From the request on the channel to the settled call. *)
Lemma request_round A0 B caller action data h v obs :
  listening (host A0) = true ->
  listening (host B) = true ->
  action <> "" ->
  messageType A0 = messageType B ->
  isAllowedId (communicationId A0) B = true ->
  isAllowedId (communicationId B) A0 = true ->
  isAllowedId (communicationId A0) A0 = false ->
  map_get action (messageHandlers B) = Some h ->
  awaited (h (dateNow B) data) = Some v ->
  let id := fst (generateId A0) in
  let A1 := fst (invokeRequest caller action data A0) in
  let m := requestEnvelope A1 id action data true in
  let B2 := snd (generateId B) in
  let r := responseEnvelope B2 (fst (generateId B)) (VStr id) true v VUndefined in
  let A2 := deletePending (VStr id) (clearTimeout (nextTimer (host A0)) A1) in
  let w2 := settleHandler B (h (dateNow B) data)
              (deliver (mkWorld [A1; B] [m] obs)) in
  w2 = mkWorld [A1; B2] [r] (obs ++ [Post r]) /\
  deliver w2 =
    mkWorld [A2; fst (step B2 (MessageEvent r))]
      (posted (snd (step B2 (MessageEvent r))))
      (obs ++ [Post r; Settle caller (Resolved v)] ++
       snd (step B2 (MessageEvent r))) /\
  pendingFor (VStr id) A2 = None.
Proof.
  intros LA LB Hact Ht HaB HaA Hself Hh Hv id A1 m B2 r A2 w2.
  destruct (invokeRequest_spec caller action data A0)
    as (S1 & S2 & S3 & S4 & S5 & S6).
  fold id in S1, S6. fold A1 in S1, S2, S3, S4, S5, S6.
  destruct (request_fields A1 id action data true)
    as (M1 & M2 & M3 & M4 & M5 & M6 & M7 & M8).
  fold m in M1, M2, M3, M4, M5, M6, M7, M8.
  destruct (response_fields B2 (fst (generateId B)) (VStr id) true v VUndefined)
    as (R1 & R2 & R3 & R4 & R5 & R6 & R7 & R8).
  fold r in R1, R2, R3, R4, R5, R6, R7, R8.
  assert (Own : step A1 (MessageEvent m) = (A1, [])).
  { apply unadmitted_is_dropped. rewrite M3, isAllowedValue_id.
    unfold isAllowedId. rewrite S3, S4. exact Hself. }
  assert (Tact : truthy (getField "action" m) = true).
  { rewrite M5. cbn. destruct (action =? "") eqn:E; [|reflexivity].
    apply String.eqb_eq in E. contradiction. }
  assert (Gt : strictEqStr (getField "type" m) (messageType B) = true).
  { rewrite M2, S2, Ht. unfold strictEqStr. apply String.eqb_refl. }
  assert (Ga : isAllowedValue (getField "communicationId" m) B = true).
  { rewrite M3, S3. exact HaB. }
  assert (Gh : handlerFor (getField "action" m) B = Some h).
  { rewrite M5. exact Hh. }
  assert (Gn : truthy (getField "needResponse" m) = true)
    by (rewrite M7; reflexivity).
  assert (Gr : truthy (getField "requestId" m) = false)
    by (rewrite M8; reflexivity).
  assert (W2 : w2 = mkWorld [A1; B2] [r] (obs ++ [Post r])).
  { subst w2. rewrite deliver_pair, Own. cbn [fst snd app].
    destruct (h (dateNow B) data) as [v'|t|[v'|t]] eqn:Eh;
      cbn in Hv; try discriminate; inversion Hv; subst v'.
    - rewrite <- M6 in Eh.
      rewrite (deliver_request_sync B m h v LB M1 Gt Ga Tact Gr Gh Eh Gn).
      rewrite M4. reflexivity.
    - rewrite <- M6 in Eh.
      destruct (deliver_request_async B m h v LB M1 Gt Ga Tact Gr Gh Eh Gn)
        as [b0 [D1 D2]].
      rewrite D1. cbn [fst snd posted flat_map settleHandler].
      rewrite act_second, D2, M4. cbn [fst snd posted flat_map app].
      rewrite app_nil_r. reflexivity. }
  assert (EB : messageType B2 = messageType B /\
               communicationId B2 = communicationId B).
  { subst B2. destruct B as [? ? ? ? ? ? ? ? ? ? []]. split; reflexivity. }
  destruct EB as [EB1 EB2].
  assert (Hs : step A1 (MessageEvent r) =
               fire (InvokeCall caller) (Resolved (getField "data" r))
                 (deletePending (getField "requestId" r)
                    (clearTimeout (nextTimer (host A0)) A1))).
  { apply (deliver_response_ok A1 r
             (mkPending (InvokeCall caller) (nextTimer (host A0)))).
    - rewrite S5. exact LA.
    - exact R1.
    - rewrite R2. unfold strictEqStr. rewrite S2, Ht, EB1.
      apply String.eqb_refl.
    - rewrite R3, EB2. unfold isAllowedValue. rewrite S4. exact HaA.
    - rewrite R8. reflexivity.
    - rewrite R4. apply generateId_truthy.
    - rewrite R4. exact S6.
    - rewrite R5. reflexivity. }
  rewrite R4, R6 in Hs. cbn [fire] in Hs. fold A2 in Hs.
  split; [exact W2|]. split.
  - rewrite W2, deliver_pair, Hs. cbn [fst snd app].
    rewrite <- app_assoc. reflexivity.
  - subst A2. unfold deletePending, pendingFor.
    change (pendingRequests (set_pendingRequests ?x ?y)) with x.
    apply map_get_delete_same.
Qed.

Lemma calling_ready A B caller action data :
  isReady A = true ->
  let A1 := fst (invokeRequest caller action data A) in
  let m := requestEnvelope A1 (fst (generateId A)) action data true in
  calling A B caller action data = mkWorld [A1; B] [m] [Post m].
Proof.
  intros RA A1 m. unfold calling. rewrite act_first. cbn [step].
  unfold invoke. rewrite RA.
  destruct (invokeRequest_spec caller action data A) as (S1 & _).
  rewrite S1. reflexivity.
Qed.

(** ** Delivering what is queued *)

Lemma pump_empty fuel w : channel w = [] -> pump fuel w = w.
Proof. intros E. destruct fuel; cbn [pump]; [|rewrite E]; reflexivity. Qed.

Lemma pump_deliver fuel w m ch :
  channel w = m :: ch -> pump (S fuel) w = pump fuel (deliver w).
Proof. intros E. cbn [pump]. rewrite E. reflexivity. Qed.

Lemma deliver_observed w : exists e, observed (deliver w) = (observed w ++ e)%list.
Proof.
  unfold deliver. destruct (channel w) as [|m ch].
  - exists []. rewrite app_nil_r. reflexivity.
  - destruct (dispatch m (peers w)) as [bs e]. exists e. reflexivity.
Qed.

Lemma pump_observed fuel :
  forall w, exists e, observed (pump fuel w) = (observed w ++ e)%list.
Proof.
  induction fuel as [|fuel IH]; intros w; cbn [pump].
  - exists []. rewrite app_nil_r. reflexivity.
  - destruct (channel w) as [|m ch].
    + exists []. rewrite app_nil_r. reflexivity.
    + destruct (IH (deliver w)) as [e1 E1].
      destruct (deliver_observed w) as [e0 E0].
      exists (e0 ++ e1)%list. rewrite E1, E0, app_assoc. reflexivity.
Qed.

(** Once the channel has run empty nothing more is observed: what any
    amount of fuel shows, the run to the empty channel shows. *)
Lemma pump_settled x n :
  forall w fuel,
    channel (pump n w) = [] ->
    In x (settlements (observed (pump fuel w))) ->
    In x (settlements (observed (pump n w))).
Proof.
  induction n as [|n IH]; intros w fuel E H.
  - cbn [pump] in E |- *. rewrite (pump_empty fuel w E) in H. exact H.
  - destruct (channel w) as [|m ch] eqn:C.
    + rewrite (pump_empty _ w C). rewrite (pump_empty fuel w C) in H. exact H.
    + rewrite (pump_deliver n w m ch C) in E |- *.
      destruct fuel as [|fuel].
      * cbn [pump] in H.
        destruct (deliver_observed w) as [e0 E0].
        destruct (pump_observed n (deliver w)) as [e1 E1].
        rewrite E1, E0, !settlements_app. apply in_or_app. left.
        apply in_or_app. left. exact H.
      * rewrite (pump_deliver fuel w m ch C) in H.
        exact (IH (deliver w) fuel E H).
Qed.

(** ** The call and its answer *)

Lemma request_round_trip A0 B caller action data h v obs :
  listening (host A0) = true ->
  listening (host B) = true ->
  action <> "" ->
  messageType A0 = messageType B ->
  isAllowedId (communicationId A0) B = true ->
  isAllowedId (communicationId B) A0 = true ->
  isAllowedId (communicationId A0) A0 = false ->
  map_get action (messageHandlers B) = Some h ->
  awaited (h (dateNow B) data) = Some v ->
  let A1 := fst (invokeRequest caller action data A0) in
  let m := requestEnvelope A1 (fst (generateId A0)) action data true in
  roundTrip (mkWorld [A1; B] [m] obs) B caller action data h v.
Proof.
  intros LA LB Hact Ht HaB HaA Hself Hh Hv A1 m.
  destruct (request_round A0 B caller action data h v obs
              LA LB Hact Ht HaB HaA Hself Hh Hv) as (W2 & W3 & Hp).
  fold A1 in W2, W3, Hp. fold m in W2, W3.
  unfold roundTrip. cbv zeta. rewrite W3, W2.
  set (B2 := snd (generateId B)) in *.
  set (r := responseEnvelope B2 (fst (generateId B))
              (VStr (fst (generateId A0))) true v VUndefined) in *.
  exists m, r. eexists. exists (fst (step B2 (MessageEvent r))).
  exists (settlements (snd (step B2 (MessageEvent r)))).
  split; [reflexivity|]. split; [reflexivity|]. split; [reflexivity|].
  split; [reflexivity|]. split; [reflexivity|]. split; [reflexivity|].
  split; [reflexivity|]. split; [reflexivity|].
  split; [exact Hp|]. split.
  - cbn [observed]. rewrite !settlements_app. reflexivity.
  - intros HB. rewrite (unadmitted_is_dropped B2 r); [reflexivity|].
    subst r B2. destruct B as [? ? ? ? ? ? ? ? ? ? []]. exact HB.
Qed.

(** A ready peer A calls. *)
Lemma ready_round_trip A B caller action data h v :
  connected A B ->
  isReady A = true ->
  map_get action (messageHandlers B) = Some h ->
  awaited (h (dateNow B) data) = Some v ->
  action <> "" ->
  isAllowedId (communicationId A) A = false ->
  roundTrip (calling A B caller action data) B caller action data h v.
Proof.
  intros (LA & LB & Ht & HaB & HaA) RA Hh Hv Hact Hself.
  rewrite (calling_ready A B caller action data RA).
  apply request_round_trip; assumption.
Qed.

(** An idle peer A calls: the probe, B's answer to it, and the request A
    posts once the answer has made it ready. *)
Lemma handshake_round A B c a d :
  connected A B ->
  isReady A = false ->
  readyPromise A = None ->
  isAllowedId (communicationId A) A = false ->
  map_get HANDSHAKE_ACTION (messageHandlers B) = Some handshakeHandler ->
  isAllowedId (communicationId B) B = false \/
  pendingFor (VStr (fst (generateId A))) B = None ->
  exists A2 obs,
    pump 2 (calling A B c a d) =
      mkWorld [fst (invokeRequest c a d A2); snd (generateId B)]
        [requestEnvelope (fst (invokeRequest c a d A2)) (fst (generateId A2))
           a d true] obs /\
    settlements obs = [] /\
    isReady A2 = true /\
    listening (host A2) = true /\
    messageType A2 = messageType A /\
    communicationId A2 = communicationId A /\
    allowedIds A2 = allowedIds A.
Proof.
  intros (LA & LB & Ht & HaB & HaA) RA RP Hself Hh HB.
  set (id0 := fst (generateId A)) in *.
  set (A' := fst (sendSingleHandshakeRequest A)).
  set (A1 := set_readyPromise (Some [mkWaiter c a d]) A').
  set (p0 := requestEnvelope A' id0 HANDSHAKE_ACTION
               (VObj [("timestamp", VNum (dateNow A'))]) true).
  assert (E1 : step A (Invoke c a d) = (A1, [Post p0])).
  { cbn [step]. unfold invoke. rewrite RA, RP. subst A1 p0 A' id0.
    destruct A as [? ? ? ? ? ? ? ? ? ? []]. reflexivity. }
  assert (F1 : listening (host A1) = listening (host A) /\
               messageType A1 = messageType A /\
               communicationId A1 = communicationId A /\
               allowedIds A1 = allowedIds A /\
               messageType A' = messageType A /\
               communicationId A' = communicationId A /\
               pendingFor (VStr id0) A1 =
                 Some (mkPending HandshakeAttempt (nextTimer (host A)))).
  { subst A1 p0 A' id0. destruct A as [? ? ? ? ? ? ? ? ? ? []].
    repeat split. apply map_get_set_same. }
  destruct F1 as (F1 & F2 & F3 & F4 & F5 & F6 & F7).
  destruct (request_fields A' id0 HANDSHAKE_ACTION
              (VObj [("timestamp", VNum (dateNow A'))]) true)
    as (M1 & M2 & M3 & M4 & M5 & M6 & M7 & M8).
  fold p0 in M1, M2, M3, M4, M5, M6, M7, M8.
  set (B1 := snd (generateId B)).
  set (hv := VObj [("success", VBool true); ("timestamp", VNum (dateNow B))]).
  set (r0 := responseEnvelope B1 (fst (generateId B)) (VStr id0) true hv
               VUndefined).
  destruct (response_fields B1 (fst (generateId B)) (VStr id0) true hv
              VUndefined) as (R1 & R2 & R3 & R4 & R5 & R6 & R7 & R8).
  fold r0 in R1, R2, R3, R4, R5, R6, R7, R8.
  assert (EB : messageType B1 = messageType B /\
               communicationId B1 = communicationId B /\
               allowedIds B1 = allowedIds B /\
               pendingRequests B1 = pendingRequests B).
  { subst B1. destruct B as [? ? ? ? ? ? ? ? ? ? []]. repeat split. }
  destruct EB as (EB1 & EB2 & EB3 & EB4).
  assert (Own : step A1 (MessageEvent p0) = (A1, [])).
  { apply unadmitted_is_dropped. rewrite M3, F6, isAllowedValue_id.
    unfold isAllowedId. rewrite F4. exact Hself. }
  assert (AtB : step B (MessageEvent p0) = (B1, [Post r0])).
  { assert (X : step B (MessageEvent p0) =
                (snd (generateId B),
                 [Post (responseEnvelope (snd (generateId B))
                          (fst (generateId B)) (getField "id" p0) true hv
                          VUndefined)])).
    { apply (deliver_request_sync B p0 handshakeHandler hv LB M1).
      - rewrite M2, F5, Ht. unfold strictEqStr. apply String.eqb_refl.
      - rewrite M3, F6. exact HaB.
      - rewrite M5. reflexivity.
      - rewrite M8. reflexivity.
      - rewrite M5. exact Hh.
      - reflexivity.
      - rewrite M7. reflexivity. }
    rewrite X, M4. reflexivity. }
  set (A2 := set_readyPromise None
               (stopHandshakeRetry
                  (set_isReady true
                     (deletePending (VStr id0)
                        (clearTimeout (nextTimer (host A)) A1))))).
  assert (AtA : step A1 (MessageEvent r0) =
                (fst (invokeRequest c a d A2),
                 [Post (requestEnvelope (fst (invokeRequest c a d A2))
                          (fst (generateId A2)) a d true)])).
  { rewrite (deliver_response_ok A1 r0
               (mkPending HandshakeAttempt (nextTimer (host A)))).
    - rewrite R4. cbn [callbacks timeout fire].
      unfold attemptHandshake_then, resolveReady.
      assert (Q : readyPromise
                    (stopHandshakeRetry
                       (set_isReady true
                          (deletePending (VStr id0)
                             (clearTimeout (nextTimer (host A)) A1)))) =
                  Some [mkWaiter c a d]).
      { subst A1 A'. destruct A as [? ? ? ? ? ? ? [hri|] ? ? []]; reflexivity. }
      rewrite Q. fold A2. cbn [resumeInvokes w_caller w_action w_data].
      destruct (invokeRequest_spec c a d A2) as (S1 & _).
      destruct (invokeRequest c a d A2) as [A3 e3]. cbn [fst snd] in *.
      rewrite S1. reflexivity.
    - rewrite F1. exact LA.
    - exact R1.
    - rewrite R2, EB1, F2, Ht. unfold strictEqStr. apply String.eqb_refl.
    - rewrite R3, EB2, isAllowedValue_id. unfold isAllowedId. rewrite F4.
      exact HaA.
    - rewrite R8. reflexivity.
    - rewrite R4. apply generateId_truthy.
    - rewrite R4. exact F7.
    - rewrite R5. reflexivity. }
  assert (OwnB : step B1 (MessageEvent r0) = (B1, [])).
  { destruct HB as [HB|HB].
    - apply unadmitted_is_dropped. rewrite R3, EB2, isAllowedValue_id.
      unfold isAllowedId. rewrite EB3. exact HB.
    - apply stray_response_is_dropped.
      + rewrite R8. reflexivity.
      + rewrite R4. unfold pendingFor. rewrite EB4. exact HB. }
  exists A2. eexists. split.
  - unfold calling. rewrite act_first, E1. cbn [fst snd posted flat_map app].
    rewrite (pump_deliver 1 _ p0 []) by reflexivity.
    rewrite deliver_pair, Own, AtB. cbn [fst snd posted flat_map app].
    rewrite (pump_deliver 0 _ r0 []) by reflexivity.
    rewrite deliver_pair, AtA, OwnB. cbn [fst snd posted flat_map app pump].
    reflexivity.
  - split; [reflexivity|].
    subst A2 A1 A'.
    destruct A as [? ? ? ? ? ? ? [hri|] ? ? []]; cbn in LA |- *;
      repeat split; exact LA.
Qed.

Lemma roundTrip_generateId w B caller action data h v :
  roundTrip w (snd (generateId B)) caller action data h v ->
  roundTrip w B caller action data h v.
Proof. destruct B as [? ? ? ? ? ? ? ? ? ? []]. exact (fun H => H). Qed.

Lemma idle_round_trip A B caller action data h v :
  connected A B ->
  isReady A = false ->
  readyPromise A = None ->
  map_get HANDSHAKE_ACTION (messageHandlers B) = Some handshakeHandler ->
  isAllowedId (communicationId B) B = false \/
  pendingFor (VStr (fst (generateId A))) B = None ->
  map_get action (messageHandlers B) = Some h ->
  awaited (h (dateNow B) data) = Some v ->
  action <> "" ->
  isAllowedId (communicationId A) A = false ->
  settlements (observed (pump 2 (calling A B caller action data))) = [] /\
  roundTrip (pump 2 (calling A B caller action data)) B caller action data h v.
Proof.
  intros C RA RP Hhs HB Hh Hv Hact Hself.
  destruct (handshake_round A B caller action data C RA RP Hself Hhs HB)
    as (A2 & obs & W & So & R2 & L2 & T2 & C2 & Al2).
  destruct C as (LA & LB & Ht & HaB & HaA).
  rewrite W. split; [exact So|].
  apply roundTrip_generateId.
  assert (EB : listening (host (snd (generateId B))) = listening (host B) /\
               messageType (snd (generateId B)) = messageType B /\
               communicationId (snd (generateId B)) = communicationId B /\
               allowedIds (snd (generateId B)) = allowedIds B /\
               messageHandlers (snd (generateId B)) = messageHandlers B /\
               dateNow (snd (generateId B)) = dateNow B).
  { destruct B as [? ? ? ? ? ? ? ? ? ? []]. repeat split. }
  destruct EB as (E1 & E2 & E3 & E4 & E5 & E6).
  apply request_round_trip.
  - exact L2.
  - rewrite E1. exact LB.
  - exact Hact.
  - rewrite T2, E2. exact Ht.
  - rewrite C2. unfold isAllowedId. rewrite E4. exact HaB.
  - rewrite E3. unfold isAllowedId. rewrite Al2. exact HaA.
  - rewrite C2. unfold isAllowedId. rewrite Al2. exact Hself.
  - rewrite E5. exact Hh.
  - rewrite E6. exact Hv.
Qed.

(** With a handler that returns a plain value the two deliveries are all
    it takes. *)
Lemma roundTrip_pump w0 B caller action data h v :
  h (dateNow B) data = Returns v ->
  roundTrip w0 B caller action data h v ->
  In (caller, Resolved v) (settlements (observed (pump 2 w0))).
Proof.
  intros Hr. unfold roundTrip. rewrite Hr. cbn [settleHandler].
  intros (m & r & A2 & B2 & rest & C0 & _ & _ & C1 & _ & _ & _ & _ & _ & S & _).
  rewrite (pump_deliver 1 w0 m [] C0).
  rewrite (pump_deliver 0 (deliver w0) r [] C1). cbn [pump].
  rewrite S. apply in_or_app. right. left. reflexivity.
Qed.

Lemma pump_plus n : forall k w, pump (n + k) w = pump k (pump n w).
Proof.
  induction n as [|n IH]; intros k w; [reflexivity|].
  cbn [Nat.add pump]. destruct (channel w) eqn:C.
  - rewrite (pump_empty k w C). reflexivity.
  - apply IH.
Qed.

(** C1. On a channel shared by peer A, constructed first, and peer B (both
    listening with the same message type, each admitting the other's
    identifier), let B hold a handler for a non-empty [action] that
    returns [v] for [data], at once or as the value of the promise it
    returns, and let A not admit its own identifier.  If A is ready,
    [invoke action data] queues one request that carries [action] and
    [data]; its delivery, followed by the turn in which the handler's
    promise settles, leaves one success response that names the request
    and carries [v]; and the delivery of that response resolves the call
    with [v] and removes its entry from A's table.  If A has no handshake
    running, the call first queues the probe; B's pre-registered handshake
    handler answers it, nothing is settled meanwhile, and the answer makes
    A ready and queues the request, from where the call goes the same way.
    With a handler that returns a plain value the call is resolved with
    [v] after two deliveries from a ready A and four from an idle one. *)
Theorem round_trip :
  (forall (A B : Bridge) (caller : nat) (action : string) (data : value)
          (h : Handler) (v : value),
     connected A B ->
     map_get action (messageHandlers B) = Some h ->
     awaited (h (dateNow B) data) = Some v ->
     action <> "" ->
     isAllowedId (communicationId A) A = false ->
     (isReady A = true ->
      roundTrip (calling A B caller action data) B caller action data h v) /\
     (isReady A = false ->
      readyPromise A = None ->
      map_get HANDSHAKE_ACTION (messageHandlers B) = Some handshakeHandler ->
      isAllowedId (communicationId B) B = false \/
      pendingFor (VStr (fst (generateId A))) B = None ->
      settlements (observed (pump 2 (calling A B caller action data))) = [] /\
      roundTrip (pump 2 (calling A B caller action data)) B
        caller action data h v /\
      (h (dateNow B) data = Returns v ->
       In (caller, Resolved v)
         (settlements
            (observed (pump 4 (calling A B caller action data))))))) /\
  round_trip_claim
    (fun A action =>
       action <> "" /\ isAllowedId (communicationId A) A = false).
Proof.
  split.
  - intros A B caller action data h v C Hh Hv Hact Hself. split.
    + intros RA. apply ready_round_trip; assumption.
    + intros RA RP Hhs HB.
      destruct (idle_round_trip A B caller action data h v
                  C RA RP Hhs HB Hh Hv Hact Hself) as [S RT].
      split; [exact S|]. split; [exact RT|].
      intros Hr. change 4 with (2 + 2). rewrite pump_plus.
      exact (roundTrip_pump _ B caller action data h v Hr RT).
  - intros A B caller action data h v C RA Hh Hr [Hact Hself].
    exists 2.
    apply (roundTrip_pump _ B caller action data h v Hr).
    apply ready_round_trip; try assumption.
    rewrite Hr. reflexivity.
Qed.

(** The round trip as worded fails, and so does each half of the
    condition on its own.  With default options peer A, constructed
    first, admits every identifier: it hears its own request, finds no
    handler for [echo] and posts the missing-handler failure, which
    reaches it before B's answer does, so the call is rejected.  Between
    two peers that allow-list each other a call of the empty action is
    never handed to the handler registered under that name: the channel
    runs empty and the call is not settled. *)
Lemma round_trip_as_stated_fails :
  ~ round_trip_as_stated /\
  ~ round_trip_claim (fun _ action => action <> "") /\
  ~ round_trip_claim
      (fun A _ => isAllowedId (communicationId A) A = false).
Proof.
  assert (D : forall side : Bridge -> string -> Prop,
            side defaultReadyA "echo" -> ~ round_trip_claim side).
  { intros side Hs H.
    destruct (H defaultReadyA defaultB 8 "echo" payload echo payload)
      as [fuel Hin].
    - vm_compute. repeat split.
    - vm_compute; reflexivity.
    - vm_compute; reflexivity.
    - vm_compute; reflexivity.
    - exact Hs.
    - apply (pump_settled _ 4) in Hin; [|vm_compute; reflexivity].
      assert (S : settlements
                    (observed
                       (pump 4 (calling defaultReadyA defaultB 8 "echo"
                                  payload))) =
                  [(8, Rejected (mkError "未找到处理器: echo"))])
        by (vm_compute; reflexivity).
      rewrite S in Hin. destruct Hin as [Hin|[]]. discriminate Hin. }
  assert (E : forall side : Bridge -> string -> Prop,
            side readyA "" -> ~ round_trip_claim side).
  { intros side Hs H.
    destruct (H readyA peerB_unnamed 8 "" payload echo payload)
      as [fuel Hin].
    - vm_compute. repeat split.
    - vm_compute; reflexivity.
    - vm_compute; reflexivity.
    - vm_compute; reflexivity.
    - exact Hs.
    - apply (pump_settled _ 1) in Hin; [|vm_compute; reflexivity].
      assert (S : settlements
                    (observed
                       (pump 1 (calling readyA peerB_unnamed 8 "" payload))) =
                  []) by (vm_compute; reflexivity).
      rewrite S in Hin. destruct Hin. }
  split; [apply D; exact I|]. split.
  - apply D. discriminate.
  - apply E. vm_compute. reflexivity.
Qed.

Lemma round_trip_witness :
  connected readyA peerB /\
  connected peerA peerB /\
  map_get "echo" (messageHandlers peerB) = Some echo /\
  isAllowedId (communicationId peerA) peerA = false /\
  isReady readyA = true /\
  isReady peerA = false /\
  roundTrip (calling readyA peerB 8 "echo" payload) peerB
    8 "echo" payload echo payload /\
  In (8, Resolved payload)
    (settlements (observed (pump 4 (calling peerA peerB 8 "echo" payload)))).
Proof.
  assert (C1 : connected readyA peerB) by (vm_compute; repeat split).
  assert (C2 : connected peerA peerB) by (vm_compute; repeat split).
  assert (N : "echo" <> "") by discriminate.
  assert (S1 : isAllowedId (communicationId readyA) readyA = false)
    by (vm_compute; reflexivity).
  assert (S2 : isAllowedId (communicationId peerA) peerA = false)
    by (vm_compute; reflexivity).
  assert (R1 : isReady readyA = true) by (vm_compute; reflexivity).
  assert (R2 : isReady peerA = false) by (vm_compute; reflexivity).
  assert (P2 : readyPromise peerA = None) by (vm_compute; reflexivity).
  assert (Hh : map_get "echo" (messageHandlers peerB) = Some echo)
    by (vm_compute; reflexivity).
  assert (Hs : map_get HANDSHAKE_ACTION (messageHandlers peerB) =
               Some handshakeHandler) by (vm_compute; reflexivity).
  assert (Hb : isAllowedId (communicationId peerB) peerB = false)
    by (vm_compute; reflexivity).
  split; [exact C1|]. split; [exact C2|].
  split; [exact Hh|]. split; [exact S2|].
  split; [exact R1|]. split; [exact R2|].
  destruct round_trip as [H _].
  split.
  - destruct (H readyA peerB 8 "echo" payload echo payload
                C1 Hh eq_refl N S1) as [Hr _].
    exact (Hr R1).
  - destruct (H peerA peerB 8 "echo" payload echo payload
                C2 Hh eq_refl N S2) as [_ Hi].
    destruct (Hi R2 P2 Hs (or_introl Hb)) as (_ & _ & Hp).
    exact (Hp eq_refl).
Defined.

(** * The handshake on the sample bridges *)

Lemma reachable_impatient : reachable impatient.
Proof. apply reachable_step, reachable_new. Qed.

Lemma handshake_attempt_protocol_witness :
  let entry := mkPending HandshakeAttempt 1 in
  let retried := fst (step probing (TimerFires 1)) in
  reachable probing /\
  isReady defaultA = false /\
  In ("1000-a0", entry) (pendingRequests probing) /\
  failsAttempt probing "1000-a0" entry (TimerFires 1) /\
  failsAttempt probing "1000-a0" entry (MessageEvent probeRefusal) /\
  respondsTo probing "1000-a0" probeAnswer /\
  Opt.ge (handshakeAttempts probing + 1)
    (Opt.maxHandshakeAttempts (options probing)) = false /\
  Opt.ge (handshakeAttempts impatient + 1)
    (Opt.maxHandshakeAttempts (options impatient)) = true /\
  (exists m,
     snd (step defaultA (Invoke 7 "echo" payload)) = [Post m] /\
     getField "action" m = VStr HANDSHAKE_ACTION) /\
  handshakeAttempts retried = (handshakeAttempts probing + 1)%Z /\
  snd (step probing (TimerFires 1)) = [] /\
  timers (host retried) =
    [mkTimer (nextTimer (host probing)) HandshakeRetry
       (Opt.handshakeRetryInterval (options probing)) (dateNow retried)] /\
  handshakeAttempts (fst (step probing (MessageEvent probeRefusal))) =
    (handshakeAttempts probing + 1)%Z /\
  snd (step impatient Destroy) =
    giveUp (attemptError Destroy) (waiters impatient) /\
  FAILED (fst (step impatient Destroy)) /\
  isReady (fst (step probing (MessageEvent probeAnswer))) = true /\
  handshakeRetryInterval (fst (step probing (MessageEvent probeAnswer))) =
    None.
Proof.
  intros entry retried.
  assert (Hin : In ("1000-a0", entry) (pendingRequests probing))
    by (left; reflexivity).
  assert (Hin' : In ("1000-a0", entry) (pendingRequests impatient))
    by (left; reflexivity).
  assert (F1 : failsAttempt probing "1000-a0" entry (TimerFires 1))
    by reflexivity.
  assert (F2 : failsAttempt probing "1000-a0" entry
                 (MessageEvent probeRefusal))
    by (vm_compute; repeat split).
  assert (F3 : respondsTo probing "1000-a0" probeAnswer)
    by (vm_compute; repeat split).
  assert (G1 : Opt.ge (handshakeAttempts probing + 1)
                 (Opt.maxHandshakeAttempts (options probing)) = false)
    by (vm_compute; reflexivity).
  assert (G2 : Opt.ge (handshakeAttempts impatient + 1)
                 (Opt.maxHandshakeAttempts (options impatient)) = true)
    by (vm_compute; reflexivity).
  split; [exact reachable_probing|]. split; [reflexivity|].
  split; [exact Hin|]. split; [exact F1|]. split; [exact F2|].
  split; [exact F3|]. split; [exact G1|]. split; [exact G2|].
  destruct (handshake_attempt_protocol defaultA
              (reachable_new "a" Opt.none 1000%Z randomA))
    as (Start & _).
  destruct (Start eq_refl eq_refl 7 "echo" payload) as (m & S1 & S2 & _).
  split; [exists m; split; assumption|].
  destruct (handshake_attempt_protocol probing reachable_probing)
    as (_ & _ & Fail & Ok).
  destruct (Fail "1000-a0" entry (TimerFires 1) Hin eq_refl F1)
    as (T1 & _ & _ & _ & More).
  destruct (More G1) as (T2 & _ & _ & T3 & _).
  split; [exact T1|]. split; [exact T2|]. split; [exact T3|].
  destruct (Fail "1000-a0" entry (MessageEvent probeRefusal) Hin eq_refl F2)
    as (U1 & _).
  split; [exact U1|].
  destruct (handshake_attempt_protocol impatient reachable_impatient)
    as (_ & _ & Fail' & _).
  destruct (Fail' "1000-a0" entry Destroy Hin' eq_refl I)
    as (_ & _ & _ & Limit & _).
  destruct (Limit G2) as (V1 & V2 & _).
  split; [exact V1|]. split; [exact V2|].
  destruct (Ok "1000-a0" entry probeAnswer Hin eq_refl F3 eq_refl)
    as (W1 & _ & W2 & _).
  split; [exact W1 | exact W2].
Defined.

Lemma handshake_failure_is_terminal_witness :
  let entry := mkPending HandshakeAttempt 1 in
  let failed := fst (step impatient (TimerFires 1)) in
  reachable impatient /\
  In ("1000-a0", entry) (pendingRequests impatient) /\
  failsAttempt impatient "1000-a0" entry (TimerFires 1) /\
  failsAttempt impatient "1000-a0" entry (MessageEvent probeRefusal) /\
  Opt.ge (handshakeAttempts impatient + 1)
    (Opt.maxHandshakeAttempts (options impatient)) = true /\
  (FAILED failed /\
   snd (step impatient (TimerFires 1)) =
     giveUp (attemptError (TimerFires 1)) (waiters impatient)) /\
  (FAILED (fst (step impatient Destroy)) /\
   snd (step impatient Destroy) =
     giveUp (attemptError Destroy) (waiters impatient)) /\
  (FAILED (fst (step impatient (MessageEvent probeRefusal))) /\
   snd (step impatient (MessageEvent probeRefusal)) =
     giveUp (attemptError (MessageEvent probeRefusal)) (waiters impatient)) /\
  (exists m,
     snd (step failed (Invoke 8 "sum" VNull)) = [Post m] /\
     isHandshakeRequest m = true) /\
  waiters (fst (step failed (Invoke 8 "sum" VNull))) =
    [mkWaiter 8 "sum" VNull].
Proof.
  intros entry failed.
  assert (Hin : In ("1000-a0", entry) (pendingRequests impatient))
    by (left; reflexivity).
  assert (F1 : failsAttempt impatient "1000-a0" entry (TimerFires 1))
    by reflexivity.
  assert (F2 : failsAttempt impatient "1000-a0" entry
                 (MessageEvent probeRefusal))
    by (vm_compute; repeat split).
  assert (G : Opt.ge (handshakeAttempts impatient + 1)
                (Opt.maxHandshakeAttempts (options impatient)) = true)
    by (vm_compute; reflexivity).
  split; [exact reachable_impatient|]. split; [exact Hin|].
  split; [exact F1|]. split; [exact F2|]. split; [exact G|].
  destruct (handshake_failure_is_terminal impatient (TimerFires 1)
              reachable_impatient) as (H1 & _).
  destruct (H1 "1000-a0" entry Hin eq_refl F1 G) as (_ & A1 & A2 & _).
  split; [split; [exact A1 | exact A2]|].
  destruct (handshake_failure_is_terminal impatient Destroy
              reachable_impatient) as (H2 & _).
  destruct (H2 "1000-a0" entry Hin eq_refl I G) as (_ & B1 & B2 & _).
  split; [split; [exact B1 | exact B2]|].
  destruct (handshake_failure_is_terminal impatient
              (MessageEvent probeRefusal) reachable_impatient) as (H3 & _).
  destruct (H3 "1000-a0" entry Hin eq_refl F2 G) as (_ & C1 & C2 & _).
  split; [split; [exact C1 | exact C2]|].
  destruct (handshake_failure_is_terminal failed (Invoke 8 "sum" VNull)
              (reachable_step impatient (TimerFires 1) reachable_impatient))
    as (_ & _ & H4 & _).
  destruct (H4 A1 8 "sum" VNull eq_refl) as (D1 & _ & D2 & _).
  split; [exact D1 | exact D2].
Defined.
